(** * HeapStats agent: snapshot container, child-class lists, container pool
      and class container.

    Shallow embedding of
      - snapShotContainer.hpp (structures, findClass, findChildClass,
        addInc, clearObjectCounter, clearChildClassCounters, setters),
      - snapShotContainer.cpp (getInstance, releaseInstance, constructor,
        destructor, pushNewClass, pushNewChildClass, setJvmInfo, clear),
      - classContainer.hpp (findClass, updateClass).

    Pointers are addresses (N, NULL = 0) into typed stores; a dereference of
    an address that is not allocated, and a loop that does not end, have no
    result (None). *)

From Stdlib Require Import ZArith.
From Stdlib.Strings Require Import Byte.
From stdpp Require Import base option list gmap.

Abbreviation addr := N (only parsing).
Definition NULL : N := 0%N.

(** ** Structures of snapShotContainer.hpp *)

(** jlong arithmetic: 64-bit two's complement. *)
Definition wrap64 (z : Z) : Z := ((z + 2 ^ 63) mod 2 ^ 64 - 2 ^ 63)%Z.
(** unsigned int arithmetic. *)
Definition wrap32u (z : Z) : Z := (z mod 2 ^ 32)%Z.

Record TObjectCounter := mkObjectCounter {
  count : Z;
  total_size : Z }.

Record TObjectData := mkObjectData {
  tag : Z;
  classNameLen : Z;
  className : list byte;
  klassOop : N;
  oldTotalSize : Z;
  oopType : Z;
  clsLoaderId : Z;
  clsLoaderTag : Z;
  isRemoved : bool;
  instanceSize : Z }.

Record TChildClassCounter := mkChildClassCounter {
  ch_counter : N;
  objData : N;
  next : N;
  callCount : Z }.

Record TClassCounter := mkClassCounter {
  counter : N;
  child : N;
  spinlock : Z;
  offsets : N;
  offsetCount : Z }.

#[global] Instance byte_eq_dec : EqDecision byte := Byte.byte_eq_dec.

#[global] Instance TObjectCounter_eq_dec : EqDecision TObjectCounter.
Proof. solve_decision. Defined.

(** ** The heap *)

Record heap := mkHeap {
  objCounters : gmap N TObjectCounter;
  objDatas : gmap N TObjectData;
  childCounters : gmap N TChildClassCounter;
  classCounters : gmap N TClassCounter;
  oopMapBlocks : gset N;
  brk : N }.

Definition with_objCounters (h : heap) (m : gmap N TObjectCounter) : heap :=
  mkHeap m (objDatas h) (childCounters h) (classCounters h) (oopMapBlocks h) (brk h).
Definition with_childCounters (h : heap) (m : gmap N TChildClassCounter) : heap :=
  mkHeap (objCounters h) (objDatas h) m (classCounters h) (oopMapBlocks h) (brk h).
Definition with_classCounters (h : heap) (m : gmap N TClassCounter) : heap :=
  mkHeap (objCounters h) (objDatas h) (childCounters h) m (oopMapBlocks h) (brk h).
Definition with_oopMapBlocks (h : heap) (b : gset N) : heap :=
  mkHeap (objCounters h) (objDatas h) (childCounters h) (classCounters h) b (brk h).
Definition with_brk (h : heap) (b : N) : heap :=
  mkHeap (objCounters h) (objDatas h) (childCounters h) (classCounters h) (oopMapBlocks h) b.

(** What the allocator and the map do at one call of an allocating
    operation: whether calloc and posix_memalign succeed, whether the map
    insertion throws, and the indeterminate content of fresh memory. *)
Record alloc_oracle := mkOracle {
  calloc_ok : bool;
  memalign_ok : bool;
  insert_ok : bool;
  junk : TObjectCounter }.

Definition all_ok : alloc_oracle := mkOracle true true true (mkObjectCounter 0 0).

(** A fresh block.  Addresses name whole blocks: the allocator hands out
    the break and moves it up. *)
Definition alloc (h : heap) : N * heap := (brk h, with_brk h (brk h + 1)%N).

(** ** Field stores *)

Definition set_next (c : TChildClassCounter) (p : N) : TChildClassCounter :=
  mkChildClassCounter (ch_counter c) (objData c) p (callCount c).
Definition set_calls (c : TChildClassCounter) (n : Z) : TChildClassCounter :=
  mkChildClassCounter (ch_counter c) (objData c) (next c) n.
Definition set_child (cls : TClassCounter) (p : N) : TClassCounter :=
  mkClassCounter (counter cls) p (spinlock cls) (offsets cls) (offsetCount cls).
Definition set_spinlock (cls : TClassCounter) (v : Z) : TClassCounter :=
  mkClassCounter (counter cls) (child cls) v (offsets cls) (offsetCount cls).
(** clsCounter->offsets = NULL; clsCounter->offsetCount = -1; *)
Definition reset_cache (cls : TClassCounter) : TClassCounter :=
  mkClassCounter (counter cls) (child cls) (spinlock cls) NULL (-1).

Definition store_next (p v : N) (h : heap) : option heap :=
  c ← childCounters h !! p;
  Some (with_childCounters h (<[p := set_next c v]> (childCounters h))).

Definition store_callCount (p : N) (v : Z) (h : heap) : option heap :=
  c ← childCounters h !! p;
  Some (with_childCounters h (<[p := set_calls c v]> (childCounters h))).

Definition store_child (p v : N) (h : heap) : option heap :=
  c ← classCounters h !! p;
  Some (with_classCounters h (<[p := set_child c v]> (classCounters h))).

Definition store_spinlock (p : N) (v : Z) (h : heap) : option heap :=
  c ← classCounters h !! p;
  Some (with_classCounters h (<[p := set_spinlock c v]> (classCounters h))).

Definition reset_offsets (p : N) (h : heap) : option heap :=
  c ← classCounters h !! p;
  Some (with_classCounters h (<[p := reset_cache c]> (classCounters h))).

(** free of an offset list: free(NULL) does nothing, a pointer that is not
    live has no defined behaviour. *)
Definition free_block (p : N) (h : heap) : option heap :=
  if decide (p = NULL) then Some h
  else if decide (p ∈ oopMapBlocks h) then Some (with_oopMapBlocks h (oopMapBlocks h ∖ {[p]}))
  else None.

(** ** Counter arithmetic (the portable inline versions) *)

(** addInc: counter->count += operand->count;
            counter->total_size += operand->total_size; *)
Definition addInc (counter operand : N) (h : heap) : option heap :=
  c ← objCounters h !! counter;
  o ← objCounters h !! operand;
  let c1 := mkObjectCounter (wrap64 (count c + count o)) (total_size c) in
  let h1 := with_objCounters h (<[counter := c1]> (objCounters h)) in
  o1 ← objCounters h1 !! operand;
  Some (with_objCounters h1
    (<[counter := mkObjectCounter (count c1) (wrap64 (total_size c1 + total_size o1))]>
       (objCounters h1))).

(** clearObjectCounter: counter->count = 0; counter->total_size = 0; *)
Definition clearObjectCounter (counter : N) (h : heap) : option heap :=
  _ ← objCounters h !! counter;
  Some (with_objCounters h (<[counter := mkObjectCounter 0 0]> (objCounters h))).

(** ** findChildClass *)

(** The search loop.  The result Some None is the loop's return NULL;
    Some (Some (morePrevCounter, prevCounter, counter)) is its exit with the
    key found at counter. *)
Fixpoint searchChild (fuel : nat) (h : heap) (key : N)
    (morePrevCounter prevCounter counter : N) : option (option (N * N * N)) :=
  match fuel with
  | O => None
  | S fuel' =>
    c ← childCounters h !! counter;
    d ← objDatas h !! objData c;
    if decide (klassOop d ≠ key) then
      if decide (next c = NULL) then Some None
      else searchChild fuel' h key prevCounter counter (next c)
    else Some (Some (morePrevCounter, prevCounter, counter))
  end.

(** Fuel that is enough for every list without a cycle. *)
Definition list_fuel (h : heap) : nat := S (size (childCounters h)).

(** The LFU step at a hit. *)
Definition promoteChild (clsCounter morePrevCounter prevCounter counter : N)
    (h : heap) : option heap :=
  c ← childCounters h !! counter;
  h1 ← store_callCount counter (wrap32u (callCount c + 1)) h;
  if decide (prevCounter ≠ NULL) then
    p ← childCounters h1 !! prevCounter;
    c1 ← childCounters h1 !! counter;
    if decide (callCount p ≤ callCount c1)%Z then
      h2 ← store_next prevCounter (next c1) h1;
      h3 ← (if decide (morePrevCounter ≠ NULL)
            then store_next morePrevCounter counter h2
            else store_child clsCounter counter h2);
      store_next counter prevCounter h3
    else Some h1
  else Some h1.

Definition findChildClass (clsCounter key : N) (h : heap) : option (N * heap) :=
  cls ← classCounters h !! clsCounter;
  if decide (child cls = NULL) then Some (NULL, h)
  else
    r ← searchChild (list_fuel h) h key NULL NULL (child cls);
    match r with
    | None => Some (NULL, h)
    | Some (morePrevCounter, prevCounter, counter) =>
      h' ← promoteChild clsCounter morePrevCounter prevCounter counter h;
      Some (counter, h')
    end.

(** ** pushNewChildClass *)

(** Modelled from the spec: spinLockWait and spinLockRelease are defined in
    arch/x86/lock.inline.hpp, which is not among these sources.  The spec's
    "spin-locked tail-append": waiting on a free lock word takes it, waiting
    on a held one does not end in a run of one thread; releasing frees it. *)
Definition spinLockWait (clsCounter : N) (h : heap) : option heap :=
  c ← classCounters h !! clsCounter;
  if decide (spinlock c = 0%Z) then store_spinlock clsCounter 1 h else None.

Definition spinLockRelease (clsCounter : N) (h : heap) : option heap :=
  store_spinlock clsCounter 0 h.

(** while (counter->next != NULL) counter = counter->next; *)
Fixpoint lastChild (fuel : nat) (h : heap) (counter : N) : option N :=
  match fuel with
  | O => None
  | S fuel' =>
    c ← childCounters h !! counter;
    if decide (next c ≠ NULL) then lastChild fuel' h (next c) else Some counter
  end.

Definition pushNewChildClass (clsCounter objData : N) (o : alloc_oracle) (h : heap)
    : option (N * heap) :=
  if negb (calloc_ok o) then Some (NULL, h)
  else
    let '(newCounter, h) := alloc h in
    let h := with_childCounters h
      (<[newCounter := mkChildClassCounter NULL NULL NULL 0]> (childCounters h)) in
    if negb (memalign_ok o) then
      Some (NULL, with_childCounters h (delete newCounter (childCounters h)))
    else
      let '(ctr, h) := alloc h in
      let h := with_objCounters h (<[ctr := junk o]> (objCounters h)) in
      let h := with_childCounters h
        (<[newCounter := mkChildClassCounter ctr NULL NULL 0]> (childCounters h)) in
      h ← clearObjectCounter ctr h;
      let h := with_childCounters h
        (<[newCounter := mkChildClassCounter ctr objData NULL 0]> (childCounters h)) in
      h ← spinLockWait clsCounter h;
      cls ← classCounters h !! clsCounter;
      h ← (if decide (child cls = NULL) then store_child clsCounter newCounter h
           else
             last ← lastChild (list_fuel h) h (child cls);
             store_next last newCounter h);
      h ← spinLockRelease clsCounter h;
      Some (newCounter, h).

(** ** clearChildClassCounters *)

Fixpoint clearChildren (fuel : nat) (child_counter : N) (h : heap) : option heap :=
  if decide (child_counter = NULL) then Some h
  else
    match fuel with
    | O => None
    | S fuel' =>
      c ← childCounters h !! child_counter;
      h1 ← clearObjectCounter (ch_counter c) h;
      c1 ← childCounters h1 !! child_counter;
      clearChildren fuel' (next c1) h1
    end.

Definition clearChildClassCounters (clsCounter : N) (h : heap) : option heap :=
  cls ← classCounters h !! clsCounter;
  h1 ← clearChildren (list_fuel h) (child cls) h;
  cls1 ← classCounters h1 !! clsCounter;
  clearObjectCounter (counter cls1) h1.

(** ** The snapshot file header

    TSnapShotFileHeader is declared under #pragma pack(push, 1): its image
    has no padding, so every field sits at the sum of the widths before it.
    Integers are stored in the byte order of the host, little-endian on the
    x86 and ARM targets of the agent. *)

Definition off_magicNumber : nat := 0.
Definition off_byteOrderMark : nat := 1.
Definition off_snapShotTime : nat := 2.
Definition off_size : nat := 10.
Definition off_cause : nat := 18.
Definition off_gcCauseLen : nat := 22.
Definition off_gcCause : nat := 30.
Definition sizeof_gcCause : nat := 80.
Definition off_FGCCount : nat := 110.
Definition off_YGCCount : nat := 118.
Definition off_gcWorktime : nat := 126.
Definition off_newAreaSize : nat := 134.
Definition off_oldAreaSize : nat := 142.
Definition off_totalHeapSize : nat := 150.
Definition off_metaspaceUsage : nat := 158.
Definition off_metaspaceCapacity : nat := 166.
Definition sizeof_TSnapShotFileHeader : nat := 174.

Definition byte_of_Z (z : Z) : byte :=
  default x00 (Byte.of_N (Z.to_N (z mod 256))).
Definition Z_of_byte (b : byte) : Z := Z.of_N (Byte.to_N b).

Fixpoint encode_le (width : nat) (z : Z) : list byte :=
  match width with
  | O => []
  | S w => byte_of_Z z :: encode_le w (z / 256)
  end.

Fixpoint decode_le (bs : list byte) : Z :=
  match bs with
  | [] => 0
  | b :: bs' => Z_of_byte b + 256 * decode_le bs'
  end%Z.

Definition store_int (off width : nat) (z : Z) (img : list byte) : list byte :=
  list_inserts off (encode_le width z) img.

Definition load_bytes (off width : nat) (img : list byte) : list byte :=
  take width (drop off img).

(** An unsigned read; the fields compared below hold small values. *)
Definition load_uint (off width : nat) (img : list byte) : Z :=
  decode_le (load_bytes off width img).

Definition load_jlong (off : nat) (img : list byte) : Z :=
  wrap64 (load_uint off 8 img).
Definition load_jint (off : nat) (img : list byte) : Z :=
  let u := load_uint off 4 img in
  (if decide (u < 2 ^ 31) then u else u - 2 ^ 32)%Z.

(** A C string read from memory: the bytes before the first NUL. *)
Fixpoint c_str (mem : list byte) : list byte :=
  match mem with
  | [] => []
  | b :: mem' => if decide (b = x00) then [] else b :: c_str mem'
  end.

(** strcpy(dst, src) writes the string and its terminator, however long.
    A write that runs off the image of the header lands in memory the
    model does not describe. *)
Definition strcpy (off : nat) (src : list byte) (img : list byte) : option (list byte) :=
  let bytes := c_str src ++ [x00] in
  if decide (off + length bytes ≤ length img) then Some (list_inserts off bytes img)
  else None.

(** strlen scans to the first NUL, wherever that is. *)
Definition strlen (off : nat) (img : list byte) : option Z :=
  let tail := drop off img in
  if decide (x00 ∈ tail) then Some (Z.of_nat (length (c_str tail))) else None.

(** TJvmInfo is declared in jvmInfo.hpp, which is not among these sources:
    the record holds what the getters used by setJvmInfo return.
    getGCCause returns a pointer to a C string, here the memory it points
    to. *)
Record TJvmInfo := mkJvmInfo {
  getGCCause : list byte;
  getGCWorktime : Z;
  getFGCCount : Z;
  getYGCCount : Z;
  getNewAreaSize : Z;
  getOldAreaSize : Z;
  getMetaspaceUsage : Z;
  getMetaspaceCapacity : Z }.

(** Configuration read by the constructor: conf->CollectRefTree()->get()
    and the macro BOM. *)
Record config := mkConfig {
  CollectRefTree : bool;
  BOM : byte }.

Definition EXTENDED_SNAPSHOT : Z := 128.
Definition EXTENDED_REFTREE_SNAPSHOT : Z := 129.

(** ** TSnapShotContainer *)

Record TSnapShotContainer := mkContainer {
  counterMap : gmap N N;
  _header : list byte;
  isCleared : bool }.

Definition with_header (s : TSnapShotContainer) (img : list byte) : TSnapShotContainer :=
  mkContainer (counterMap s) img (isCleared s).

Definition getContainerSize (s : TSnapShotContainer) : Z :=
  load_uint off_size 8 (_header s).

Definition setSnapShotTime (t : Z) (s : TSnapShotContainer) : TSnapShotContainer :=
  with_header s (store_int off_snapShotTime 8 t (_header s)).

Definition setSnapShotCause (cause : Z) (s : TSnapShotContainer) : TSnapShotContainer :=
  with_header s (store_int off_cause 4 cause (_header s)).

Definition setTotalSize (size : Z) (s : TSnapShotContainer) : TSnapShotContainer :=
  with_header s (store_int off_totalHeapSize 8 size (_header s)).

Definition setIsCleared (flag : bool) (s : TSnapShotContainer) : TSnapShotContainer :=
  mkContainer (counterMap s) (_header s) flag.

Definition getHeader (s : TSnapShotContainer) : list byte := _header s.

(** The constructor, run on the memory operator new returned. *)
Definition TSnapShotContainer_ctor (cfg : config) (raw : list byte) : TSnapShotContainer :=
  let img := store_int off_magicNumber 1
    (if CollectRefTree cfg then EXTENDED_REFTREE_SNAPSHOT else EXTENDED_SNAPSHOT) raw in
  let img := list_inserts off_byteOrderMark [BOM cfg] img in
  let img := store_int off_snapShotTime 8 0 img in
  let img := store_int off_size 8 0 img in
  let img := list_inserts off_gcCause (replicate 80 x00) img in
  mkContainer ∅ img true.

(** setJvmInfo.  GC is an enumerator of TInvokeCause, declared outside
    these sources.  The argument is None for a null pointer. *)
Section SetJvmInfo.
Variable GC : Z.

Definition setJvmInfo (info : option TJvmInfo) (s : TSnapShotContainer)
    : option TSnapShotContainer :=
  match info with
  | None => Some s
  | Some info =>
    img ← (if decide (load_jint off_cause (_header s) = GC) then
             img ← strcpy off_gcCause (getGCCause info) (_header s);
             len ← strlen off_gcCause img;
             let img := store_int off_gcCauseLen 8 len img in
             Some (store_int off_gcWorktime 8 (getGCWorktime info) img)
           else
             let img := store_int off_gcCauseLen 8 1 (_header s) in
             let img := list_inserts off_gcCause [x00] img in
             Some (store_int off_gcWorktime 8 0 img));
    let img := store_int off_FGCCount 8 (getFGCCount info) img in
    let img := store_int off_YGCCount 8 (getYGCCount info) img in
    let img := store_int off_newAreaSize 8 (getNewAreaSize info) img in
    let img := store_int off_oldAreaSize 8 (getOldAreaSize info) img in
    let img := store_int off_metaspaceUsage 8 (getMetaspaceUsage info) img in
    let img := store_int off_metaspaceCapacity 8 (getMetaspaceCapacity info) img in
    Some (with_header s img)
  end.
End SetJvmInfo.

(** findClass: it->second, or NULL at the end iterator. *)
Definition findClass (objData : N) (s : TSnapShotContainer) : N :=
  match counterMap s !! objData with
  | Some clsCounter => clsCounter
  | None => NULL
  end.

(** pushNewClass *)
Definition pushNewClass (objData : N) (o : alloc_oracle)
    (hs : heap * TSnapShotContainer) : N * (heap * TSnapShotContainer) :=
  let '(h, s) := hs in
  if negb (calloc_ok o) then (NULL, (h, s))
  else
    let '(cur, h) := alloc h in
    let h := with_classCounters h
      (<[cur := mkClassCounter NULL NULL 0 NULL 0]> (classCounters h)) in
    let h := with_classCounters h
      (<[cur := mkClassCounter NULL NULL 0 NULL (-1)]> (classCounters h)) in
    if negb (memalign_ok o) then
      (NULL, (with_classCounters h (delete cur (classCounters h)), s))
    else
      let '(ctr, h) := alloc h in
      let h := with_classCounters h
        (<[cur := mkClassCounter ctr NULL 0 NULL (-1)]> (classCounters h)) in
      (* clearObjectCounter(cur->counter) on the fresh block *)
      let h := with_objCounters h (<[ctr := mkObjectCounter 0 0]> (<[ctr := junk o]> (objCounters h))) in
      if insert_ok o then
        (cur, (h, mkContainer (<[objData := cur]> (counterMap s)) (_header s) (isCleared s)))
      else
        (NULL, (with_classCounters (with_objCounters h (delete ctr (objCounters h)))
                  (delete cur (classCounters h)), s)).

(** ** clear *)

(** The body of the loop over counterMap, for the entries still to visit. *)
Fixpoint clearLoop (entries : list (N * N)) (h : heap) : option heap :=
  match entries with
  | [] => Some h
  | (_, clsCounter) :: rest =>
    if decide (clsCounter = NULL) then clearLoop rest h
    else
      cls ← classCounters h !! clsCounter;
      h1 ← free_block (offsets cls) h;
      h2 ← reset_offsets clsCounter h1;
      h3 ← clearChildClassCounters clsCounter h2;
      clearLoop rest h3
  end.

Definition clear (isForce : bool) (hs : heap * TSnapShotContainer)
    : option (heap * TSnapShotContainer) :=
  let '(h, s) := hs in
  if negb isForce && isCleared s then Some (h, s)
  else
    h' ← clearLoop (map_to_list (counterMap s)) h;
    Some (h', mkContainer (counterMap s) (_header s) true).

(** ** The destructor *)

Definition free_objCounter (p : N) (h : heap) : option heap :=
  if decide (p = NULL) then Some h
  else _ ← objCounters h !! p; Some (with_objCounters h (delete p (objCounters h))).

Definition free_childCounter (p : N) (h : heap) : option heap :=
  if decide (p = NULL) then Some h
  else _ ← childCounters h !! p; Some (with_childCounters h (delete p (childCounters h))).

Definition free_classCounter (p : N) (h : heap) : option heap :=
  if decide (p = NULL) then Some h
  else _ ← classCounters h !! p; Some (with_classCounters h (delete p (classCounters h))).

Fixpoint freeChildren (fuel : nat) (counter : N) (h : heap) : option heap :=
  if decide (counter = NULL) then Some h
  else
    match fuel with
    | O => None
    | S fuel' =>
      aCounter ← childCounters h !! counter;
      h1 ← free_objCounter (ch_counter aCounter) h;
      h2 ← free_childCounter counter h1;
      freeChildren fuel' (next aCounter) h2
    end.

Fixpoint destroyLoop (entries : list (N * N)) (h : heap) : option heap :=
  match entries with
  | [] => Some h
  | (_, clsCounter) :: rest =>
    if decide (clsCounter = NULL) then destroyLoop rest h
    else
      cls ← classCounters h !! clsCounter;
      h1 ← free_block (offsets cls) h;
      h2 ← freeChildren (list_fuel h1) (child cls) h1;
      h3 ← free_objCounter (counter cls) h2;
      h4 ← free_classCounter clsCounter h3;
      destroyLoop rest h4
  end.

Definition TSnapShotContainer_dtor (hs : heap * TSnapShotContainer) : option heap :=
  destroyLoop (map_to_list (counterMap hs.2)) hs.1.

(** ** The stock of container instances *)

Definition MAX_STOCK_COUNT : nat := 2.

(** The process: the heap, the live container objects, and the static
    stockQueue (None before globalInitialize and after globalFinalize). *)
Record world := mkWorld {
  w_heap : heap;
  containers : gmap N TSnapShotContainer;
  stockQueue : option (list N) }.

Definition globalInitialize (queue_ok : bool) (w : world) : bool * world :=
  if queue_ok then (true, mkWorld (w_heap w) (containers w) (Some []))
  else (false, w).

(** delete instance: the destructor, then the object itself. *)
Definition delete_instance (instance : N) (w : world) : option world :=
  s ← containers w !! instance;
  h ← TSnapShotContainer_dtor (w_heap w, s);
  Some (mkWorld h (delete instance (containers w)) (stockQueue w)).

Fixpoint deleteAll (items : list N) (w : world) : option world :=
  match items with
  | [] => Some w
  | item :: rest => w1 ← delete_instance item w; deleteAll rest w1
  end.

Definition globalFinalize (w : world) : option world :=
  match stockQueue w with
  | Some q =>
    w1 ← deleteAll q w;
    Some (mkWorld (w_heap w1) (containers w1) None)
  | None => Some w
  end.

(** getInstance.  [fresh] is what operator new does if it is reached:
    None when it throws, otherwise the raw memory of the new object. *)
Definition getInstance (cfg : config) (fresh : option (list byte)) (w : world)
    : option (N * world) :=
  q ← stockQueue w;
  let '(result, w) :=
    match q with
    | item :: q' => (item, mkWorld (w_heap w) (containers w) (Some q'))
    | [] => (NULL, w)
    end in
  if decide (result = NULL) then
    match fresh with
    | Some raw =>
      let '(p, h) := alloc (w_heap w) in
      Some (p, mkWorld h (<[p := TSnapShotContainer_ctor cfg raw]> (containers w)) (stockQueue w))
    | None => Some (NULL, w)
    end
  else Some (result, w).

(** releaseInstance.  [push_ok] tells whether stockQueue->push returns
    rather than throws. *)
Definition releaseInstance (instance : N) (push_ok : bool) (w : world) : option world :=
  if decide (instance = NULL) then Some w
  else
    q ← stockQueue w;
    if decide (length q < MAX_STOCK_COUNT) then
      s ← containers w !! instance;
      '(h, s') ← clear false (w_heap w, s);
      let w := mkWorld h (<[instance := s']> (containers w)) (stockQueue w) in
      if push_ok then Some (mkWorld (w_heap w) (containers w) (Some (q ++ [instance])))
      else delete_instance instance w
    else delete_instance instance w.

(** ** TClassContainer (classContainer.hpp) *)

Module ClassContainer.

Record TClassContainer := mkClassContainer {
  classMap : gmap N N;
  needToClear : bool;
  unloadedList : list N }.

Definition with_classMap (c : TClassContainer) (m : gmap N N) : TClassContainer :=
  mkClassContainer m (needToClear c) (unloadedList c).

(** findClass: itr->second, or NULL at the end iterator. *)
Definition findClass (klassOop : N) (c : TClassContainer) : N :=
  match classMap c !! klassOop with
  | Some objData => objData
  | None => NULL
  end.

(** operator[] of the map: a reference to the value at the key, which
    is first inserted with a null value when it is absent. *)
Definition subscript (k : N) (m : gmap N N) : gmap N N :=
  match m !! k with
  | Some _ => m
  | None => <[k := NULL]> m
  end.

(** updateClass: the value found by operator[] at oldKlassOop is
    assigned through operator[] at newKlassOop, then oldKlassOop is
    erased (unsafe_erase).  Both subscripts may insert, and neither moves
    the other's value, so the order of the two does not matter. *)
Definition updateClass (oldKlassOop newKlassOop : N) (c : TClassContainer)
    : TClassContainer :=
  let m := subscript oldKlassOop (classMap c) in
  let v := default NULL (m !! oldKlassOop) in
  let m := subscript newKlassOop m in
  let m := <[newKlassOop := v]> m in
  with_classMap c (delete oldKlassOop m).

(** Modelled from the spec: pushNewClass(klassOop, objData) is declared
    in classContainer.hpp and defined in classContainer.cpp, which is not
    among these sources.  The spec's intern: "if absent, install; if
    present, return existing". *)
Definition pushNewClass (klassOop objData : N) (c : TClassContainer)
    : N * TClassContainer :=
  match classMap c !! klassOop with
  | Some existing => (existing, c)
  | None => (objData, with_classMap c (<[klassOop := objData]> (classMap c)))
  end.

(** Modelled from the spec: popClass is declared in classContainer.hpp
    and defined in classContainer.cpp, which is not among these sources.
    The spec's mark-unloaded: "set the unload flag; the record itself is
    retained". *)
Definition popClass (target : N) (records : gmap N TObjectData)
    : gmap N TObjectData :=
  match records !! target with
  | Some d =>
    <[target := mkObjectData (tag d) (classNameLen d) (className d) (klassOop d)
                  (oldTotalSize d) (oopType d) (clsLoaderId d) (clsLoaderTag d)
                  true (instanceSize d)]> records
  | None => records
  end.

Definition empty_container : TClassContainer := mkClassContainer ∅ true [].

End ClassContainer.

(** * Specification vocabulary *)

Definition zero_counter : TObjectCounter := mkObjectCounter 0 0.

(** [lseg h p l q]: following [next] from [p] visits exactly the nodes [l],
    in this order, and then arrives at [q]. *)
Fixpoint lseg (h : heap) (p : N) (l : list N) (q : N) : Prop :=
  match l with
  | [] => p = q
  | a :: l' =>
    p = a ∧ a ≠ NULL ∧ ∃ c, childCounters h !! a = Some c ∧ lseg h (next c) l' q
  end.

(** The child list that starts at [p]: a segment that ends in NULL. *)
Definition child_list (h : heap) (p : N) (l : list N) : Prop := lseg h p l NULL.

(** What a node of a child list holds, apart from its link. *)
Record child_view := mkView {
  cv_addr : N;
  cv_counter : N;
  cv_objData : N;
  cv_klass : N;
  cv_calls : Z }.

Definition node_view (h : heap) (v : child_view) : Prop :=
  ∃ c d, childCounters h !! cv_addr v = Some c ∧ ch_counter c = cv_counter v ∧
         objData c = cv_objData v ∧ callCount c = cv_calls v ∧
         objDatas h !! objData c = Some d ∧ klassOop d = cv_klass v.

Definition child_views (h : heap) (p : N) (vs : list child_view) : Prop :=
  child_list h p (cv_addr <$> vs) ∧ Forall (node_view h) vs.

(** ** The LFU rule in the words of the design

    A hit has its call count incremented; if the sibling just before it has
    a lower or equal call count, the two are swapped. *)
Definition hit (v : child_view) : child_view :=
  mkView (cv_addr v) (cv_counter v) (cv_objData v) (cv_klass v) (wrap32u (cv_calls v + 1)).

Fixpoint lfu (key : N) (vs : list child_view) : list child_view :=
  match vs with
  | [] => []
  | v :: rest =>
    if decide (cv_klass v = key) then hit v :: rest
    else
      match rest with
      | [] => [v]
      | w :: rest' =>
        if decide (cv_klass w = key) then
          if decide (cv_calls v ≤ cv_calls (hit w))%Z then hit w :: v :: rest'
          else v :: hit w :: rest'
        else v :: lfu key rest
      end
  end.

(** The node found: the first one of the class, or NULL. *)
Fixpoint lfu_found (key : N) (vs : list child_view) : N :=
  match vs with
  | [] => NULL
  | v :: rest => if decide (cv_klass v = key) then cv_addr v else lfu_found key rest
  end.

(** The state of the search loop after it has passed the nodes [vs],
    starting with [mp] and [p] as the two nodes before them. *)
Fixpoint scan (key : N) (mp p : N) (vs : list child_view) : option (N * N * N) :=
  match vs with
  | [] => None
  | v :: rest =>
    if decide (cv_klass v = key) then Some (mp, p, cv_addr v)
    else scan key p (cv_addr v) rest
  end.

(** The two trailing pointers of the search loop after the nodes [l]. *)
Definition prev2 (mp p : N) (l : list N) : N * N :=
  foldl (λ st x, (st.2, x)) (mp, p) l.

(** Two nodes that differ in their link at most. *)
Definition same_payload (c c' : TChildClassCounter) : Prop :=
  ch_counter c' = ch_counter c ∧ objData c' = objData c ∧ callCount c' = callCount c.

Definition payload_kept (m m' : gmap N TChildClassCounter) : Prop :=
  ∀ a c, m !! a = Some c → ∃ c', m' !! a = Some c' ∧ same_payload c c'.

(** ** Well-formed heaps *)

Definition bounded (h : heap) : Prop :=
  (0 < brk h)%N ∧
  (∀ a, is_Some (objCounters h !! a) → (0 < a < brk h)%N) ∧
  (∀ a, is_Some (childCounters h !! a) → (0 < a < brk h)%N) ∧
  (∀ a, is_Some (classCounters h !! a) → (0 < a < brk h)%N).

(** A class counter at rest: lock free, counter allocated, offset list
    null or live, and a child list whose nodes have allocated counters and
    class records. *)
Definition class_wf (h : heap) (cls : TClassCounter) (vs : list child_view) : Prop :=
  spinlock cls = 0%Z ∧ is_Some (objCounters h !! counter cls) ∧
  (offsets cls = NULL ∨ offsets cls ∈ oopMapBlocks h) ∧
  child_views h (child cls) vs ∧
  Forall (λ v, is_Some (objCounters h !! cv_counter v)) vs.

Definition heap_wf (h : heap) : Prop :=
  bounded h ∧
  (∀ k cls, classCounters h !! k = Some cls → ∃ vs, class_wf h cls vs) ∧
  (∀ k1 k2 cls1 cls2 l1 l2,
     classCounters h !! k1 = Some cls1 → classCounters h !! k2 = Some cls2 →
     k1 ≠ k2 → child_list h (child cls1) l1 → child_list h (child cls2) l2 →
     l1 ## l2) ∧
  (∀ k1 k2 cls1 cls2,
     classCounters h !! k1 = Some cls1 → classCounters h !! k2 = Some cls2 →
     offsets cls1 = offsets cls2 → offsets cls1 ≠ NULL → k1 = k2).

(** The class counters of a container are allocated. *)
Definition container_wf (h : heap) (s : TSnapShotContainer) : Prop :=
  heap_wf h ∧
  ∀ d k, counterMap s !! d = Some k → k ≠ NULL → is_Some (classCounters h !! k).

(** A class counter whose counters, root and children, read zero and
    whose offset list is not cached. *)
Definition class_zero (h : heap) (k : N) : Prop :=
  ∃ cls, classCounters h !! k = Some cls ∧
    objCounters h !! counter cls = Some zero_counter ∧
    offsets cls = NULL ∧ offsetCount cls = (-1)%Z ∧
    ∀ l a, child_list h (child cls) l → a ∈ l →
      ∃ c, childCounters h !! a = Some c ∧
           objCounters h !! ch_counter c = Some zero_counter.

(** Every class counter of the container is in that state. *)
Definition all_zero (h : heap) (s : TSnapShotContainer) : Prop :=
  ∀ d k, counterMap s !! d = Some k → k ≠ NULL → class_zero h k.

(** The state predicate of the is-cleared flag. *)
Definition cleared_inv (hs : heap * TSnapShotContainer) : Prop :=
  isCleared hs.2 = true → all_zero hs.1 hs.2.

(** What clear may change in the heap: counters become zero, offset lists
    are released and their cache reset; nothing else. *)
Definition clear_frame (h h' : heap) : Prop :=
  childCounters h' = childCounters h ∧ objDatas h' = objDatas h ∧ brk h' = brk h ∧
  oopMapBlocks h' ⊆ oopMapBlocks h ∧
  (∀ a, objCounters h' !! a = objCounters h !! a ∨
        (is_Some (objCounters h !! a) ∧ objCounters h' !! a = Some zero_counter)) ∧
  (∀ k, classCounters h' !! k = classCounters h !! k ∨
        ∃ c, classCounters h !! k = Some c ∧ classCounters h' !! k = Some (reset_cache c)) ∧
  (∀ b, b ∈ oopMapBlocks h → b ∉ oopMapBlocks h' →
        b ≠ NULL ∧ ∃ k c, classCounters h !! k = Some c ∧ offsets c = b ∧
                          classCounters h' !! k = Some (reset_cache c)).

(** Two heaps that differ in their object counters at most. *)
Definition only_counters (h h' : heap) : Prop :=
  childCounters h' = childCounters h ∧ classCounters h' = classCounters h ∧
  objDatas h' = objDatas h ∧ oopMapBlocks h' = oopMapBlocks h ∧ brk h' = brk h.

(** ** Runs of calls *)

(** Every allocation and the map insertion succeed. *)
Definition oracle_ok (o : alloc_oracle) : bool :=
  calloc_ok o && memalign_ok o && insert_ok o.

(** A sequence of findChildClass calls, each on a class counter and a
    class pointer. *)
Fixpoint findChildClass_seq (calls : list (N * N)) (h : heap) : option heap :=
  match calls with
  | [] => Some h
  | (clsCounter, key) :: rest =>
    r ← findChildClass clsCounter key h; findChildClass_seq rest r.2
  end.

(** Modelled from the spec: Inc is defined in the inline headers under
    arch/, which are not among these sources.  The spec's inc(counter,
    size): "add one to count and size to total_size". *)
Definition Inc (counter : N) (size : Z) (h : heap) : option heap :=
  c ← objCounters h !! counter;
  Some (with_objCounters h
    (<[counter := mkObjectCounter (wrap64 (count c + 1)) (wrap64 (total_size c + size))]>
       (objCounters h))).

(** ** The core operations on one container *)

Inductive core_op :=
  | OpInc (counter : N) (size : Z)
  | OpAddInc (counter operand : N)
  | OpPushClass (objData : N) (o : alloc_oracle)
  | OpPushChild (clsCounter objData : N) (o : alloc_oracle)
  | OpFindClass (objData : N)
  | OpFindChild (clsCounter key : N)
  | OpClear (isForce : bool)
  | OpSetSnapShotTime (t : Z)
  | OpSetSnapShotCause (cause : Z)
  | OpSetTotalSize (size : Z)
  | OpSetJvmInfo (info : option TJvmInfo).

Definition run_op (GC : Z) (op : core_op) (hs : heap * TSnapShotContainer)
    : option (heap * TSnapShotContainer) :=
  match op with
  | OpInc c size => h' ← Inc c size hs.1; Some (h', hs.2)
  | OpAddInc c o => h' ← addInc c o hs.1; Some (h', hs.2)
  | OpPushClass d o => Some (pushNewClass d o hs).2
  | OpPushChild k d o => r ← pushNewChildClass k d o hs.1; Some (r.2, hs.2)
  | OpFindClass d => Some hs
  | OpFindChild k key => r ← findChildClass k key hs.1; Some (r.2, hs.2)
  | OpClear isForce => clear isForce hs
  | OpSetSnapShotTime t => Some (hs.1, setSnapShotTime t hs.2)
  | OpSetSnapShotCause cause => Some (hs.1, setSnapShotCause cause hs.2)
  | OpSetTotalSize size => Some (hs.1, setTotalSize size hs.2)
  | OpSetJvmInfo info => s' ← setJvmInfo GC info hs.2; Some (hs.1, s')
  end.

(** The operations of the counting path. *)
Definition counts (op : core_op) : bool :=
  match op with OpInc _ _ | OpAddInc _ _ => true | _ => false end.

(** The pointers handed to an operation are allocated.  For setJvmInfo
    the header has its size and, at a GC snapshot, the strcpy of the
    cause and its terminator ends inside the header: the cause has at
    most 143 bytes. *)
Definition op_ready (GC : Z) (op : core_op) (hs : heap * TSnapShotContainer) : Prop :=
  match op with
  | OpInc c _ => is_Some (objCounters hs.1 !! c)
  | OpAddInc c o => is_Some (objCounters hs.1 !! c) ∧ is_Some (objCounters hs.1 !! o)
  | OpPushChild k d _ => is_Some (classCounters hs.1 !! k) ∧ is_Some (objDatas hs.1 !! d)
  | OpFindChild k _ => is_Some (classCounters hs.1 !! k)
  | OpSetJvmInfo (Some info) =>
    length (_header hs.2) = sizeof_TSnapShotFileHeader ∧
    (load_jint off_cause (_header hs.2) = GC →
     off_gcCause + length (c_str (getGCCause info)) + 1 ≤ sizeof_TSnapShotFileHeader)
  | _ => True
  end.

(** ** Runs of pushNewClass and findClass calls on one container *)









(** The child list of class counter [K], from its head: the address and
    the call count of each node. *)
Definition children_are (h : heap) (K : N) (l : list (N * Z)) : Prop :=
  ∃ cls vs, classCounters h !! K = Some cls ∧ child_views h (child cls) vs ∧
            l = (λ v, (cv_addr v, cv_calls v)) <$> vs.

(** Scenario S3: three children pushed under one class counter, then five
    lookups of the third. *)
Definition scenario_S3 (K d1 d2 d3 key : N) (o1 o2 o3 : alloc_oracle) (h : heap)
    : option (N * N * N * list N * heap) :=
  r1 ← pushNewChildClass K d1 o1 h;
  r2 ← pushNewChildClass K d2 o2 r1.2;
  r3 ← pushNewChildClass K d3 o3 r2.2;
  f1 ← findChildClass K key r3.2;
  f2 ← findChildClass K key f1.2;
  f3 ← findChildClass K key f2.2;
  f4 ← findChildClass K key f3.2;
  f5 ← findChildClass K key f4.2;
  Some (r1.1, r2.1, r3.1, [f1.1; f2.1; f3.1; f4.1; f5.1], f5.2).

(** A small process image for the worked examples: three class records and
    nothing else allocated. *)
Definition demo_objData (k : N) : TObjectData :=
  mkObjectData 0 0 [] k 0 0 0 0 false 0.
Definition demo_heap : heap :=
  mkHeap {[50%N := mkObjectCounter 1 24]}
         (<[100%N := demo_objData 4096]>
            (<[101%N := demo_objData 4097]> (<[102%N := demo_objData 4098]> ∅)))
         ∅ ∅ ∅ 64.
Definition demo_config : config := mkConfig false x01.
Definition demo_container : TSnapShotContainer :=
  TSnapShotContainer_ctor demo_config (replicate 174 x00).


(** A class with three children, counted into: the class counter is 64, the
    children are 66, 68 and 70, every counter reads (1, 24), and the
    is-cleared flag is reset. *)
Definition demo_class : heap * TSnapShotContainer :=
  (pushNewClass 100 all_ok (demo_heap, demo_container)).2.
Definition demo_push (d : N) (h : heap) : heap :=
  default h (snd <$> pushNewChildClass 64 d all_ok h).
Definition demo_children : heap :=
  demo_push 102 (demo_push 101 (demo_push 100 demo_class.1)).
Definition demo_count (c : N) (h : heap) : heap := default h (addInc c 50 h).
Definition demo_state : heap * TSnapShotContainer :=
  (demo_count 71 (demo_count 69 (demo_count 67 (demo_count 65 demo_children))),
   setIsCleared false demo_class.2).

(** ** The stock of instances *)

(** Live containers lie below the break, like everything allocated. *)
Definition world_wf (w : world) : Prop :=
  bounded (w_heap w) ∧
  ∀ p, is_Some (containers w !! p) → (0 < p < brk (w_heap w))%N.

(** Scenario S4: three instances acquired, all three released in order,
    three acquired again.  The result lists the first three instances, the
    world after the releases, and the last three instances with the final
    world. *)
Definition scenario_S4 (cfg : config) (raw1 raw2 raw3 raw4 raw5 raw6 : list byte)
    (w : world) : option (N * N * N * world * (N * N * N) * world) :=
  g1 ← getInstance cfg (Some raw1) w;
  g2 ← getInstance cfg (Some raw2) g1.2;
  g3 ← getInstance cfg (Some raw3) g2.2;
  w1 ← releaseInstance g1.1 true g3.2;
  w2 ← releaseInstance g2.1 true w1;
  w3 ← releaseInstance g3.1 true w2;
  g4 ← getInstance cfg (Some raw4) w3;
  g5 ← getInstance cfg (Some raw5) g4.2;
  g6 ← getInstance cfg (Some raw6) g5.2;
  Some (g1.1, g2.1, g3.1, w3, (g4.1, g5.1, g6.1), g6.2).

Definition demo_world : world := mkWorld demo_heap ∅ (Some []).

(** Scenario S5, before the relocation: a record interned at 0x1000 and
    marked unloaded. *)
Definition demo_registry : gmap N TObjectData * ClassContainer.TClassContainer :=
  (ClassContainer.popClass 100 (objDatas demo_heap), (ClassContainer.pushNewClass 4096 100 ClassContainer.empty_container).2).

(** A run of setJvmInfo at a GC snapshot whose GC cause is 128 letters
    long.  The value of the enumerator GC is of no account; 1 is taken. *)
Definition demo_GC : Z := 1.
Definition demo_long_cause : TJvmInfo :=
  mkJvmInfo (replicate 128 "A"%byte ++ [x00]) 5 42 7 1000 2000 12345678 87654321.
Definition demo_gc_container : TSnapShotContainer :=
  setTotalSize 4096 (setSnapShotCause demo_GC demo_container).

(** ** Further vocabulary: the header, ownership, the destructor and the stock *)

(** definitions *)
Definition jvm_counts_set (info : TJvmInfo) (img : list byte) : Prop :=
  load_jlong off_FGCCount img = wrap64 (getFGCCount info) ∧
  load_jlong off_YGCCount img = wrap64 (getYGCCount info) ∧
  load_jlong off_newAreaSize img = wrap64 (getNewAreaSize info) ∧
  load_jlong off_oldAreaSize img = wrap64 (getOldAreaSize info) ∧
  load_jlong off_metaspaceUsage img = wrap64 (getMetaspaceUsage info) ∧
  load_jlong off_metaspaceCapacity img = wrap64 (getMetaspaceCapacity info).

(** The fields that setJvmInfo does not assign. *)
Definition jvm_fields_kept (img img' : list byte) : Prop :=
  length img' = length img ∧
  load_bytes 0 off_gcCauseLen img' = load_bytes 0 off_gcCauseLen img ∧
  load_bytes off_totalHeapSize 8 img' = load_bytes off_totalHeapSize 8 img.

Ltac offsets :=
  unfold off_magicNumber, off_byteOrderMark, off_snapShotTime, off_size, off_cause,
    off_gcCauseLen, off_gcCause, sizeof_gcCause, off_FGCCount, off_YGCCount,
    off_gcWorktime, off_newAreaSize, off_oldAreaSize, off_totalHeapSize,
    off_metaspaceUsage, off_metaspaceCapacity, sizeof_TSnapShotFileHeader in *.

Definition demo_short_cause : TJvmInfo :=
  mkJvmInfo ("G"%byte :: "C"%byte :: x00 :: "x"%byte :: []) 5 42 7 1000 2000 12345678 87654321.
Definition demo_cause_of (n : nat) : TJvmInfo :=
  mkJvmInfo (replicate n "A"%byte ++ [x00]) 5 42 7 1000 2000 12345678 87654321.

(** A run of core operations on one container. *)
Fixpoint run_ops (GC : Z) (ops : list core_op) (hs : heap * TSnapShotContainer)
    : option (heap * TSnapShotContainer) :=
  match ops with
  | [] => Some hs
  | op :: rest => hs1 ← run_op GC op hs; run_ops GC rest hs1
  end.

Definition demo_ops : list core_op :=
  [OpSetSnapShotCause demo_GC; OpPushClass 100 all_ok; OpSetJvmInfo (Some demo_short_cause);
   OpSetSnapShotTime 1234567; OpSetTotalSize 4096; OpClear true].

Definition demo_index : ClassContainer.TClassContainer :=
  ClassContainer.mkClassContainer (<[4096%N := 100%N]> (<[4097%N := 101%N]> ∅)) true [].

Definition demo_views : list child_view :=
  [mkView 66 67 100 4096 0; mkView 68 69 101 4097 0; mkView 70 71 102 4098 0].

(** addInc of one counter with each operand in turn. *)
Fixpoint addInc_all (counter : N) (operands : list N) (h : heap) : option heap :=
  match operands with
  | [] => Some h
  | operand :: rest => h1 ← addInc counter operand h; addInc_all counter rest h1
  end.

(** The sum of one field over the counters at [operands]. *)
Definition operand_sum (f : TObjectCounter → Z) (h : heap) (operands : list N) : Z :=
  foldr (λ o acc, default 0 (f <$> objCounters h !! o) + acc)%Z 0%Z operands.

Definition is_jlong (z : Z) : Prop := (- 2 ^ 63 ≤ z < 2 ^ 63)%Z.

Definition demo_failing : alloc_oracle := mkOracle true false true (mkObjectCounter 7 7).

(** The object counters of a class counter: its own and those of its
    children. *)
Definition class_counters (cls : TClassCounter) (vs : list child_view) : list N :=
  counter cls :: (cv_counter <$> vs).

(** Every object counter belongs to one class counter or to one child
    node. *)
Definition heap_owned (h : heap) : Prop :=
  ∀ k1 k2 cls1 cls2 vs1 vs2,
    classCounters h !! k1 = Some cls1 → classCounters h !! k2 = Some cls2 →
    child_views h (child cls1) vs1 → child_views h (child cls2) vs2 →
    NoDup (class_counters cls1 vs1) ∧
    (k1 ≠ k2 → class_counters cls1 vs1 ## class_counters cls2 vs2).

(** No class counter is the entry of two records. *)
Definition map_injective (s : TSnapShotContainer) : Prop :=
  ∀ d1 d2 k, counterMap s !! d1 = Some k → counterMap s !! d2 = Some k →
    k ≠ NULL → d1 = d2.

(** Everything that hangs on a class counter is deallocated. *)
Definition class_freed (h' : heap) (k : N) (cls : TClassCounter) (vs : list child_view)
    : Prop :=
  classCounters h' !! k = None ∧ objCounters h' !! counter cls = None ∧
  Forall (λ v, childCounters h' !! cv_addr v = None ∧
               objCounters h' !! cv_counter v = None) vs ∧
  (offsets cls ≠ NULL → offsets cls ∉ oopMapBlocks h').

(** [h'] is [h] with some blocks deallocated. *)
Definition heap_shrunk (h h' : heap) : Prop :=
  objCounters h' ⊆ objCounters h ∧ childCounters h' ⊆ childCounters h ∧
  classCounters h' ⊆ classCounters h ∧ oopMapBlocks h' ⊆ oopMapBlocks h ∧
  objDatas h' = objDatas h ∧ brk h' = brk h.

(** No class counter occurs in two entries. *)
Fixpoint distinct_counters (entries : list (N * N)) : Prop :=
  match entries with
  | [] => True
  | (_, k) :: rest => (k ≠ NULL → ∀ d, (d, k) ∉ rest) ∧ distinct_counters rest
  end.

(** A container that its destructor can take: well formed, its object
    counters owned, no class counter entered twice. *)
Definition destructible (hs : heap * TSnapShotContainer) : Prop :=
  container_wf hs.1 hs.2 ∧ heap_owned hs.1 ∧ map_injective hs.2.

(** Every operation of a run is ready in the state it starts from. *)
Fixpoint ops_ready (GC : Z) (ops : list core_op) (hs : heap * TSnapShotContainer) : Prop :=
  match ops with
  | [] => True
  | op :: rest =>
    op_ready GC op hs ∧ ∀ hs1, run_op GC op hs = Some hs1 → ops_ready GC rest hs1
  end.

Definition demo_run : list core_op :=
  [OpSetSnapShotCause demo_GC; OpSetJvmInfo (Some (demo_cause_of 143));
   OpPushClass 100 all_ok; OpPushClass 101 all_ok; OpClear true; OpPushClass 100 all_ok;
   OpSetSnapShotTime 5; OpFindClass 101].

(** A process whose containers can each be cleared and destroyed: the
    heap is well formed, the object counters are owned, every live
    container is well formed, and no class counter is in two
    containers. *)
Definition world_owned (w : world) : Prop :=
  world_wf w ∧ heap_wf (w_heap w) ∧ heap_owned (w_heap w) ∧
  (∀ p s, containers w !! p = Some s → container_wf (w_heap w) s ∧ map_injective s) ∧
  (∀ p1 p2 s1 s2 d1 d2 k,
     containers w !! p1 = Some s1 → containers w !! p2 = Some s2 → p1 ≠ p2 →
     counterMap s1 !! d1 = Some k → counterMap s2 !! d2 = Some k → k = NULL).

(** A client of the stock: it acquires instances and releases, by its
    position in the list of those it holds, an instance it holds. *)
Inductive pool_call :=
  | Acquire (fresh : option (list byte))
  | Release (i : nat) (push_ok : bool).

Fixpoint run_pool (cfg : config) (calls : list pool_call) (held : list N) (w : world)
    : option (list N * world) :=
  match calls with
  | [] => Some (held, w)
  | Acquire fresh :: rest =>
    r ← getInstance cfg fresh w;
    run_pool cfg rest (if decide (r.1 = NULL) then held else held ++ [r.1]) r.2
  | Release i push_ok :: rest =>
    match held !! i with
    | Some instance =>
      w1 ← releaseInstance instance push_ok w; run_pool cfg rest (delete i held) w1
    | None => run_pool cfg rest held w
    end
  end.

(** The instances held and the instances in stock are live, distinct and
    not null; the stock is within its limit and its instances are
    cleared. *)
Definition pool_ok (held : list N) (w : world) : Prop :=
  world_owned w ∧
  ∃ q, stockQueue w = Some q ∧ length q ≤ MAX_STOCK_COUNT ∧ NoDup (held ++ q) ∧
    Forall (λ p, p ≠ NULL ∧ is_Some (containers w !! p)) (held ++ q) ∧
    Forall (λ p, ∃ s, containers w !! p = Some s ∧ isCleared s = true) q.

Definition demo_pool : list pool_call :=
  [Acquire (Some (replicate 174 x00)); Acquire (Some (replicate 174 x01));
   Acquire None; Release 0 true; Release 0 false; Acquire (Some (replicate 174 x02));
   Release 5 true; Acquire (Some (replicate 174 x03)); Release 1 true; Release 0 true].

(** A process with one live container, the class of the worked examples
    in it, and an empty stock. *)
Definition demo_live : world := mkWorld demo_class.1 {[1%N := demo_class.2]} (Some []).

(** The same process after addInc of (1, 24) into the counter of the
    class: the flag of the container is still set. *)
Definition demo_counted : world :=
  mkWorld (demo_count 65 demo_class.1) {[1%N := demo_class.2]} (Some []).

(** A second container for the worked examples: the class of record 101,
    pushed on the heap that holds the class of record 100. *)
Definition demo_second : heap * TSnapShotContainer :=
  (pushNewClass 101 all_ok (demo_class.1, demo_container)).2.

(** Unfolds the heap updates and reads the fields back. *)
Ltac heap_norm :=
  cbv [with_brk with_childCounters with_objCounters with_classCounters
       with_oopMapBlocks alloc];
  cbn [objCounters objDatas childCounters classCounters oopMapBlocks brk
       mbind option_bind negb fst snd].

(** * Linked segments *)
Section Lseg.
Implicit Types (h : heap) (l : list N) (p q a : N).

Lemma lseg_app h l1 l2 p q :
  lseg h p (l1 ++ l2) q ↔ ∃ m, lseg h p l1 m ∧ lseg h m l2 q.
Proof.
  revert p. induction l1 as [|a l1 IH]; intros p; simpl.
  - split; [eauto | intros (m & -> & H); done].
  - split.
    + intros (-> & Ha & c & Hc & Hl). apply IH in Hl as (m & H1 & H2).
      exists m. split; [|done]. do 2 (split; [done|]). eauto.
    + intros (m & (-> & Ha & c & Hc & H1) & H2).
      do 2 (split; [done|]). exists c. split; [done|]. apply IH. eauto.
Qed.

Lemma lseg_not_null h l p q a : lseg h p l q → a ∈ l → a ≠ NULL.
Proof.
  revert p. induction l as [|b l IH]; intros p Hl Ha; [by inversion Ha|].
  destruct Hl as (-> & Hb & c & Hc & Hl).
  apply elem_of_cons in Ha as [->|Ha]; eauto.
Qed.

Lemma lseg_allocated h l p q a :
  lseg h p l q → a ∈ l → is_Some (childCounters h !! a).
Proof.
  revert p. induction l as [|b l IH]; intros p Hl Ha; [by inversion Ha|].
  destruct Hl as (-> & Hb & c & Hc & Hl).
  apply elem_of_cons in Ha as [->|Ha]; eauto.
Qed.

(** A heap that links the nodes of a segment the same way holds the same
    segment. *)
Lemma lseg_frame h h' l p q :
  (∀ a, a ∈ l → next <$> childCounters h' !! a = next <$> childCounters h !! a) →
  lseg h p l q → lseg h' p l q.
Proof.
  revert p. induction l as [|b l IH]; intros p Hf Hl; [done|].
  destruct Hl as (-> & Hb & c & Hc & Hl).
  do 2 (split; [done|]).
  specialize (Hf b (list_elem_of_here _ _)) as Hfb. rewrite Hc in Hfb. simpl in Hfb.
  destruct (childCounters h' !! b) as [c'|] eqn:Hc'; [|done].
  simpl in Hfb. injection Hfb as Hn.
  exists c'. split; [done|]. rewrite Hn. apply IH; [|done].
  intros a Ha. apply Hf. by apply list_elem_of_further.
Qed.

(** The list that starts at a pointer is determined by the heap. *)
Lemma child_list_inj h l1 l2 p :
  child_list h p l1 → child_list h p l2 → l1 = l2.
Proof.
  unfold child_list. revert p l2.
  induction l1 as [|a l1 IH]; intros p [|b l2]; simpl; [done|..].
  - intros Hp (Hb & Hn & _). congruence.
  - intros (Ha & Hn & _) Hp. congruence.
  - intros (-> & Ha & c & Hc & H1) (<- & _ & c' & Hc' & H2).
    rewrite Hc in Hc'. injection Hc' as <-. f_equal. eauto.
Qed.

(** It has no cycle: no node occurs twice. *)
Lemma child_list_NoDup h l p : child_list h p l → NoDup l.
Proof.
  revert p. induction l as [|a l IH]; intros p Hl; [constructor|].
  pose proof Hl as (-> & Ha & c & Hc & Hl').
  constructor; [|by eapply IH].
  intros Hin. apply list_elem_of_split in Hin as (l1 & l2 & ->).
  unfold child_list in Hl'.
  apply lseg_app in Hl' as (m & H1 & H2).
  pose proof H2 as (-> & _).
  pose proof (child_list_inj _ _ _ _ Hl H2) as Heq.
  apply (f_equal length) in Heq. simpl in Heq.
  rewrite length_app in Heq. simpl in Heq. lia.
Qed.

Lemma child_list_null h l : child_list h NULL l → l = [].
Proof. destruct l as [|a l]; [done|]. intros (<- & Ha & _). done. Qed.

(** The fuel of the loops covers every list. *)
Lemma child_list_fuel h l p : child_list h p l → length l < list_fuel h.
Proof.
  intros Hl. unfold list_fuel.
  assert (length l ≤ size (childCounters h)); [|lia].
  rewrite <- length_map_to_list, <- (length_fmap fst).
  apply submseteq_length, NoDup_submseteq; [by eapply child_list_NoDup|].
  intros a Ha. destruct (lseg_allocated _ _ _ _ _ Hl Ha) as [c Hc].
  apply list_elem_of_fmap. exists (a, c). split; [done|].
  by apply elem_of_map_to_list.
Qed.
End Lseg.

(** * The search loop *)

Section Search.
Implicit Types (h : heap) (vs : list child_view) (v : child_view).

Lemma child_views_cons h p v vs :
  child_views h p (v :: vs) →
  p = cv_addr v ∧ cv_addr v ≠ NULL ∧ node_view h v ∧
  ∃ c, childCounters h !! cv_addr v = Some c ∧ child_views h (next c) vs.
Proof.
  intros [(-> & Hn & c & Hc & Hl) Hv]. apply Forall_cons in Hv as [Hv Hvs].
  do 3 (split; [done|]). exists c. by repeat split.
Qed.

Lemma searchChild_scan h key vs : ∀ v fuel mp p,
  child_views h (cv_addr v) (v :: vs) →
  length (v :: vs) ≤ fuel →
  searchChild fuel h key mp p (cv_addr v) = Some (scan key mp p (v :: vs)).
Proof.
  induction vs as [|w vs IH]; intros v fuel mp p Hvs Hfuel;
    (destruct fuel as [|fuel]; [simpl in Hfuel; lia|]);
    apply child_views_cons in Hvs as (_ & Hn & (c' & d & Hc' & _ & _ & _ & Hd & Hk) & c & Hc & Hrest);
    rewrite Hc in Hc'; injection Hc' as <-;
    simpl; rewrite Hc; simpl; rewrite Hd; simpl; rewrite Hk.
  - destruct Hrest as [Hrest _]. simpl in Hrest. unfold child_list in Hrest. simpl in Hrest.
    repeat case_decide; try done.
  - pose proof Hrest as (Hnx & Hw & _)%child_views_cons.
    rewrite Hnx in *.
    destruct (decide (cv_klass v ≠ key)) as [Hne|Heq].
    + rewrite decide_False by done. rewrite decide_False by done.
      rewrite IH; [done|done|simpl in *; lia].
    + rewrite decide_True; [done|]. by destruct (decide (cv_klass v = key)).
Qed.
End Search.

(** * The LFU rule *)

Section Scan.
Implicit Types (vs pre post : list child_view) (v u w : child_view).

Lemma scan_None key vs : ∀ mp p,
  scan key mp p vs = None → Forall (λ w, cv_klass w ≠ key) vs.
Proof.
  induction vs as [|v vs IH]; intros mp p; simpl; [constructor|].
  case_decide as Hk; [done|]. intros Hs. constructor; eauto.
Qed.

Lemma scan_Some key vs : ∀ mp p r,
  scan key mp p vs = Some r →
  ∃ pre v post, vs = pre ++ v :: post ∧ Forall (λ w, cv_klass w ≠ key) pre ∧
    cv_klass v = key ∧ r = (prev2 mp p (cv_addr <$> pre), cv_addr v).
Proof.
  induction vs as [|v vs IH]; intros mp p r; simpl; [done|].
  case_decide as Hk.
  - intros [= <-]. exists [], v, vs. by repeat split.
  - intros (pre & w & post & -> & Hpre & Hw & ->)%IH.
    exists (v :: pre), w, post. split_and!; [done|by constructor|done|done].
Qed.

Lemma lfu_miss key vs : Forall (λ w, cv_klass w ≠ key) vs → lfu key vs = vs.
Proof.
  induction vs as [|v vs IH]; [done|]. intros [Hv Hvs]%Forall_cons.
  simpl. rewrite decide_False by done. destruct vs as [|w vs]; [done|].
  apply Forall_cons in Hvs as Hw. destruct Hw as [Hw _].
  rewrite decide_False by done. by rewrite IH.
Qed.

Lemma lfu_found_miss key vs :
  Forall (λ w, cv_klass w ≠ key) vs → lfu_found key vs = NULL.
Proof.
  induction vs as [|v vs IH]; [done|]. intros [Hv Hvs]%Forall_cons.
  simpl. rewrite decide_False by done. auto.
Qed.

Lemma lfu_found_hit key pre v post :
  Forall (λ w, cv_klass w ≠ key) pre → cv_klass v = key →
  lfu_found key (pre ++ v :: post) = cv_addr v.
Proof.
  induction pre as [|u pre IH]; simpl; intros Hpre Hv.
  - by rewrite decide_True.
  - apply Forall_cons in Hpre as [Hu Hpre]. rewrite decide_False by done. auto.
Qed.

Lemma lfu_hit_head key v post :
  cv_klass v = key → lfu key (v :: post) = hit v :: post.
Proof. intros Hv. simpl. by rewrite decide_True. Qed.

Lemma lfu_skip key t w rest :
  cv_klass t ≠ key → cv_klass w ≠ key →
  lfu key (t :: w :: rest) = t :: lfu key (w :: rest).
Proof.
  intros Ht Hw. cbn [lfu]. rewrite (decide_False (P := cv_klass t = key)) by done.
  rewrite (decide_False (P := cv_klass w = key)) by done. done.
Qed.

Lemma lfu_hit_inner key pre u v post :
  Forall (λ w, cv_klass w ≠ key) (pre ++ [u]) → cv_klass v = key →
  lfu key (pre ++ u :: v :: post) =
    if decide (cv_calls u ≤ cv_calls (hit v))%Z
    then pre ++ hit v :: u :: post else pre ++ u :: hit v :: post.
Proof.
  induction pre as [|t pre IH]; intros Hpre Hv.
  - apply Forall_cons in Hpre as [Hu _]. simpl.
    rewrite decide_False by done. rewrite decide_True by done.
    by case_decide.
  - apply Forall_cons in Hpre as [Ht Hpre].
    change ((t :: pre) ++ u :: v :: post) with (t :: (pre ++ u :: v :: post)).
    assert (∃ w rest, pre ++ u :: v :: post = w :: rest ∧ cv_klass w ≠ key)
      as (w & rest & Heq & Hw).
    { destruct pre as [|w pre]; simpl.
      - apply Forall_cons in Hpre as [Hu _]. eauto.
      - apply Forall_cons in Hpre as [Hw _]. eauto. }
    rewrite Heq, lfu_skip, <- Heq by done.
    rewrite IH by done. by case_decide.
Qed.

Lemma lfu_addrs key vs : cv_addr <$> lfu key vs ≡ₚ cv_addr <$> vs.
Proof.
  destruct (scan key NULL NULL vs) as [r|] eqn:E.
  - apply scan_Some in E as (pre & v & post & -> & Hpre & Hv & _).
    destruct pre as [|u pre _] using rev_ind.
    + simpl. by rewrite decide_True.
    + rewrite <- app_assoc. simpl. rewrite lfu_hit_inner by done.
      case_decide; [|by rewrite !fmap_app].
      rewrite !fmap_app. simpl. f_equiv. apply Permutation_swap.
  - apply scan_None in E. by rewrite lfu_miss.
Qed.
End Scan.

(** * Node views *)

Section NodeViews.
Implicit Types (h : heap) (vs pre post : list child_view) (v u w : child_view).

Lemma set_child_id cls : set_child cls (child cls) = cls.
Proof. by destruct cls. Qed.

Lemma node_view_frame h h' w :
  objDatas h' = objDatas h →
  (∀ c, childCounters h !! cv_addr w = Some c →
        ∃ c', childCounters h' !! cv_addr w = Some c' ∧ same_payload c c') →
  node_view h w → node_view h' w.
Proof.
  intros Hd Hc (c & d & Hl & H1 & H2 & H3 & H4 & H5).
  destruct (Hc _ Hl) as (c' & Hl' & E1 & E2 & E3).
  exists c', d. rewrite Hd, E1, E2, E3. done.
Qed.

Lemma node_view_hit h h' v c :
  objDatas h' = objDatas h →
  childCounters h !! cv_addr v = Some c →
  (∃ c', childCounters h' !! cv_addr v = Some c' ∧
         same_payload (set_calls c (wrap32u (callCount c + 1))) c') →
  node_view h v → node_view h' (hit v).
Proof.
  intros Hd Hl (c' & Hl' & E1 & E2 & E3) (c0 & d & Hl0 & H1 & H2 & H3 & H4 & H5).
  rewrite Hl in Hl0. injection Hl0 as <-.
  exists c', d. simpl in *. rewrite Hd, E1, E2, E3, H3. done.
Qed.

Lemma child_views_app h p pre post :
  child_views h p (pre ++ post) ↔
  ∃ m, lseg h p (cv_addr <$> pre) m ∧ Forall (node_view h) pre ∧ child_views h m post.
Proof.
  unfold child_views, child_list. rewrite fmap_app, Forall_app, lseg_app.
  split.
  - intros [(m & H1 & H2) [H3 H4]]. exists m. done.
  - intros (m & H1 & H3 & H2 & H4). split; [by exists m|done].
Qed.
End NodeViews.

(** * A hit in place *)

Section HitInPlace.
Implicit Types (h : heap) (vs pre post : list child_view) (v u w : child_view).

Lemma prev2_snoc mp p l x : prev2 mp p (l ++ [x]) = ((prev2 mp p l).2, x).
Proof. unfold prev2. by rewrite foldl_app. Qed.

(** Segments and views that avoid the nodes a store touches. *)
Lemma lseg_untouched h h' l p q :
  (∀ a, a ∈ l → childCounters h' !! a = childCounters h !! a) →
  lseg h p l q → lseg h' p l q.
Proof. intros Hf. apply lseg_frame. intros a Ha. by rewrite Hf. Qed.

Lemma views_untouched h h' vs :
  objDatas h' = objDatas h →
  (∀ w, w ∈ vs → childCounters h' !! cv_addr w = childCounters h !! cv_addr w) →
  Forall (node_view h) vs → Forall (node_view h') vs.
Proof.
  intros Hd Hf. rewrite !Forall_forall. intros Hvs w Hw.
  eapply (node_view_frame h); [done| |by apply Hvs].
  intros c Hc. exists c. by rewrite Hf, Hc.
Qed.

Lemma hit_in_place h p pre v post c :
  child_views h p (pre ++ v :: post) →
  childCounters h !! cv_addr v = Some c →
  child_views
    (with_childCounters h
       (<[cv_addr v := set_calls c (wrap32u (callCount c + 1))]> (childCounters h)))
    p (pre ++ hit v :: post).
Proof.
  intros [Hl Hvs] Hc. pose proof (child_list_NoDup _ _ _ Hl) as Hnd.
  rewrite fmap_app in Hnd. simpl in Hnd.
  apply NoDup_app in Hnd as (_ & Hd1 & [Hd2 _]%NoDup_cons).
  split.
  - replace (cv_addr <$> pre ++ hit v :: post) with (cv_addr <$> pre ++ v :: post)
      by by rewrite !fmap_app.
    revert Hl. apply lseg_frame. intros a _. simpl.
    rewrite lookup_insert. case_decide; [subst; by rewrite Hc|done].
  - apply Forall_app in Hvs as [Hpre [Hv Hpost]%Forall_cons].
    apply Forall_app. split; [|constructor].
    + revert Hpre. apply views_untouched; [done|]. intros w Hw. simpl.
      apply lookup_insert_ne. intros E. eapply Hd1; [by apply list_elem_of_fmap_2|].
      rewrite <- E. apply list_elem_of_here.
    + eapply (node_view_hit h _ v c); [done|exact Hc| |done]. simpl.
      rewrite lookup_insert_eq. eexists; split; [done|]. done.
    + revert Hpost. apply views_untouched; [done|]. intros w Hw. simpl.
      apply lookup_insert_ne. intros E. apply Hd2. rewrite E.
      by apply list_elem_of_fmap_2.
Qed.
End HitInPlace.

(** * The swap *)

Section Swap.
Implicit Types (h : heap) (vs pre post : list child_view) (v u w : child_view).

Lemma payload_kept_refl m : payload_kept m m.
Proof. intros a c Hc. by exists c. Qed.

Lemma payload_kept_relink m m' b cb y :
  payload_kept m m' → m' !! b = Some cb →
  payload_kept m (<[b := set_next cb y]> m').
Proof.
  intros Hm Hb a c Hc. destruct (Hm _ _ Hc) as (c' & Hc' & E1 & E2 & E3).
  destruct (decide (b = a)) as [->|Hne].
  - rewrite lookup_insert_eq. eexists; split; [done|].
    rewrite Hb in Hc'. injection Hc' as ->. done.
  - rewrite lookup_insert_ne by done. by exists c'.
Qed.

Lemma views_payload h h' vs :
  objDatas h' = objDatas h → payload_kept (childCounters h) (childCounters h') →
  Forall (node_view h) vs → Forall (node_view h') vs.
Proof.
  intros Hd Hm Hvs. eapply Forall_impl; [exact Hvs|]. intros w.
  apply node_view_frame; [done|]. intros c Hc. by apply Hm.
Qed.

Lemma store_next_Some h a c x :
  childCounters h !! a = Some c →
  store_next a x h = Some (with_childCounters h (<[a := set_next c x]> (childCounters h))).
Proof. intros Hc. unfold store_next. by rewrite Hc. Qed.

Lemma store_child_Some h k cls x :
  classCounters h !! k = Some cls →
  store_child k x h = Some (with_classCounters h (<[k := set_child cls x]> (classCounters h))).
Proof. intros Hc. unfold store_child. by rewrite Hc. Qed.

Lemma swap_spec h k cls pre u v post cv :
  classCounters h !! k = Some cls →
  child_views h (child cls) (pre ++ u :: v :: post) →
  childCounters h !! cv_addr v = Some cv →
  ∃ h' head',
    (h2 ← store_next (cv_addr u) (next cv) h;
     h3 ← (if decide ((prev2 NULL NULL (cv_addr <$> pre)).2 ≠ NULL)
           then store_next (prev2 NULL NULL (cv_addr <$> pre)).2 (cv_addr v) h2
           else store_child k (cv_addr v) h2);
     store_next (cv_addr v) (cv_addr u) h3) = Some h' ∧
    classCounters h' = <[k := set_child cls head']> (classCounters h) ∧
    child_views h' head' (pre ++ v :: u :: post) ∧
    objCounters h' = objCounters h ∧ objDatas h' = objDatas h ∧
    oopMapBlocks h' = oopMapBlocks h ∧ brk h' = brk h ∧
    (∀ a, a ∉ cv_addr <$> (pre ++ u :: v :: post) →
          childCounters h' !! a = childCounters h !! a).
Proof.
  intros Hk Hvs Hcv.
  pose proof (child_list_NoDup _ _ _ (proj1 Hvs)) as Hnd.
  pose proof (proj2 Hvs) as Hall.
  apply child_views_app in Hvs as (m & Hlpre & Hvpre & Hvs).
  apply child_views_cons in Hvs as (-> & Hun & Hnu & cu & Hcu & Hvs).
  apply child_views_cons in Hvs as (Hnx & Hvn & Hnv & cv' & Hcv' & Hpost).
  rewrite Hcv in Hcv'. injection Hcv' as <-.
  rewrite fmap_app in Hnd. simpl in Hnd.
  apply NoDup_app in Hnd as (Hndpre & Hd1 & Hnd).
  apply NoDup_cons in Hnd as (Hu & Hnd). apply NoDup_cons in Hnd as (Hv & Hndpost).
  assert (cv_addr u ≠ cv_addr v) as Huv
    by (intros E; apply Hu; rewrite E; apply list_elem_of_here).
  assert (Forall (node_view h) (pre ++ v :: u :: post)) as Hall'.
  { revert Hall. rewrite !Forall_app, !Forall_cons. tauto. }
  rewrite (store_next_Some _ _ cu) by done. cbn [mbind option_bind].
  destruct pre as [|t pre _] using rev_ind.
  - (* the hit becomes the head *)
    simpl in Hlpre. cbn [fmap list_fmap prev2 foldl snd].
    rewrite decide_False by (intros Hn; by apply Hn).
    rewrite (store_child_Some _ _ cls) by done. cbn [mbind option_bind].
    rewrite (store_next_Some _ _ cv) by (simpl; by rewrite lookup_insert_ne).
    eexists _, (cv_addr v). split; [done|]. simpl.
    split_and!; try done.
    + split.
      * simpl. split; [done|split; [done|]]. eexists. split; [apply lookup_insert_eq|].
        simpl. split; [done|split; [done|]]. eexists.
        split; [rewrite lookup_insert_ne by done; apply lookup_insert_eq|]. simpl.
        destruct Hpost as [Hpost _]. revert Hpost. apply lseg_untouched.
        intros a Ha. simpl.
        assert (a ≠ cv_addr v ∧ a ≠ cv_addr u) as [? ?]
          by (split; intros ->; [by apply Hv|apply Hu; by right]).
        by rewrite !lookup_insert_ne.
      * revert Hall'. apply views_payload; [done|]. simpl.
        apply (payload_kept_relink _ _ _ cv); [|by rewrite lookup_insert_ne].
        apply (payload_kept_relink _ _ _ cu); [apply payload_kept_refl|done].
    + intros a Ha. simpl in Ha.
      apply not_elem_of_cons in Ha as [? [? _]%not_elem_of_cons].
      by rewrite !lookup_insert_ne.
  - (* the hit moves behind the node before its predecessor *)
    rewrite fmap_app in Hlpre, Hd1, Hndpre |- *. simpl in Hlpre, Hd1, Hndpre |- *.
    apply lseg_app in Hlpre as (m & Hlpre & (-> & Htn & ct & Hct & Hnt)).
    simpl in Hnt.
    apply NoDup_app in Hndpre as (Hndpre & Hd0 & _).
    assert (cv_addr t ∉ cv_addr u :: cv_addr v :: (cv_addr <$> post)) as Ht.
    { apply Hd1, elem_of_app. right. apply list_elem_of_here. }
    apply not_elem_of_cons in Ht as (Htu & (Htv & Htp)%not_elem_of_cons).
    apply not_elem_of_cons in Hu as (_ & Hup).
    assert (∀ a, a ∈ cv_addr <$> pre →
              a ≠ cv_addr t ∧ a ≠ cv_addr u ∧ a ≠ cv_addr v) as Hpre3.
    { intros a Ha. specialize (Hd0 a Ha). rewrite not_elem_of_cons in Hd0.
      specialize (Hd1 a (proj2 (elem_of_app _ _ _) (or_introl Ha))).
      rewrite !not_elem_of_cons in Hd1. tauto. }
    assert (∀ a, a ∈ cv_addr <$> post →
              a ≠ cv_addr t ∧ a ≠ cv_addr u ∧ a ≠ cv_addr v) as Hpost3.
    { intros a Ha. split_and!; intros ->; done. }
    rewrite prev2_snoc. cbn [snd].
    rewrite decide_True by done.
    rewrite (store_next_Some _ _ ct) by (simpl; by rewrite lookup_insert_ne).
    cbn [mbind option_bind].
    rewrite (store_next_Some _ _ cv) by (simpl; by rewrite !lookup_insert_ne).
    eexists _, (child cls). split; [done|]. simpl.
    split_and!; try done.
    + by rewrite set_child_id, insert_id.
    + split.
      * unfold child_list. rewrite !fmap_app, <- app_assoc. simpl.
        apply lseg_app. exists (cv_addr t). split.
        { revert Hlpre. apply lseg_untouched.
          intros a Ha. simpl. destruct (Hpre3 a Ha) as (? & ? & ?).
          by rewrite !lookup_insert_ne. }
        simpl. split; [done|split; [done|]]. eexists.
        split; [rewrite lookup_insert_ne by done; apply lookup_insert_eq|]. simpl.
        split; [done|split; [done|]]. eexists. split; [apply lookup_insert_eq|].
        simpl. split; [done|split; [done|]]. eexists.
        split; [rewrite !lookup_insert_ne by done; apply lookup_insert_eq|]. simpl.
        destruct Hpost as [Hpost _]. revert Hpost. apply lseg_untouched.
        intros a Ha. simpl. destruct (Hpost3 a Ha) as (? & ? & ?).
        by rewrite !lookup_insert_ne.
      * revert Hall'. apply views_payload; [done|]. simpl.
        apply (payload_kept_relink _ _ _ cv); [|by rewrite !lookup_insert_ne].
        apply (payload_kept_relink _ _ _ ct); [|by rewrite lookup_insert_ne].
        apply (payload_kept_relink _ _ _ cu); [apply payload_kept_refl|done].
    + intros a Ha. rewrite !fmap_app in Ha. simpl in Ha.
      rewrite !not_elem_of_app, !not_elem_of_cons in Ha.
      rewrite !lookup_insert_ne; [done|..]; intros <-; tauto.
Qed.
End Swap.

(** * findChildClass refines the LFU rule *)

Section Find.
Implicit Types (h : heap) (vs pre post : list child_view) (v u w : child_view).

Lemma node_view_lookup h v :
  node_view h v → ∃ c, childCounters h !! cv_addr v = Some c ∧ callCount c = cv_calls v.
Proof. intros (c & d & Hc & _ & _ & E & _). eauto. Qed.

Lemma promoteChild_spec h k cls key pre v post :
  classCounters h !! k = Some cls →
  child_views h (child cls) (pre ++ v :: post) →
  Forall (λ w, cv_klass w ≠ key) pre → cv_klass v = key →
  ∃ h' head',
    promoteChild k (prev2 NULL NULL (cv_addr <$> pre)).1
      (prev2 NULL NULL (cv_addr <$> pre)).2 (cv_addr v) h = Some h' ∧
    classCounters h' = <[k := set_child cls head']> (classCounters h) ∧
    child_views h' head' (lfu key (pre ++ v :: post)) ∧
    objCounters h' = objCounters h ∧ objDatas h' = objDatas h ∧
    oopMapBlocks h' = oopMapBlocks h ∧ brk h' = brk h ∧
    (∀ a, a ∉ cv_addr <$> (pre ++ v :: post) →
          childCounters h' !! a = childCounters h !! a).
Proof.
  intros Hk Hvs Hpre Hv.
  pose proof (child_list_NoDup _ _ _ (proj1 Hvs)) as Hnd.
  pose proof (proj2 Hvs) as Hall.
  apply Forall_app in Hall as [Hall_pre [Hnv _]%Forall_cons].
  destruct (node_view_lookup _ _ Hnv) as (c & Hc & Hcalls).
  pose proof (hit_in_place _ _ _ _ _ _ Hvs Hc) as Hvs1.
  unfold promoteChild. rewrite Hc. cbn [mbind option_bind].
  unfold store_callCount. rewrite Hc. cbn [mbind option_bind].
  fold (set_calls c (wrap32u (callCount c + 1))) in *.
  set (h1 := with_childCounters h _) in *.
  assert (∀ a, a ∉ cv_addr <$> pre ++ v :: post →
            childCounters h1 !! a = childCounters h !! a) as Hframe1.
  { intros a Ha. apply lookup_insert_ne. intros <-. apply Ha.
    rewrite fmap_app. apply elem_of_app. right. apply list_elem_of_here. }
  destruct pre as [|u pre _] using rev_ind.
  - change ([] ++ v :: post) with (v :: post) in *.
    rewrite lfu_hit_head by done. cbn [fmap list_fmap prev2 foldl fst snd].
    rewrite decide_False by (intros Hn; by apply Hn).
    exists h1, (child cls). split; [done|].
    split; [by rewrite set_child_id, insert_id|]. done.
  - assert (prev2 NULL NULL (cv_addr <$> pre ++ [u])
            = ((prev2 NULL NULL (cv_addr <$> pre)).2, cv_addr u)) as ->
      by (rewrite fmap_app; apply prev2_snoc).
    cbn [fst snd].
    rewrite <- app_assoc in *. cbn [app] in *.
    apply Forall_app in Hall_pre as [_ [Hnu _]%Forall_cons].
    destruct (node_view_lookup _ _ Hnu) as (cu & Hcu & Hcallsu).
    assert (cv_addr u ≠ cv_addr v) as Huv.
    { rewrite fmap_app in Hnd. apply NoDup_app in Hnd as (_ & _ & Hnd).
      simpl in Hnd. apply NoDup_cons in Hnd as [Hnd _].
      intros E. apply Hnd. rewrite E. apply list_elem_of_here. }
    assert (cv_addr u ≠ NULL) as Hun.
    { eapply lseg_not_null; [apply Hvs1|]. rewrite fmap_app. apply elem_of_app.
      right. apply list_elem_of_here. }
    rewrite decide_True by done.
    assert (childCounters h1 !! cv_addr u = Some cu) as Hcu1.
    { subst h1. simpl. by rewrite lookup_insert_ne. }
    assert (childCounters h1 !! cv_addr v = Some (set_calls c (wrap32u (callCount c + 1))))
      as Hc1 by apply lookup_insert_eq.
    rewrite Hcu1, Hc1. cbn [mbind option_bind].
    rewrite lfu_hit_inner by done.
    replace (cv_calls (hit v)) with (callCount (set_calls c (wrap32u (callCount c + 1))))
      by (simpl; by rewrite Hcalls).
    rewrite <- Hcallsu.
    case_decide as Hle.
    + destruct (swap_spec h1 k cls pre u (hit v) post _ Hk Hvs1 Hc1)
        as (h' & head' & Hrun & Hcls & Hvs' & Ho & Hd & Hb & Hbrk & Hframe).
      exists h', head'. split; [exact Hrun|]. split_and!; try done.
      intros a Ha. rewrite Hframe, Hframe1; [done|done|].
      by rewrite fmap_app in Ha |- *.
    + exists h1, (child cls). split; [done|].
      split; [by rewrite set_child_id, insert_id|]. done.
Qed.

Theorem findChildClass_spec h k cls key vs :
  classCounters h !! k = Some cls →
  child_views h (child cls) vs →
  ∃ h' head',
    findChildClass k key h = Some (lfu_found key vs, h') ∧
    classCounters h' = <[k := set_child cls head']> (classCounters h) ∧
    child_views h' head' (lfu key vs) ∧
    objCounters h' = objCounters h ∧ objDatas h' = objDatas h ∧
    oopMapBlocks h' = oopMapBlocks h ∧ brk h' = brk h ∧
    (∀ a, a ∉ cv_addr <$> vs → childCounters h' !! a = childCounters h !! a).
Proof.
  intros Hk Hvs. unfold findChildClass. rewrite Hk. cbn [mbind option_bind].
  destruct vs as [|v rest].
  - destruct Hvs as [Hl Hv]. simpl in Hl. unfold child_list in Hl. simpl in Hl.
    rewrite decide_True by done.
    exists h, (child cls). split; [done|].
    split; [by rewrite set_child_id, insert_id|]. by repeat split.
  - pose proof Hvs as (Hhead & Hn & _)%child_views_cons.
    rewrite decide_False by congruence.
    rewrite Hhead in Hvs |- *.
    rewrite (searchChild_scan _ _ rest) by
      (try done; pose proof (child_list_fuel _ _ _ (proj1 Hvs)) as Hf;
       rewrite length_fmap in Hf; lia).
    rewrite <- Hhead in Hvs.
    cbn [mbind option_bind].
    destruct (scan key NULL NULL (v :: rest)) as [r|] eqn:Hscan.
    + apply scan_Some in Hscan as (pre & w & post & Heq & Hpre & Hw & ->).
      rewrite Heq in *.
      destruct (promoteChild_spec _ _ _ _ _ _ _ Hk Hvs Hpre Hw)
        as (h' & head' & Hrun & Hrest).
      exists h', head'.
      destruct (prev2 NULL NULL (cv_addr <$> pre)) as [mp p]. simpl in Hrun.
      rewrite Hrun. cbn [mbind option_bind].
      rewrite lfu_found_hit by done. done.
    + apply scan_None in Hscan.
      rewrite lfu_miss, lfu_found_miss by done.
      exists h, (child cls). split; [done|].
      split; [by rewrite set_child_id, insert_id|].
      split; [exact Hvs|]. by split_and!.
Qed.
End Find.

(** * The tail of a list *)

Section Tail.
Implicit Types (h : heap) (vs pre post : list child_view) (v u w : child_view).

Lemma lastChild_spec h l : ∀ p z fuel,
  child_list h p (l ++ [z]) → length (l ++ [z]) ≤ fuel →
  lastChild fuel h p = Some z.
Proof.
  induction l as [|a l IH]; intros p z fuel Hl Hfuel;
    (destruct fuel as [|fuel]; [rewrite length_app in Hfuel; simpl in Hfuel; lia|]);
    destruct Hl as (-> & Hn & c & Hc & Hl); simpl; rewrite Hc; simpl.
  - unfold child_list in Hl. simpl in Hl. rewrite Hl.
    by rewrite decide_False by (intros Hx; by apply Hx).
  - pose proof Hl as Hl'. destruct l; destruct Hl' as (Hnx & Hnn & _);
      (rewrite decide_True by congruence); apply IH; try done; simpl in *; lia.
Qed.

Lemma child_views_same h h' p vs :
  childCounters h' = childCounters h → objDatas h' = objDatas h →
  child_views h p vs → child_views h' p vs.
Proof.
  intros Hc Hd [Hl Hv]. split.
  - revert Hl. apply lseg_untouched. intros a _. by rewrite Hc.
  - revert Hv. apply views_untouched; [done|]. intros w _. by rewrite Hc.
Qed.
End Tail.
(** * pushNewChildClass appends *)

Section PushChild.
Implicit Types (h : heap) (vs pre post : list child_view) (v u w : child_view).

Lemma bounded_fresh h :
  bounded h →
  brk h ≠ NULL ∧ (brk h + 1)%N ≠ NULL ∧
  objCounters h !! brk h = None ∧ objCounters h !! (brk h + 1)%N = None ∧
  childCounters h !! brk h = None ∧ childCounters h !! (brk h + 1)%N = None ∧
  classCounters h !! brk h = None ∧ classCounters h !! (brk h + 1)%N = None.
Proof.
  intros (Hb & Ho & Hc & Hk). unfold NULL.
  split_and!; try lia; apply eq_None_not_Some; intros Hs;
    first [apply Ho in Hs | apply Hc in Hs | apply Hk in Hs]; lia.
Qed.

Lemma pushNewChildClass_spec h k cls vs d od o :
  bounded h → classCounters h !! k = Some cls → spinlock cls = 0%Z →
  child_views h (child cls) vs → objDatas h !! d = Some od →
  calloc_ok o = true → memalign_ok o = true →
  ∃ h' head',
    pushNewChildClass k d o h = Some (brk h, h') ∧
    classCounters h' = <[k := set_child cls head']> (classCounters h) ∧
    child_views h' head'
      (vs ++ [mkView (brk h) (brk h + 1)%N d (klassOop od) 0]) ∧
    objCounters h' = <[(brk h + 1)%N := zero_counter]> (objCounters h) ∧
    objDatas h' = objDatas h ∧ oopMapBlocks h' = oopMapBlocks h ∧
    brk h' = (brk h + 2)%N ∧
    (∀ a, a ∉ cv_addr <$> vs → a ≠ brk h →
          childCounters h' !! a = childCounters h !! a).
Proof.
  intros Hbd Hk Hlock Hvs Hd Hcal Hmem.
  destruct (bounded_fresh _ Hbd) as (Ha0 & Hb0 & Hoa & Hob & Hca & Hcb & Hka & Hkb).
  assert (∀ a, a ∈ cv_addr <$> vs → a ≠ brk h) as Hfresh.
  { intros a Ha ->. destruct (lseg_allocated _ _ _ _ _ (proj1 Hvs) Ha) as [c Hc].
    congruence. }
  pose proof (child_list_NoDup _ _ _ (proj1 Hvs)) as Hnd.
  destruct h as [oc odm cc kc bl b]. simpl in *.
  unfold pushNewChildClass. rewrite Hcal, Hmem. heap_norm.
  unfold clearObjectCounter. heap_norm.
  rewrite lookup_insert_eq. heap_norm.
  unfold spinLockWait, store_spinlock. heap_norm.
  rewrite Hk. heap_norm. rewrite decide_True by done. heap_norm.
  rewrite lookup_insert_eq. heap_norm.
  rewrite !insert_insert_eq.
  set (n := mkChildClassCounter (b + 1) d NULL 0).
  set (nv := mkView b (b + 1)%N d (klassOop od) 0).
  set (h1 := mkHeap _ _ _ _ _ _).
  assert (child_views h1 (child cls) vs) as Hvs1.
  { destruct Hvs as [Hl Hv]. split.
    - revert Hl. apply lseg_untouched. intros a Ha. simpl.
      apply lookup_insert_ne. intros E. by apply (Hfresh a).
    - revert Hv. apply views_untouched; [done|]. intros w Hw. simpl.
      apply lookup_insert_ne. intros E. apply (Hfresh (cv_addr w)); [|done].
      by apply list_elem_of_fmap_2. }
  assert (set_spinlock (set_spinlock cls 1) 0 = cls) as Hid.
  { destruct cls. simpl in *. by subst. }
  assert (∀ x, set_spinlock (set_child (set_spinlock cls 1) x) 0 = set_child cls x) as Hsc.
  { intros x. destruct cls. simpl in *. by subst. }
  change (child (set_spinlock cls 1)) with (child cls).
  destruct vs as [|z vs _] using rev_ind.
  - destruct Hvs as [Hl _]. unfold child_list in Hl. simpl in Hl.
    rewrite decide_True by done.
    unfold store_child. subst h1. heap_norm. rewrite lookup_insert_eq. heap_norm.
    unfold spinLockRelease, store_spinlock. heap_norm.
    rewrite lookup_insert_eq. heap_norm.
    rewrite !insert_insert_eq, Hsc.
    eexists _, b. split; [done|]. heap_norm.
    split_and!; try done; [|lia|intros a _ Ha; by apply lookup_insert_ne].
    split.
    + simpl. split; [done|split; [done|]]. exists n. split; [apply lookup_insert_eq|done].
    + constructor; [|constructor]. exists n, od. simpl.
      rewrite lookup_insert_eq. done.
  - pose proof (proj1 Hvs1) as Hl1. rewrite fmap_app in Hl1. simpl in Hl1.
    pose proof Hl1 as (m & Hpre & (-> & Hzn & cz & Hcz & Hnz))%lseg_app.
    simpl in Hnz.
    assert (child cls ≠ NULL) as Hhead.
    { destruct vs as [|y vs]; simpl in Hpre; [by rewrite Hpre|].
      destruct Hpre as (-> & Hy & _). done. }
    rewrite decide_False by done.
    rewrite (lastChild_spec _ (cv_addr <$> vs) _ (cv_addr z)); [|done|].
    2:{ pose proof (child_list_fuel _ _ _ Hl1). lia. }
    heap_norm. rewrite (store_next_Some _ _ cz) by done. heap_norm.
    unfold spinLockRelease, store_spinlock. subst h1. heap_norm.
    rewrite lookup_insert_eq. heap_norm.
    rewrite ?insert_insert_eq, ?Hid.
    assert (cv_addr z ≠ b) as Hzb.
    { apply Hfresh. rewrite fmap_app. apply elem_of_app. right. apply list_elem_of_here. }
    rewrite fmap_app in Hnd. apply NoDup_app in Hnd as (_ & Hdz & _).
    eexists _, (child cls). split; [done|]. heap_norm.
    rewrite set_child_id.
    split_and!; try done; [|lia|].
    + split.
      * unfold child_list. rewrite !fmap_app, <- app_assoc. simpl.
        apply lseg_app. exists (cv_addr z). split.
        { revert Hpre. apply lseg_untouched. intros a Ha. simpl.
          apply lookup_insert_ne. intros <-. apply (Hdz _ Ha), list_elem_of_here. }
        simpl. split; [done|split; [done|]]. eexists. split; [apply lookup_insert_eq|].
        simpl. split; [done|split; [done|]]. exists n.
        split; [|done]. rewrite lookup_insert_ne by done. apply lookup_insert_eq.
      * apply Forall_app. split.
        { eapply views_payload; [| |apply Hvs1]; [done|]. simpl.
          apply (payload_kept_relink _ _ _ cz); [apply payload_kept_refl|done]. }
        constructor; [|constructor]. exists n, od. simpl.
        rewrite lookup_insert_ne by done. rewrite lookup_insert_eq. done.
    + intros a Ha Hab. rewrite fmap_app in Ha. apply not_elem_of_app in Ha as [_ Ha].
      simpl in Ha. apply not_elem_of_cons in Ha as [Ha _].
      by rewrite !lookup_insert_ne.
Qed.
End PushChild.
(** * Well-formedness across an operation *)

Section Transfer.
Implicit Types (h : heap) (vs pre post : list child_view) (v u w : child_view).

Lemma child_views_list h p vs l :
  child_views h p vs → child_list h p l → l = cv_addr <$> vs.
Proof. intros [Hl _] Hl'. by eapply child_list_inj. Qed.

(** The heap after an operation is well formed when each of its class
    counters is new and empty, or was there before with no node of
    another list added to its own; [k0] is the one class counter whose
    list may have gained fresh nodes. *)
Lemma heap_wf_transfer h h' k0 :
  heap_wf h → bounded h' →
  (∀ k cls', classCounters h' !! k = Some cls' →
     ∃ vs', class_wf h' cls' vs' ∧
       ((vs' = [] ∧ offsets cls' = NULL) ∨
        ∃ cls vs, classCounters h !! k = Some cls ∧ child_views h (child cls) vs ∧
          (∀ a, a ∈ cv_addr <$> vs' →
                a ∈ cv_addr <$> vs ∨ (childCounters h !! a = None ∧ k = k0)) ∧
          (offsets cls' = offsets cls ∨ offsets cls' = NULL))) →
  heap_wf h'.
Proof.
  intros (_ & Hwf & Hdisj & Hoff) Hbd Hall. split; [done|]. split_and!.
  - intros k cls' Hk. destruct (Hall _ _ Hk) as (vs' & Hcw & _). eauto.
  - intros k1 k2 cls1 cls2 l1 l2 Hk1 Hk2 Hne Hl1 Hl2 a Ha1 Ha2.
    destruct (Hall _ _ Hk1) as (vs1 & Hcw1 & Hold1).
    destruct (Hall _ _ Hk2) as (vs2 & Hcw2 & Hold2).
    rewrite (child_views_list _ _ _ _ (proj1 (proj2 (proj2 (proj2 Hcw1)))) Hl1) in Ha1.
    rewrite (child_views_list _ _ _ _ (proj1 (proj2 (proj2 (proj2 Hcw2)))) Hl2) in Ha2.
    destruct Hold1 as [[-> _]|(c1 & w1 & Hc1 & Hw1 & Hin1 & _)]; [by inversion Ha1|].
    destruct Hold2 as [[-> _]|(c2 & w2 & Hc2 & Hw2 & Hin2 & _)]; [by inversion Ha2|].
    destruct (Hin1 _ Ha1) as [Hold1|[Hnew1 ->]];
      destruct (Hin2 _ Ha2) as [Hold2|[Hnew2 ->]]; [| | |done].
    + by apply (Hdisj _ _ _ _ _ _ Hc1 Hc2 Hne (proj1 Hw1) (proj1 Hw2) a).
    + destruct (lseg_allocated _ _ _ _ _ (proj1 Hw1) Hold1). congruence.
    + destruct (lseg_allocated _ _ _ _ _ (proj1 Hw2) Hold2). congruence.
  - intros k1 k2 cls1 cls2 Hk1 Hk2 Heq Hnn.
    destruct (Hall _ _ Hk1) as (vs1 & _ & [[_ ?]|(c1 & w1 & Hc1 & _ & _ & [Ho1|?])]);
      try done.
    destruct (Hall _ _ Hk2) as (vs2 & _ & [[_ ?]|(c2 & w2 & Hc2 & _ & _ & [Ho2|?])]);
      try congruence.
    apply (Hoff _ _ _ _ Hc1 Hc2); congruence.
Qed.

Lemma bounded_transfer h h' :
  bounded h → (brk h ≤ brk h')%N →
  (∀ a, is_Some (objCounters h' !! a) →
        is_Some (objCounters h !! a) ∨ (brk h ≤ a < brk h')%N) →
  (∀ a, is_Some (childCounters h' !! a) →
        is_Some (childCounters h !! a) ∨ (brk h ≤ a < brk h')%N) →
  (∀ a, is_Some (classCounters h' !! a) →
        is_Some (classCounters h !! a) ∨ (brk h ≤ a < brk h')%N) →
  bounded h'.
Proof.
  intros (Hb & Ho & Hc & Hk) Hle Ho' Hc' Hk'. split_and!; [lia|..]; intros a Ha.
  - destruct (Ho' _ Ha) as [Hs|?]; [apply Ho in Hs|]; lia.
  - destruct (Hc' _ Ha) as [Hs|?]; [apply Hc in Hs|]; lia.
  - destruct (Hk' _ Ha) as [Hs|?]; [apply Hk in Hs|]; lia.
Qed.
End Transfer.
(** * findChildClass on a well-formed heap *)

Section FindWf.
Implicit Types (h : heap) (vs pre post : list child_view) (v u w : child_view).

Lemma lfu_static {A} (f : child_view → A) key vs :
  (∀ v, f (hit v) = f v) → f <$> lfu key vs ≡ₚ f <$> vs.
Proof.
  intros Hf. destruct (scan key NULL NULL vs) as [r|] eqn:E.
  - apply scan_Some in E as (pre & v & post & -> & Hpre & Hv & _).
    destruct pre as [|u pre _] using rev_ind.
    + simpl. rewrite decide_True by done. simpl. by rewrite Hf.
    + rewrite <- app_assoc. simpl. rewrite lfu_hit_inner by done.
      case_decide; rewrite !fmap_app; simpl; rewrite Hf; [|done].
      f_equiv. apply Permutation_swap.
  - apply scan_None in E. by rewrite lfu_miss.
Qed.

Lemma lfu_counters (P : N → Prop) key vs :
  Forall (λ v, P (cv_counter v)) vs → Forall (λ v, P (cv_counter v)) (lfu key vs).
Proof.
  rewrite !Forall_forall. intros Hvs v' Hv'.
  assert (cv_counter v' ∈ cv_counter <$> vs) as Hin.
  { rewrite <- (lfu_static cv_counter key) by done. by apply list_elem_of_fmap_2. }
  apply list_elem_of_fmap in Hin as (v & -> & Hv). by apply Hvs.
Qed.

Lemma child_views_untouched h h' p vs :
  objDatas h' = objDatas h →
  (∀ a, a ∈ cv_addr <$> vs → childCounters h' !! a = childCounters h !! a) →
  child_views h p vs → child_views h' p vs.
Proof.
  intros Hd Hf [Hl Hv]. split.
  - revert Hl. by apply lseg_untouched.
  - revert Hv. apply views_untouched; [done|]. intros w Hw.
    by apply Hf, list_elem_of_fmap_2.
Qed.

Theorem findChildClass_wf h k cls key :
  heap_wf h → classCounters h !! k = Some cls →
  ∃ vs h' head',
    child_views h (child cls) vs ∧
    findChildClass k key h = Some (lfu_found key vs, h') ∧
    heap_wf h' ∧
    classCounters h' = <[k := set_child cls head']> (classCounters h) ∧
    child_views h' head' (lfu key vs) ∧
    objCounters h' = objCounters h ∧ objDatas h' = objDatas h ∧
    oopMapBlocks h' = oopMapBlocks h ∧ brk h' = brk h ∧
    (∀ a, a ∉ cv_addr <$> vs → childCounters h' !! a = childCounters h !! a).
Proof.
  intros Hwf Hk. pose proof Hwf as (Hbd & Hcls & Hdisj & Hoff).
  destruct (Hcls _ _ Hk) as (vs & Hlock & Hctr & Hofs & Hvs & Hcs).
  destruct (findChildClass_spec _ _ _ key _ Hk Hvs)
    as (h' & head' & Hrun & Hk' & Hvs' & Ho & Hd & Hb & Hbrk & Hframe).
  exists vs, h', head'. split_and!; try done.
  apply (heap_wf_transfer h h' k); [done| |].
  - apply (bounded_transfer h); [done|lia|..]; intros a Ha; left.
    + by rewrite <- Ho.
    + destruct (decide (a ∈ cv_addr <$> vs)) as [Hin|Hnin].
      * eapply lseg_allocated; [apply Hvs|done].
      * by rewrite <- Hframe.
    + rewrite Hk' in Ha. destruct (decide (k = a)) as [<-|Hne]; [by eexists|].
      by rewrite lookup_insert_ne in Ha.
  - intros k2 cls2 Hk2. rewrite Hk' in Hk2.
    destruct (decide (k = k2)) as [<-|Hne].
    + rewrite lookup_insert_eq in Hk2. injection Hk2 as <-.
      exists (lfu key vs). split.
      * split; [done|]. split; [by rewrite Ho|]. split; [by rewrite Hb|].
        split; [done|].
        rewrite Ho. by apply (lfu_counters (λ x, is_Some (objCounters h !! x))).
      * right. exists cls, vs. split_and!; [done|done| |by left].
        intros a Ha. left. by rewrite (lfu_static cv_addr) in Ha.
    + rewrite lookup_insert_ne in Hk2 by done.
      destruct (Hcls _ _ Hk2) as (vs2 & Hlock2 & Hctr2 & Hofs2 & Hvs2 & Hcs2).
      exists vs2. split.
      * split; [done|]. split; [by rewrite Ho|]. split; [by rewrite Hb|].
        split; [|by rewrite Ho].
        apply (child_views_untouched h); [done| |done]. intros a Ha.
        apply Hframe. intros Ha'.
        by apply (Hdisj _ _ _ _ _ _ Hk Hk2 Hne (proj1 Hvs) (proj1 Hvs2) a).
      * right. exists cls2, vs2. split_and!; [done|done|by left|by left].
Qed.
End FindWf.
(** * Sequences of findChildClass calls *)

Section Seq.
Implicit Types (h : heap) (vs pre post : list child_view) (v u w : child_view).

(** One call keeps, for every class counter, the nodes of its list. *)
Lemma findChildClass_lists h k key :
  heap_wf h → is_Some (classCounters h !! k) →
  ∃ r h', findChildClass k key h = Some (r, h') ∧ heap_wf h' ∧
    ∀ K cls l, classCounters h !! K = Some cls → child_list h (child cls) l →
      ∃ cls' l', classCounters h' !! K = Some cls' ∧
                 child_list h' (child cls') l' ∧ l' ≡ₚ l.
Proof.
  intros Hwf [cls Hk].
  destruct (findChildClass_wf _ _ _ key Hwf Hk)
    as (vs & h' & head' & Hvs & Hrun & Hwf' & Hk' & Hvs' & Ho & Hd & Hb & Hbrk & Hframe).
  exists (lfu_found key vs), h'. split_and!; [done|done|].
  intros K cls2 l HK Hl. rewrite Hk'.
  destruct (decide (k = K)) as [<-|Hne].
  - rewrite lookup_insert_eq. rewrite Hk in HK. injection HK as <-.
    exists (set_child cls head'), (cv_addr <$> lfu key vs).
    split_and!; [done|apply Hvs'|].
    rewrite (child_views_list _ _ _ _ Hvs Hl). by apply lfu_static.
  - rewrite lookup_insert_ne by done. exists cls2, l. split_and!; [done| |done].
    destruct Hwf as (_ & _ & Hdisj & _).
    apply (lseg_untouched h); [|exact Hl]. intros a Ha. apply Hframe. intros Ha'.
    by apply (Hdisj _ _ _ _ _ _ Hk HK Hne (proj1 Hvs) Hl a).
Qed.

(** C7. Any sequence of findChildClass calls, on any class counters of a
    well-formed heap and for any class pointers (hits and misses alike),
    returns and leaves every class counter with a child list that is a
    permutation of the one it had: no node is lost, none occurs twice,
    and the list still ends (in NULL), so no cycle has been made. *)
Theorem findChildClass_keeps_nodes h calls :
  heap_wf h →
  Forall (λ c, is_Some (classCounters h !! c.1)) calls →
  ∃ h', findChildClass_seq calls h = Some h' ∧ heap_wf h' ∧
    ∀ K cls l, classCounters h !! K = Some cls → child_list h (child cls) l →
      ∃ cls' l', classCounters h' !! K = Some cls' ∧
                 child_list h' (child cls') l' ∧ l' ≡ₚ l ∧ NoDup l'.
Proof.
  revert h. induction calls as [|[k key] calls IH]; intros h Hwf Hcalls.
  - exists h. split_and!; [done|done|]. intros K cls l HK Hl.
    exists cls, l. split_and!; try done. by eapply child_list_NoDup.
  - apply Forall_cons in Hcalls as [Hk Hcalls]. simpl in Hk.
    destruct (findChildClass_lists _ _ key Hwf Hk) as (r & h1 & Hrun & Hwf1 & Hstep).
    assert (Forall (λ c, is_Some (classCounters h1 !! c.1)) calls) as Hcalls1.
    { eapply Forall_impl; [exact Hcalls|]. intros [k2 key2] [cls2 Hk2]. simpl in *.
      destruct (proj1 (proj2 Hwf) _ _ Hk2) as (vs2 & _ & _ & _ & [Hl2 _] & _).
      destruct (Hstep _ _ _ Hk2 Hl2) as (cls2' & _ & Hk2' & _). by eexists. }
    destruct (IH _ Hwf1 Hcalls1) as (h' & Hrun' & Hwf' & Hrest).
    exists h'. simpl. rewrite Hrun. simpl. split_and!; [done|done|].
    intros K cls l HK Hl.
    destruct (Hstep _ _ _ HK Hl) as (cls1 & l1 & HK1 & Hl1 & Hp1).
    destruct (Hrest _ _ _ HK1 Hl1) as (cls' & l' & HK' & Hl' & Hp' & Hnd).
    exists cls', l'. split_and!; try done. by rewrite Hp'.
Qed.
End Seq.
(** * pushNewChildClass on a well-formed heap *)

Section PushWf.
Implicit Types (h : heap) (vs pre post : list child_view) (v u w : child_view).

Lemma class_wf_same h h' cls vs :
  objCounters h' = objCounters h → childCounters h' = childCounters h →
  objDatas h' = objDatas h → oopMapBlocks h' = oopMapBlocks h →
  class_wf h cls vs → class_wf h' cls vs.
Proof.
  intros Ho Hc Hd Hb (H1 & H2 & H3 & H4 & H5).
  split; [done|]. split; [by rewrite Ho|]. split; [by rewrite Hb|].
  split; [by apply (child_views_same h)|by rewrite Ho].
Qed.

(** Moving the break up, with nothing else changed. *)
Lemma heap_wf_same h h' :
  heap_wf h → (brk h ≤ brk h')%N →
  objCounters h' = objCounters h → childCounters h' = childCounters h →
  classCounters h' = classCounters h →
  objDatas h' = objDatas h → oopMapBlocks h' = oopMapBlocks h →
  heap_wf h'.
Proof.
  intros Hwf Hle Ho Hc Hk Hd Hb. pose proof Hwf as (Hbd & Hcls & _).
  apply (heap_wf_transfer h h' NULL); [done| |].
  - apply (bounded_transfer h); [done|done|..]; intros a Ha; left; congruence.
  - intros k cls Hkc. rewrite Hk in Hkc.
    destruct (Hcls _ _ Hkc) as (vs & Hcw). exists vs.
    split; [by apply (class_wf_same h)|].
    right. exists cls, vs. split_and!; [done|apply Hcw|by left|by left].
Qed.

Theorem pushNewChildClass_wf h k cls d od o :
  heap_wf h → classCounters h !! k = Some cls → objDatas h !! d = Some od →
  calloc_ok o = true → memalign_ok o = true →
  ∃ vs h' head',
    child_views h (child cls) vs ∧
    pushNewChildClass k d o h = Some (brk h, h') ∧
    heap_wf h' ∧
    classCounters h' = <[k := set_child cls head']> (classCounters h) ∧
    child_views h' head'
      (vs ++ [mkView (brk h) (brk h + 1)%N d (klassOop od) 0]) ∧
    objCounters h' = <[(brk h + 1)%N := zero_counter]> (objCounters h) ∧
    objDatas h' = objDatas h ∧ oopMapBlocks h' = oopMapBlocks h ∧
    brk h' = (brk h + 2)%N ∧
    (∀ a, a ∉ cv_addr <$> vs → a ≠ brk h →
          childCounters h' !! a = childCounters h !! a).
Proof.
  intros Hwf Hk Hd Hcal Hmem. pose proof Hwf as (Hbd & Hcls & Hdisj & Hoff).
  destruct (Hcls _ _ Hk) as (vs & Hlock & Hctr & Hofs & Hvs & Hcs).
  destruct (pushNewChildClass_spec _ _ _ _ _ _ _ Hbd Hk Hlock Hvs Hd Hcal Hmem)
    as (h' & head' & Hrun & Hk' & Hvs' & Ho & Hdm & Hb & Hbrk & Hframe).
  destruct (bounded_fresh _ Hbd) as (Ha0 & Hb0 & Hoa & Hob & Hca & Hcb & Hka & Hkb).
  exists vs, h', head'. split_and!; try done.
  assert (∀ x, is_Some (objCounters h !! x) → is_Some (objCounters h' !! x)) as Hmono.
  { intros x Hx. rewrite Ho. by apply lookup_insert_is_Some'; right. }
  apply (heap_wf_transfer h h' k); [done| |].
  - apply (bounded_transfer h); [done|lia|..]; intros a Ha.
    + rewrite Ho in Ha. apply lookup_insert_is_Some' in Ha as [<-|Ha]; [right; lia|by left].
    + destruct (decide (a = brk h)) as [->|Hne]; [right; lia|]. left.
      destruct (decide (a ∈ cv_addr <$> vs)) as [Hin|Hnin].
      * eapply lseg_allocated; [apply Hvs|done].
      * by rewrite <- Hframe.
    + left. rewrite Hk' in Ha. apply lookup_insert_is_Some' in Ha as [<-|Ha]; [by eexists|done].
  - intros k2 cls2 Hk2. rewrite Hk' in Hk2.
    destruct (decide (k = k2)) as [<-|Hne].
    + rewrite lookup_insert_eq in Hk2. injection Hk2 as <-.
      eexists. split.
      * split; [done|]. split; [by apply Hmono|]. split; [by rewrite Hb|].
        split; [exact Hvs'|].
        apply Forall_app. split.
        { eapply Forall_impl; [exact Hcs|]. intros v. apply Hmono. }
        constructor; [|constructor]. simpl. rewrite Ho, lookup_insert_eq. by eexists.
      * right. exists cls, vs. split_and!; [done|done| |by left].
        intros a Ha. rewrite fmap_app in Ha. apply elem_of_app in Ha as [Ha|Ha]; [by left|].
        right. simpl in Ha. apply list_elem_of_singleton in Ha as ->. done.
    + rewrite lookup_insert_ne in Hk2 by done.
      destruct (Hcls _ _ Hk2) as (vs2 & Hlock2 & Hctr2 & Hofs2 & Hvs2 & Hcs2).
      exists vs2. split.
      * split; [done|]. split; [by apply Hmono|]. split; [by rewrite Hb|].
        split; [|eapply Forall_impl; [exact Hcs2|]; intros v; apply Hmono].
        apply (child_views_untouched h); [done| |done]. intros a Ha.
        apply Hframe.
        -- intros Ha'. by apply (Hdisj _ _ _ _ _ _ Hk Hk2 Hne (proj1 Hvs) (proj1 Hvs2) a).
        -- intros ->. destruct (lseg_allocated _ _ _ _ _ (proj1 Hvs2) Ha). congruence.
      * right. exists cls2, vs2. split_and!; [done|done|by left|by left].
Qed.

(** An allocation failure leaves the lists as they are. *)
Lemma pushNewChildClass_fails h k d o :
  heap_wf h → calloc_ok o && memalign_ok o = false →
  ∃ h', pushNewChildClass k d o h = Some (NULL, h') ∧ heap_wf h' ∧
    objCounters h' = objCounters h ∧ childCounters h' = childCounters h ∧
    classCounters h' = classCounters h ∧ objDatas h' = objDatas h ∧
    oopMapBlocks h' = oopMapBlocks h.
Proof.
  intros Hwf Ho. unfold pushNewChildClass.
  destruct (calloc_ok o); simpl in *.
  - rewrite Ho. simpl.
    destruct (bounded_fresh _ (proj1 Hwf)) as (_ & _ & _ & _ & Hca & _).
    eexists. split; [done|]. heap_norm.
    rewrite delete_insert_eq, delete_id by done.
    split_and!; try done. eapply heap_wf_same; try done. simpl. lia.
  - exists h. by split_and!.
Qed.
End PushWf.
(** * pushNewClass *)

Section PushClass.
Implicit Types (h : heap) (s : TSnapShotContainer).

Lemma class_wf_grow h h' cls vs :
  (∀ x, is_Some (objCounters h !! x) → is_Some (objCounters h' !! x)) →
  childCounters h' = childCounters h →
  objDatas h' = objDatas h → oopMapBlocks h' = oopMapBlocks h →
  class_wf h cls vs → class_wf h' cls vs.
Proof.
  intros Ho Hc Hd Hb (H1 & H2 & H3 & H4 & H5).
  split; [done|]. split; [by apply Ho|]. split; [by rewrite Hb|].
  split; [by apply (child_views_same h)|].
  eapply Forall_impl; [exact H5|]. intros v. apply Ho.
Qed.

Theorem pushNewClass_ok h s d o :
  heap_wf h → oracle_ok o = true →
  ∃ h',
    pushNewClass d o (h, s) =
      (brk h, (h', mkContainer (<[d := brk h]> (counterMap s)) (_header s) (isCleared s))) ∧
    heap_wf h' ∧
    classCounters h' =
      <[brk h := mkClassCounter (brk h + 1)%N NULL 0 NULL (-1)]> (classCounters h) ∧
    objCounters h' = <[(brk h + 1)%N := zero_counter]> (objCounters h) ∧
    childCounters h' = childCounters h ∧ objDatas h' = objDatas h ∧
    oopMapBlocks h' = oopMapBlocks h ∧ brk h' = (brk h + 2)%N.
Proof.
  intros Hwf Ho. unfold oracle_ok in Ho.
  apply andb_true_iff in Ho as [[Hc Hm]%andb_true_iff Hi].
  pose proof Hwf as (Hbd & Hcls & _).
  destruct (bounded_fresh _ Hbd) as (Ha0 & Hb0 & Hoa & Hob & Hca & Hcb & Hka & Hkb).
  unfold pushNewClass. rewrite Hc, Hm, Hi. heap_norm.
  rewrite !insert_insert_eq.
  eexists. split; [done|]. heap_norm. split_and!; try done; [|lia].
  match goal with |- heap_wf ?x => set (h' := x) end.
  assert (∀ x, is_Some (objCounters h !! x) → is_Some (objCounters h' !! x)) as Hmono.
  { intros x Hx. simpl. by apply lookup_insert_is_Some'; right. }
  apply (heap_wf_transfer h h' NULL); [done| |].
  - apply (bounded_transfer h); [done|simpl; lia|..]; simpl; intros a Ha.
    + apply lookup_insert_is_Some' in Ha as [<-|Ha]; [right; lia|by left].
    + by left.
    + apply lookup_insert_is_Some' in Ha as [<-|Ha]; [right; lia|by left].
  - intros k cls Hk. simpl in Hk.
    destruct (decide (brk h = k)) as [<-|Hne].
    + rewrite lookup_insert_eq in Hk. injection Hk as <-.
      exists []. split; [|by left].
      split; [done|]. split; [simpl; rewrite lookup_insert_eq; by eexists|].
      split; [by left|]. split; [|constructor]. split; [done|constructor].
    + rewrite lookup_insert_ne in Hk by done.
      destruct (Hcls _ _ Hk) as (vs & Hcw). exists vs.
      split; [by apply (class_wf_grow h)|].
      right. exists cls, vs. split_and!; [done|apply Hcw|by left|by left].
Qed.

Theorem pushNewClass_fails h s d o :
  heap_wf h → oracle_ok o = false →
  ∃ h', pushNewClass d o (h, s) = (NULL, (h', s)) ∧ heap_wf h' ∧
    objCounters h' = objCounters h ∧ childCounters h' = childCounters h ∧
    classCounters h' = classCounters h ∧ objDatas h' = objDatas h ∧
    oopMapBlocks h' = oopMapBlocks h.
Proof.
  intros Hwf Ho. unfold oracle_ok in Ho. unfold pushNewClass.
  destruct (bounded_fresh _ (proj1 Hwf)) as (Ha0 & Hb0 & Hoa & Hob & Hca & Hcb & Hka & Hkb).
  destruct (calloc_ok o); simpl in *; [|exists h; by split_and!].
  destruct (memalign_ok o); simpl in *.
  - rewrite Ho. heap_norm. eexists. split; [done|]. heap_norm.
    rewrite !insert_insert_eq, !delete_insert_eq, !delete_id by done.
    split_and!; try done. eapply heap_wf_same; try done. simpl. lia.
  - heap_norm. eexists. split; [done|]. heap_norm.
    rewrite !insert_insert_eq, !delete_insert_eq, !delete_id by done.
    split_and!; try done. eapply heap_wf_same; try done. simpl. lia.
Qed.
End PushClass.
(** * Clearing the counters of a class *)

Section Clear.
Implicit Types (h : heap) (vs : list child_view) (s : TSnapShotContainer).

Lemma clearObjectCounter_Some h a :
  is_Some (objCounters h !! a) →
  clearObjectCounter a h =
    Some (with_objCounters h (<[a := zero_counter]> (objCounters h))).
Proof. intros [c Hc]. unfold clearObjectCounter. by rewrite Hc. Qed.

Lemma clearChildren_spec vs : ∀ h p fuel,
  child_views h p vs →
  Forall (λ v, is_Some (objCounters h !! cv_counter v)) vs →
  length vs ≤ fuel →
  ∃ h', clearChildren fuel p h = Some h' ∧ only_counters h h' ∧
    ∀ x, objCounters h' !! x =
         if decide (x ∈ cv_counter <$> vs) then Some zero_counter
         else objCounters h !! x.
Proof.
  induction vs as [|v vs IH]; intros h p fuel Hvs Hcs Hfuel.
  - destruct Hvs as [Hl _]. unfold child_list in Hl. simpl in Hl. subst p.
    exists h. split; [by destruct fuel|]. split; [done|].
    intros x. rewrite decide_False; [done|]. by inversion 1.
  - destruct fuel as [|fuel]; [simpl in Hfuel; lia|].
    apply child_views_cons in Hvs as (-> & Hn & Hnv & c & Hc & Hvs).
    destruct Hnv as (c' & d & Hc' & Hctr & _). rewrite Hc in Hc'. injection Hc' as <-.
    apply Forall_cons in Hcs as [Hcv Hcs].
    simpl. rewrite decide_False by done. rewrite Hc. heap_norm.
    rewrite Hctr, clearObjectCounter_Some by done. heap_norm. rewrite Hc. heap_norm.
    set (h1 := mkHeap _ _ _ _ _ _).
    destruct (IH h1 (next c) fuel) as (h' & Hrun & (E1 & E2 & E3 & E4 & E5) & Hm).
    { by apply (child_views_same h). }
    { eapply Forall_impl; [exact Hcs|]. intros w Hw. simpl.
      by apply lookup_insert_is_Some'; right. }
    { simpl in Hfuel. lia. }
    exists h'. split; [done|]. split; [by split_and!|].
    intros x. rewrite Hm. simpl.
    destruct (decide (x = cv_counter v)) as [->|Hne].
    + rewrite lookup_insert_eq. rewrite (decide_True (P := _ ∈ _ :: _)) by left.
      by case_decide.
    + rewrite lookup_insert_ne by done.
      destruct (decide (x ∈ cv_counter <$> vs)) as [Hin|Hnin].
      * by rewrite decide_True by by right.
      * rewrite decide_False; [done|]. by intros [?|?]%elem_of_cons.
Qed.

Lemma clearChildClassCounters_spec h k cls vs :
  classCounters h !! k = Some cls → class_wf h cls vs →
  ∃ h', clearChildClassCounters k h = Some h' ∧ only_counters h h' ∧
    ∀ x, objCounters h' !! x =
         if decide (x = counter cls ∨ x ∈ cv_counter <$> vs) then Some zero_counter
         else objCounters h !! x.
Proof.
  intros Hk (_ & Hctr & _ & Hvs & Hcs).
  unfold clearChildClassCounters. rewrite Hk. heap_norm.
  destruct (clearChildren_spec vs h (child cls) (list_fuel h) Hvs Hcs)
    as (h1 & Hrun & (E1 & E2 & E3 & E4 & E5) & Hm).
  { pose proof (child_list_fuel _ _ _ (proj1 Hvs)) as Hf.
    rewrite length_fmap in Hf. lia. }
  rewrite Hrun. heap_norm. rewrite E2, Hk. heap_norm.
  rewrite clearObjectCounter_Some.
  2:{ rewrite Hm. case_decide; [by eexists|done]. }
  eexists. split; [done|]. split; [by split_and!|].
  intros x. simpl.
  destruct (decide (x = counter cls)) as [->|Hne].
  - rewrite lookup_insert_eq. rewrite decide_True by by left. done.
  - rewrite lookup_insert_ne by done. rewrite Hm.
    destruct (decide (x ∈ cv_counter <$> vs)) as [Hin|Hnin].
    + by rewrite decide_True by by right.
    + rewrite decide_False; [done|]. by intros [?|?].
Qed.
End Clear.
(** * The frame of clear *)

Section ClearFrame.
Implicit Types (h : heap) (vs : list child_view) (s : TSnapShotContainer).

Lemma reset_cache_idemp c : reset_cache (reset_cache c) = reset_cache c.
Proof. done. Qed.

Lemma clear_frame_refl h : clear_frame h h.
Proof.
  unfold clear_frame. split_and!; try done; try (intros; by left).
Qed.

Lemma clear_frame_trans h1 h2 h3 :
  clear_frame h1 h2 → clear_frame h2 h3 → clear_frame h1 h3.
Proof.
  intros (A1 & A2 & A3 & A4 & A5 & A6 & A7) (B1 & B2 & B3 & B4 & B5 & B6 & B7).
  split_and!; [congruence|congruence|congruence|by etrans|..].
  - intros a. destruct (A5 a) as [Ea|[Sa Ea]], (B5 a) as [Eb|[Sb Eb]].
    + left. congruence.
    + right. split; [by rewrite <- Ea|done].
    + right. split; [done|congruence].
    + right. done.
  - intros k. destruct (A6 k) as [Ea|(c & Hc & Ea)], (B6 k) as [Eb|(c' & Hc' & Eb)].
    + left. congruence.
    + right. exists c'. split; [congruence|done].
    + right. exists c. split; [done|congruence].
    + right. exists c. split; [done|]. rewrite Ea in Hc'. injection Hc' as <-. done.
  - intros b Hb Hnb. destruct (decide (b ∈ oopMapBlocks h2)) as [Hin|Hnin].
    + destruct (B7 b Hin Hnb) as (Hn & k & c & Hc & Ho & Hc3). split; [done|].
      destruct (A6 k) as [Ea|(c0 & Hc0 & Ea)].
      * exists k, c. split_and!; [congruence|done|done].
      * rewrite Ea in Hc. injection Hc as <-. simpl in Ho. congruence.
    + destruct (A7 b Hb Hnin) as (Hn & k & c & Hc & Ho & Hc2). split; [done|].
      exists k, c. split_and!; [done|done|].
      destruct (B6 k) as [Eb|(c' & Hc' & Eb)]; [congruence|].
      rewrite Hc2 in Hc'. injection Hc' as <-. done.
Qed.

Lemma clear_frame_class h h' k cls :
  clear_frame h h' → classCounters h !! k = Some cls →
  ∃ cls', classCounters h' !! k = Some cls' ∧
          (cls' = cls ∨ cls' = reset_cache cls).
Proof.
  intros (_ & _ & _ & _ & _ & A6 & _) Hk.
  destruct (A6 k) as [Ea|(c & Hc & Ea)].
  - exists cls. split; [congruence|by left].
  - exists (reset_cache cls). rewrite Hk in Hc. injection Hc as <-. split; [done|by right].
Qed.

Lemma clear_frame_zero h h' a :
  clear_frame h h' → objCounters h !! a = Some zero_counter →
  objCounters h' !! a = Some zero_counter.
Proof.
  intros (_ & _ & _ & _ & A5 & _) Ha. destruct (A5 a) as [E|[_ E]]; congruence.
Qed.

Lemma clear_frame_list h h' p l :
  clear_frame h h' → child_list h p l ↔ child_list h' p l.
Proof.
  intros (A1 & _). split; apply lseg_untouched; intros a _; by rewrite A1.
Qed.

(** Counters that clear has zeroed stay so in the rest of the loop. *)
Lemma class_zero_frame h h' k :
  clear_frame h h' → class_zero h k → class_zero h' k.
Proof.
  intros Hf (cls & Hk & Hz & Ho & Hn & Hch).
  destruct (clear_frame_class _ _ _ _ Hf Hk) as (cls' & Hk' & Hcls').
  exists cls'. split; [done|].
  assert (counter cls' = counter cls ∧ child cls' = child cls ∧
          offsets cls' = NULL ∧ offsetCount cls' = (-1)%Z) as (E1 & E2 & E3 & E4).
  { by destruct Hcls' as [->| ->]. }
  rewrite E1, E2. split_and!; [by eapply clear_frame_zero|done|done|].
  intros l a Hl Ha. apply (clear_frame_list _ _ _ _ Hf) in Hl.
  destruct (Hch _ _ Hl Ha) as (c & Hc & Hcz). exists c.
  split; [by rewrite (proj1 Hf)|by eapply clear_frame_zero].
Qed.
End ClearFrame.
(** * One round of clear *)

Section ClearLoop.
Implicit Types (h : heap) (vs : list child_view) (s : TSnapShotContainer).

(** One round of the loop of clear. *)
Lemma clearLoop_step h d k cls :
  heap_wf h → k ≠ NULL → classCounters h !! k = Some cls →
  ∃ h', (∀ rest, clearLoop ((d, k) :: rest) h = clearLoop rest h') ∧
        clear_frame h h' ∧ heap_wf h' ∧ class_zero h' k.
Proof.
  intros Hwf Hn Hk. pose proof Hwf as (Hbd & Hcls & Hdisj & Hoff).
  destruct (Hcls _ _ Hk) as (vs & Hcw).
  pose proof Hcw as (Hlock & Hctr & Hofs & Hvs & Hcs).
  set (bl := if decide (offsets cls = NULL) then oopMapBlocks h
             else oopMapBlocks h ∖ {[offsets cls]}).
  set (h2 := with_classCounters (with_oopMapBlocks h bl)
               (<[k := reset_cache cls]> (classCounters h))).
  assert (class_wf h2 (reset_cache cls) vs) as Hcw2.
  { split; [done|]. split; [done|]. split; [by left|]. split; [|done].
    by apply (child_views_same h). }
  destruct (clearChildClassCounters_spec h2 k (reset_cache cls) vs)
    as (h' & Hrun & (E1 & E2 & E3 & E4 & E5) & Hm);
    [apply lookup_insert_eq|done|].
  assert (free_block (offsets cls) h = Some (with_oopMapBlocks h bl)) as Hfree.
  { unfold free_block. subst bl.
    destruct (decide (offsets cls = NULL)) as [E|E]; [by destruct h|].
    destruct Hofs as [?|Hin]; [done|]. by rewrite decide_True by done. }
  assert (reset_offsets k (with_oopMapBlocks h bl) = Some h2) as Hreset.
  { unfold reset_offsets. heap_norm. by rewrite Hk. }
  exists h'. split.
  { intros rest. cbn [clearLoop]. rewrite decide_False by done. rewrite Hk.
    cbn [mbind option_bind]. rewrite Hfree. cbn [mbind option_bind].
    rewrite Hreset. cbn [mbind option_bind]. by rewrite Hrun. }
  assert (∀ x, objCounters h' !! x = objCounters h !! x ∨
               (is_Some (objCounters h !! x) ∧ objCounters h' !! x = Some zero_counter))
    as Hcounters.
  { intros x. rewrite Hm. simpl. case_decide as Hx; [|by left]. right. split; [|done].
    destruct Hx as [->|Hx]; [done|].
    apply list_elem_of_fmap in Hx as (v & -> & Hv).
    by apply (proj1 (Forall_forall _ _) Hcs). }
  assert (oopMapBlocks h' ⊆ oopMapBlocks h) as Hsub.
  { rewrite E4. simpl. subst bl. case_decide; [done|].
    intros x Hx. by apply elem_of_difference in Hx as [? _]. }
  assert (clear_frame h h') as Hframe.
  { split_and!; try done.
    - intros k2. rewrite E2. simpl. destruct (decide (k = k2)) as [<-|Hne].
      + right. exists cls. by rewrite lookup_insert_eq.
      + left. by rewrite lookup_insert_ne.
    - intros b Hb Hnb. rewrite E4 in Hnb. simpl in Hnb. subst bl.
      case_decide as Hc; [done|].
      assert (b = offsets cls) as ->.
      { destruct (decide (b = offsets cls)) as [E|E]; [done|]. exfalso. apply Hnb.
        apply elem_of_difference. split; [done|]. by intros ?%elem_of_singleton. }
      split; [done|]. exists k, cls. rewrite E2. simpl.
      by rewrite lookup_insert_eq. }
  split; [done|]. split.
  - apply (heap_wf_transfer h h' NULL); [done| |].
    + apply (bounded_transfer h); [done|rewrite E5; simpl; lia|..]; intros a Ha; left.
      * destruct (Hcounters a) as [Ea|[Sa _]]; [by rewrite <- Ea|done].
      * by rewrite E1 in Ha.
      * rewrite E2 in Ha. simpl in Ha.
        apply lookup_insert_is_Some' in Ha as [<-|Ha]; [by eexists|done].
    + intros k2 cls2 Hk2. rewrite E2 in Hk2. simpl in Hk2.
      assert (∀ x, is_Some (objCounters h !! x) → is_Some (objCounters h' !! x)) as Hmono.
      { intros x Hx. destruct (Hcounters x) as [Ea|[_ Ea]]; rewrite Ea; [done|by eexists]. }
      destruct (decide (k = k2)) as [<-|Hne].
      * rewrite lookup_insert_eq in Hk2. injection Hk2 as <-.
        exists vs. split.
        -- split; [done|]. split; [by apply Hmono|]. split; [by left|].
           split; [by apply (child_views_same h)|].
           eapply Forall_impl; [exact Hcs|]. intros v. apply Hmono.
        -- right. exists cls, vs. split_and!; [done|done|by left|by right].
      * rewrite lookup_insert_ne in Hk2 by done.
        destruct (Hcls _ _ Hk2) as (vs2 & Hlock2 & Hctr2 & Hofs2 & Hvs2 & Hcs2).
        exists vs2. split.
        -- split; [done|]. split; [by apply Hmono|]. split.
           { destruct Hofs2 as [?|Hin]; [by left|]. right. rewrite E4. simpl. subst bl.
             case_decide as Hc; [done|]. apply elem_of_difference. split; [done|].
             intros Eo%elem_of_singleton.
             apply Hne, eq_sym, (Hoff _ _ _ _ Hk2 Hk Eo). congruence. }
           split; [by apply (child_views_same h)|].
           eapply Forall_impl; [exact Hcs2|]. intros v. apply Hmono.
        -- right. exists cls2, vs2. split_and!; [done|done|by left|by left].
  - exists (reset_cache cls). rewrite E2. simpl. rewrite lookup_insert_eq.
    split; [done|]. split; [|split; [done|split; [done|]]].
    + rewrite Hm. by rewrite decide_True by by left.
    + intros l a Hl Ha.
      assert (child_views h' (child cls) vs) as Hvs' by by apply (child_views_same h).
      rewrite (child_views_list _ _ _ _ Hvs' Hl) in Ha.
      apply list_elem_of_fmap in Ha as (v & -> & Hv).
      destruct Hvs' as [_ Hnv]. rewrite Forall_forall in Hnv.
      destruct (Hnv _ Hv) as (c & _ & Hc & Hcc & _).
      exists c. split; [done|]. rewrite Hm, Hcc.
      rewrite decide_True; [done|]. right. by apply list_elem_of_fmap_2.
Qed.
End ClearLoop.
(** * clear *)

Section ClearSpec.
Implicit Types (h : heap) (vs : list child_view) (s : TSnapShotContainer).

Lemma clear_frame_allocated h h' k :
  clear_frame h h' → is_Some (classCounters h !! k) → is_Some (classCounters h' !! k).
Proof.
  intros Hf [cls Hk]. destruct (clear_frame_class _ _ _ _ Hf Hk) as (cls' & Hk' & _).
  by eexists.
Qed.

Lemma clearLoop_spec entries : ∀ h,
  heap_wf h →
  (∀ d k, (d, k) ∈ entries → k ≠ NULL → is_Some (classCounters h !! k)) →
  ∃ h', clearLoop entries h = Some h' ∧ clear_frame h h' ∧ heap_wf h' ∧
        ∀ d k, (d, k) ∈ entries → k ≠ NULL → class_zero h' k.
Proof.
  induction entries as [|[d k] entries IH]; intros h Hwf Hall.
  - exists h. split_and!; [done|apply clear_frame_refl|done|]. intros d k Hin.
    by inversion Hin.
  - destruct (decide (k = NULL)) as [->|Hn].
    + destruct (IH h Hwf) as (h' & Hrun & Hf & Hwf' & Hz).
      { intros d' k' Hin. apply (Hall d'). by right. }
      exists h'. split_and!; try done.
      intros d' k' [[= -> ->]|Hin]%elem_of_cons Hk'; [done|by apply (Hz d')].
    + destruct (Hall d k (list_elem_of_here _ _) Hn) as [cls Hk].
      destruct (clearLoop_step h d k cls Hwf Hn Hk) as (h1 & Hstep & Hf1 & Hwf1 & Hz1).
      destruct (IH h1 Hwf1) as (h' & Hrun & Hf & Hwf' & Hz).
      { intros d' k' Hin Hk'. eapply clear_frame_allocated; [done|].
        apply (Hall d'); [by right|done]. }
      exists h'. split_and!; [by rewrite Hstep|by eapply clear_frame_trans|done|].
      intros d' k' [[= -> ->]|Hin]%elem_of_cons Hk'; [|by apply (Hz d')].
      by eapply class_zero_frame.
Qed.

(** clear on a well-formed container: it returns, zeroes every counter
    and changes nothing outside the frame of clear. *)
Theorem clear_spec h s isForce :
  container_wf h s →
  negb isForce && isCleared s = false →
  ∃ h', clear isForce (h, s) =
          Some (h', mkContainer (counterMap s) (_header s) true) ∧
        clear_frame h h' ∧ heap_wf h' ∧
        all_zero h' (mkContainer (counterMap s) (_header s) true).
Proof.
  intros [Hwf Hmap] Hgo. unfold clear. rewrite Hgo.
  destruct (clearLoop_spec (map_to_list (counterMap s)) h Hwf)
    as (h' & Hrun & Hf & Hwf' & Hz).
  { intros d k Hin. apply (Hmap d). by apply elem_of_map_to_list. }
  exists h'. rewrite Hrun. split_and!; try done.
  intros d k Hd Hk. apply (Hz d); [|done]. by apply elem_of_map_to_list.
Qed.
End ClearSpec.
(** * Corollaries for chains of calls *)

Section Corollaries.
Implicit Types (h : heap) (s : TSnapShotContainer).

Lemma heap_wf_no_classes h :
  bounded h → classCounters h = ∅ → heap_wf h.
Proof.
  intros Hb He. split; [done|]. rewrite He.
  split_and!; intros *; by rewrite lookup_empty.
Qed.

Lemma pushNewClass_heap_wf h s d o :
  heap_wf h → heap_wf (pushNewClass d o (h, s)).2.1.
Proof.
  intros Hwf. destruct (oracle_ok o) eqn:Ho.
  - destruct (pushNewClass_ok h s d o Hwf Ho) as (h' & -> & Hwf' & _). done.
  - destruct (pushNewClass_fails h s d o Hwf Ho) as (h' & -> & Hwf' & _). done.
Qed.

Lemma pushNewClass_container_wf h s d o :
  container_wf h s →
  container_wf (pushNewClass d o (h, s)).2.1 (pushNewClass d o (h, s)).2.2.
Proof.
  intros [Hwf Hmap]. destruct (oracle_ok o) eqn:Ho.
  - destruct (pushNewClass_ok h s d o Hwf Ho) as (h' & -> & Hwf' & Hk & _).
    split; [done|]. simpl. intros d' k Hd' Hn. rewrite Hk.
    apply lookup_insert_is_Some'.
    destruct (decide (d = d')) as [<-|Hne].
    + rewrite lookup_insert_eq in Hd'. left. congruence.
    + rewrite lookup_insert_ne in Hd' by done. right. by apply (Hmap d').
  - destruct (pushNewClass_fails h s d o Hwf Ho) as (h' & -> & Hwf' & _ & _ & Hk & _).
    split; [done|]. simpl. intros d' k Hd' Hn. rewrite Hk. by apply (Hmap d').
Qed.

Lemma pushNewChildClass_returns h k d o :
  heap_wf h → is_Some (classCounters h !! k) → is_Some (objDatas h !! d) →
  ∃ r h', pushNewChildClass k d o h = Some (r, h') ∧ heap_wf h' ∧
          ∀ k', is_Some (classCounters h !! k') → is_Some (classCounters h' !! k').
Proof.
  intros Hwf [cls Hk] [od Hd].
  destruct (calloc_ok o && memalign_ok o) eqn:Ho.
  - apply andb_true_iff in Ho as [Hc Hm].
    destruct (pushNewChildClass_wf h k cls d od o Hwf Hk Hd Hc Hm)
      as (vs & h' & head' & _ & Hrun & Hwf' & Hk' & _).
    exists (brk h), h'. split_and!; [done|done|].
    intros k' Hs. rewrite Hk'. apply lookup_insert_is_Some'. by right.
  - destruct (pushNewChildClass_fails h k d o Hwf Ho) as (h' & Hrun & Hwf' & _ & _ & Hk' & _).
    exists NULL, h'. split_and!; [done|done|]. intros k'. by rewrite Hk'.
Qed.

Lemma findChildClass_returns h k key :
  heap_wf h → is_Some (classCounters h !! k) →
  ∃ r h', findChildClass k key h = Some (r, h') ∧ heap_wf h' ∧
          ∀ k', is_Some (classCounters h !! k') → is_Some (classCounters h' !! k').
Proof.
  intros Hwf [cls Hk].
  destruct (findChildClass_wf h k cls key Hwf Hk)
    as (vs & h' & head' & _ & Hrun & Hwf' & Hk' & _).
  exists (lfu_found key vs), h'. split_and!; [done|done|].
  intros k' Hs. rewrite Hk'. apply lookup_insert_is_Some'. by right.
Qed.

Lemma demo_heap_wf : heap_wf demo_heap.
Proof.
  apply heap_wf_no_classes; [|done].
  split; [done|]. split_and!; intros a [x Hx];
    unfold demo_heap in Hx; cbn [objCounters childCounters classCounters] in Hx.
  - apply lookup_singleton_Some in Hx as [<- _]. done.
  - by rewrite lookup_empty in Hx.
  - by rewrite lookup_empty in Hx.
Qed.

Lemma demo_container_wf : container_wf demo_heap demo_container.
Proof. split; [apply demo_heap_wf|]. intros d k Hd.
  unfold demo_container, TSnapShotContainer_ctor in Hd. cbn [counterMap] in Hd.
  by rewrite lookup_empty in Hd.
Qed.
Lemma heap_wf_counters h h' :
  heap_wf h → only_counters h h' →
  (∀ x, is_Some (objCounters h !! x) ↔ is_Some (objCounters h' !! x)) →
  heap_wf h'.
Proof.
  intros Hwf (E1 & E2 & E3 & E4 & E5) Hdom. pose proof Hwf as (Hbd & Hcls & _).
  apply (heap_wf_transfer h h' NULL); [done| |].
  - apply (bounded_transfer h); [done|lia|..]; intros a Ha; left;
      [by apply Hdom|congruence|congruence].
  - intros k cls Hk. rewrite E2 in Hk. destruct (Hcls _ _ Hk) as (vs & Hcw).
    exists vs. split; [|right; exists cls, vs; split_and!;
                        [done|apply Hcw|by left|by left]].
    apply (class_wf_grow h); try done. intros x. apply Hdom.
Qed.

Lemma addInc_spec h c o x y :
  objCounters h !! c = Some x → objCounters h !! o = Some y →
  ∃ h', addInc c o h = Some h' ∧ only_counters h h' ∧
    objCounters h' = <[c := mkObjectCounter (wrap64 (count x + count y))
                              (wrap64 (total_size x + total_size y))]> (objCounters h).
Proof.
  intros Hc Ho. unfold addInc. rewrite Hc, Ho. heap_norm.
  assert (∃ o1, <[c := mkObjectCounter (wrap64 (count x + count y)) (total_size x)]>
                  (objCounters h) !! o = Some o1 ∧ total_size o1 = total_size y)
    as (o1 & Ho1 & Hts).
  { destruct (decide (c = o)) as [<-|Hne].
    - rewrite lookup_insert_eq. eexists. split; [done|]. simpl. congruence.
    - rewrite lookup_insert_ne by done. eauto. }
  rewrite Ho1. heap_norm. rewrite Hts. eexists. split; [done|]. split; [done|]. simpl.
  by rewrite insert_insert_eq.
Qed.

Lemma addInc_heap_wf h c o h' :
  heap_wf h → addInc c o h = Some h' → heap_wf h'.
Proof.
  intros Hwf Hrun.
  destruct (objCounters h !! c) as [x|] eqn:Hc; [|by unfold addInc in Hrun; rewrite Hc in Hrun].
  destruct (objCounters h !! o) as [y|] eqn:Ho;
    [|by unfold addInc in Hrun; rewrite Hc, Ho in Hrun].
  destruct (addInc_spec _ _ _ _ _ Hc Ho) as (h2 & Hrun2 & Hoc & Hm).
  rewrite Hrun in Hrun2. injection Hrun2 as <-.
  apply (heap_wf_counters h); [done|done|].
  intros z. rewrite Hm. rewrite lookup_insert_is_Some'. split; [by right|].
  intros [<-|?]; [by eexists|done].
Qed.

Lemma demo_push_wf d h :
  heap_wf h → is_Some (classCounters h !! 64%N) → is_Some (objDatas h !! d) →
  heap_wf (demo_push d h) ∧ is_Some (classCounters (demo_push d h) !! 64%N) ∧
  objDatas (demo_push d h) = objDatas h.
Proof.
  intros Hwf [cls Hk] [od Hd]. unfold demo_push.
  destruct (pushNewChildClass_wf h 64 cls d od all_ok Hwf Hk Hd eq_refl eq_refl)
    as (vs & h' & head' & _ & -> & Hwf' & Hk' & _ & _ & Hod & _).
  simpl. split_and!; [done| |done]. rewrite Hk', lookup_insert_eq. by eexists.
Qed.

Lemma demo_count_wf c h : heap_wf h → heap_wf (demo_count c h).
Proof.
  intros Hwf. unfold demo_count. destruct (addInc c 50 h) as [h'|] eqn:E; [|done].
  by apply (addInc_heap_wf _ _ _ _ Hwf E).
Qed.

Lemma demo_count_classes c h : classCounters (demo_count c h) = classCounters h.
Proof.
  unfold demo_count, addInc.
  destruct (objCounters h !! c); [|done]. simpl.
  destruct (objCounters h !! 50%N); [|done]. simpl.
  by destruct (<[c:=_]> (objCounters h) !! 50%N).
Qed.

Lemma demo_children_wf :
  heap_wf demo_children ∧ is_Some (classCounters demo_children !! 64%N).
Proof.
  pose proof (pushNewClass_heap_wf _ demo_container 100%N all_ok demo_heap_wf) as Hwf.
  fold demo_class in Hwf.
  assert (is_Some (classCounters demo_class.1 !! 64%N)) as Hk by (vm_compute; by eexists).
  assert (objDatas demo_class.1 = objDatas demo_heap) as Hd.
  { destruct (pushNewClass_ok demo_heap demo_container 100 all_ok demo_heap_wf eq_refl)
      as (h' & E & _ & _ & _ & _ & Hd & _).
    unfold demo_class. by rewrite E. }
  destruct (demo_push_wf 100 _ Hwf Hk) as (Hwf1 & Hk1 & Hd1);
    [rewrite Hd; vm_compute; by eexists|].
  destruct (demo_push_wf 101 _ Hwf1 Hk1) as (Hwf2 & Hk2 & Hd2);
    [rewrite Hd1, Hd; vm_compute; by eexists|].
  destruct (demo_push_wf 102 _ Hwf2 Hk2) as (Hwf3 & Hk3 & Hd3);
    [rewrite Hd2, Hd1, Hd; vm_compute; by eexists|].
  done.
Qed.

Lemma demo_state_wf : container_wf demo_state.1 demo_state.2.
Proof.
  destruct demo_children_wf as [Hwf Hk]. unfold demo_state. split.
  - cbn [fst]. by do 4 apply demo_count_wf.
  - cbn [fst snd]. intros d k Hd Hn. rewrite !demo_count_classes.
    assert (k = 64%N) as ->; [|done].
    revert Hd. unfold demo_class.
    destruct (pushNewClass_ok demo_heap demo_container 100 all_ok demo_heap_wf eq_refl)
      as (h' & -> & _). cbn [snd setIsCleared counterMap].
    unfold demo_container, TSnapShotContainer_ctor. cbn [counterMap].
    intros Hd. apply lookup_insert_Some in Hd as [[_ <-]|[_ Hd]]; [done|].
    by rewrite lookup_empty in Hd.
Qed.
End Corollaries.

(** * clear: zeroing, idempotence and frame *)

Section ClearClaims.
Implicit Types (h : heap) (s : TSnapShotContainer).

(** C4. After clear(true) on a well-formed container, clear has returned
    and every class counter in the class map has its counter at (0, 0),
    the counter of every node of its child list at (0, 0), a null offsets
    pointer and offsetCount -1 (the predicate [all_zero]). *)
Theorem clear_forced_zeroes_all h s :
  container_wf h s →
  ∃ h' s', clear true (h, s) = Some (h', s') ∧
           counterMap s' = counterMap s ∧ all_zero h' s'.
Proof.
  intros Hwf. destruct (clear_spec h s true Hwf eq_refl) as (h' & Hrun & _ & _ & Hz).
  eexists _, _. split; [exact Hrun|]. split; [done|exact Hz].
Qed.

Lemma clear_forced_zeroes_all_witness :
  container_wf demo_state.1 demo_state.2 ∧
  ∃ h' s', clear true (demo_state.1, demo_state.2) = Some (h', s') ∧
           counterMap s' = counterMap demo_state.2 ∧ all_zero h' s'.
Proof.
  split; [apply demo_state_wf|].
  apply (clear_forced_zeroes_all demo_state.1 demo_state.2), demo_state_wf.
Defined.

(** C9. A non-forced clear of a container whose is-cleared flag is set
    changes nothing; and after any non-forced clear of a well-formed
    container, a second one in succession changes nothing. *)
Theorem clear_nonforced_idempotent h s :
  (isCleared s = true → clear false (h, s) = Some (h, s)) ∧
  (container_wf h s →
   ∃ hs', clear false (h, s) = Some hs' ∧ clear false hs' = Some hs').
Proof.
  assert (isCleared s = true → clear false (h, s) = Some (h, s)) as Hnoop.
  { intros Hc. unfold clear. by rewrite Hc. }
  split; [done|]. intros Hwf.
  destruct (isCleared s) eqn:Hc.
  - exists (h, s). by rewrite Hnoop.
  - destruct (clear_spec h s false Hwf) as (h' & Hrun & _); [by rewrite Hc|].
    eexists. split; [exact Hrun|]. done.
Qed.

Lemma clear_nonforced_idempotent_witness :
  container_wf demo_state.1 demo_state.2 ∧
  ∃ hs', clear false (demo_state.1, demo_state.2) = Some hs' ∧
         clear false hs' = Some hs'.
Proof.
  split; [apply demo_state_wf|].
  apply (clear_nonforced_idempotent demo_state.1 demo_state.2), demo_state_wf.
Defined.

(** C10. For both values of the force flag, clear on a well-formed
    container returns and leaves every child node as it was (call count
    and link included), the class map, the header, and the child, counter
    and lock fields of every class counter, hence every child list with
    its order; what it changes lies in [clear_frame]: object counters
    become zero, offset lists are freed with offsets set null and
    offsetCount -1, and the is-cleared flag ends up true. *)
Theorem clear_changes_only_its_frame h s isForce :
  container_wf h s →
  ∃ h' s', clear isForce (h, s) = Some (h', s') ∧
    clear_frame h h' ∧
    childCounters h' = childCounters h ∧
    counterMap s' = counterMap s ∧ _header s' = _header s ∧ isCleared s' = true ∧
    ∀ k cls l, classCounters h !! k = Some cls → child_list h (child cls) l →
      ∃ cls', classCounters h' !! k = Some cls' ∧
              (cls' = cls ∨ cls' = reset_cache cls) ∧
              child_list h' (child cls') l.
Proof.
  intros Hwf.
  assert (∃ h' s', clear isForce (h, s) = Some (h', s') ∧ clear_frame h h' ∧
            counterMap s' = counterMap s ∧ _header s' = _header s ∧
            isCleared s' = true) as (h' & s' & Hrun & Hf & Hrest).
  { destruct (negb isForce && isCleared s) eqn:Hgo.
    - exists h, s. unfold clear. rewrite Hgo.
      apply andb_true_iff in Hgo as [_ Hc].
      split_and!; [done|apply clear_frame_refl|done|done|done].
    - destruct (clear_spec h s isForce Hwf Hgo) as (h' & Hrun & Hf & _).
      eexists _, _. split; [exact Hrun|]. by split_and!. }
  exists h', s'. split_and!; try tauto; [apply Hf|].
  intros k cls l Hk Hl.
  destruct (clear_frame_class _ _ _ _ Hf Hk) as (cls' & Hk' & Hcls').
  exists cls'. split_and!; [done|done|].
  apply (clear_frame_list _ _ _ _ Hf). by destruct Hcls' as [->| ->].
Qed.

Lemma clear_changes_only_its_frame_witness :
  container_wf demo_state.1 demo_state.2 ∧
  ∃ h' s', clear true (demo_state.1, demo_state.2) = Some (h', s') ∧
    clear_frame demo_state.1 h' ∧
    childCounters h' = childCounters demo_state.1 ∧
    counterMap s' = counterMap demo_state.2 ∧ _header s' = _header demo_state.2 ∧
    isCleared s' = true ∧
    ∀ k cls l, classCounters demo_state.1 !! k = Some cls →
      child_list demo_state.1 (child cls) l →
      ∃ cls', classCounters h' !! k = Some cls' ∧
              (cls' = cls ∨ cls' = reset_cache cls) ∧
              child_list h' (child cls') l.
Proof.
  split; [apply demo_state_wf|].
  apply (clear_changes_only_its_frame demo_state.1 demo_state.2 true), demo_state_wf.
Defined.
End ClearClaims.

(** * Scenario S3 *)

Section Scenario.
Implicit Types (h : heap) (vs : list child_view) (v w : child_view).

Lemma node_view_inj h v w :
  node_view h v → node_view h w → cv_addr v = cv_addr w → v = w.
Proof.
  intros (c & d & Hc & E1 & E2 & E3 & Hd & E4) (c' & d' & Hc' & F1 & F2 & F3 & Hd' & F4) Ha.
  rewrite Ha, Hc' in Hc. injection Hc as <-. rewrite Hd' in Hd. injection Hd as <-.
  destruct v, w. simpl in *. congruence.
Qed.

Lemma child_views_inj h p vs1 vs2 :
  child_views h p vs1 → child_views h p vs2 → vs1 = vs2.
Proof.
  intros [Hl1 Hv1] [Hl2 Hv2].
  pose proof (child_list_inj _ _ _ _ Hl1 Hl2) as Heq. clear Hl1 Hl2.
  revert vs2 Hv2 Heq. induction Hv1 as [|v vs1 Hv Hvs IH]; intros [|w vs2] Hv2 Heq;
    try done.
  apply Forall_cons in Hv2 as [Hw Hv2]. simpl in Heq. injection Heq as Ha Heq.
  f_equal; [by eapply node_view_inj|by apply IH].
Qed.

Lemma push_step h K cls vs d od o :
  heap_wf h → classCounters h !! K = Some cls → child_views h (child cls) vs →
  objDatas h !! d = Some od → calloc_ok o = true → memalign_ok o = true →
  ∃ h' cls', pushNewChildClass K d o h = Some (brk h, h') ∧ heap_wf h' ∧
    classCounters h' !! K = Some cls' ∧
    child_views h' (child cls') (vs ++ [mkView (brk h) (brk h + 1)%N d (klassOop od) 0]) ∧
    objDatas h' = objDatas h ∧ brk h' = (brk h + 2)%N.
Proof.
  intros Hwf Hk Hvs Hd Hc Hm.
  destruct (pushNewChildClass_wf h K cls d od o Hwf Hk Hd Hc Hm)
    as (vs' & h' & head' & Hvs0 & Hrun & Hwf' & Hk' & Hvs' & _ & Hod & _ & Hbrk & _).
  rewrite (child_views_inj _ _ _ _ Hvs0 Hvs) in Hvs'.
  exists h', (set_child cls head'). split_and!; try done.
  by rewrite Hk', lookup_insert_eq.
Qed.

Lemma find_step h K cls vs key :
  heap_wf h → classCounters h !! K = Some cls → child_views h (child cls) vs →
  ∃ h' cls', findChildClass K key h = Some (lfu_found key vs, h') ∧ heap_wf h' ∧
    classCounters h' !! K = Some cls' ∧ child_views h' (child cls') (lfu key vs).
Proof.
  intros Hwf Hk Hvs.
  destruct (findChildClass_wf h K cls key Hwf Hk)
    as (vs' & h' & head' & Hvs0 & Hrun & Hwf' & Hk' & Hvs' & _).
  rewrite (child_views_inj _ _ _ _ Hvs0 Hvs) in Hrun, Hvs'.
  exists h', (set_child cls head'). split_and!; try done.
  by rewrite Hk', lookup_insert_eq.
Qed.

(** One lookup that hits a node with a sibling before it: the node is
    returned with its call count incremented, and it is swapped with
    that sibling when, and only when, the sibling's call count is lower
    than or equal to the incremented one. *)
Lemma find_step_inner h K cls pre u v post :
  heap_wf h → classCounters h !! K = Some cls →
  child_views h (child cls) (pre ++ u :: v :: post) →
  Forall (λ w, cv_klass w ≠ cv_klass v) (pre ++ [u]) →
  ∃ h' cls', findChildClass K (cv_klass v) h = Some (cv_addr v, h') ∧
    classCounters h' !! K = Some cls' ∧
    child_views h' (child cls')
      (if decide (cv_calls u ≤ wrap32u (cv_calls v + 1))%Z
       then pre ++ hit v :: u :: post else pre ++ u :: hit v :: post).
Proof.
  intros Hwf Hk Hvs Hpre.
  destruct (find_step h K cls _ (cv_klass v) Hwf Hk Hvs) as (h' & cls' & Hrun & _ & Hk' & Hvs').
  exists h', cls'. split_and!; [|done|].
  - rewrite Hrun. f_equal. f_equal. rewrite cons_middle, app_assoc.
    by apply lfu_found_hit.
  - by rewrite (lfu_hit_inner (cv_klass v) pre u v post Hpre eq_refl) in Hvs'.
Qed.

(** One lookup that hits the head of the list: the order is kept. *)
Lemma find_step_head h K cls v post :
  heap_wf h → classCounters h !! K = Some cls → child_views h (child cls) (v :: post) →
  ∃ h' cls', findChildClass K (cv_klass v) h = Some (cv_addr v, h') ∧
    classCounters h' !! K = Some cls' ∧ child_views h' (child cls') (hit v :: post).
Proof.
  intros Hwf Hk Hvs.
  destruct (find_step h K cls _ (cv_klass v) Hwf Hk Hvs) as (h' & cls' & Hrun & _ & Hk' & Hvs').
  exists h', cls'. split_and!; [|done|].
  - rewrite Hrun. f_equal. f_equal. by apply (lfu_found_hit (cv_klass v) [] v post).
  - by rewrite lfu_hit_head in Hvs'.
Qed.

(** C6. Children C1, C2, C3 pushed in this order under a class counter K
    without children, for classes of which the third differs from the
    first two: each push appends its node at the tail, with call count
    0.  Then five findChildClass calls for the third class, each of
    which returns C3 and increments its call count: the first swaps C3
    with C2 (list C1, C3, C2), the second swaps it with C1 (list C3, C1,
    C2), the last three find it at the head and keep the order; C3's
    call count ends at 5.  The rule behind it, for every list of a
    well-formed heap: the node hit, with its call count incremented, is
    swapped with the sibling just before it when that sibling's call
    count is lower or equal, moving one step toward the head, and stays
    in its place when it is higher or when the node is the head. *)
Theorem promotion_scenario_S3 h K cls d1 d2 d3 od1 od2 od3 o1 o2 o3 :
  heap_wf h → classCounters h !! K = Some cls → child cls = NULL →
  objDatas h !! d1 = Some od1 → objDatas h !! d2 = Some od2 →
  objDatas h !! d3 = Some od3 →
  klassOop od1 ≠ klassOop od3 → klassOop od2 ≠ klassOop od3 →
  calloc_ok o1 && memalign_ok o1 = true → calloc_ok o2 && memalign_ok o2 = true →
  calloc_ok o3 && memalign_ok o3 = true →
  (∃ C1 C2 C3 h1 h2 h3 h4 h5 h6 h7 h8,
    NoDup [C1; C2; C3] ∧
    pushNewChildClass K d1 o1 h = Some (C1, h1) ∧
    children_are h1 K [(C1, 0%Z)] ∧
    pushNewChildClass K d2 o2 h1 = Some (C2, h2) ∧
    children_are h2 K [(C1, 0%Z); (C2, 0%Z)] ∧
    pushNewChildClass K d3 o3 h2 = Some (C3, h3) ∧
    children_are h3 K [(C1, 0%Z); (C2, 0%Z); (C3, 0%Z)] ∧
    findChildClass K (klassOop od3) h3 = Some (C3, h4) ∧
    children_are h4 K [(C1, 0%Z); (C3, 1%Z); (C2, 0%Z)] ∧
    findChildClass K (klassOop od3) h4 = Some (C3, h5) ∧
    children_are h5 K [(C3, 2%Z); (C1, 0%Z); (C2, 0%Z)] ∧
    findChildClass K (klassOop od3) h5 = Some (C3, h6) ∧
    children_are h6 K [(C3, 3%Z); (C1, 0%Z); (C2, 0%Z)] ∧
    findChildClass K (klassOop od3) h6 = Some (C3, h7) ∧
    children_are h7 K [(C3, 4%Z); (C1, 0%Z); (C2, 0%Z)] ∧
    findChildClass K (klassOop od3) h7 = Some (C3, h8) ∧
    children_are h8 K [(C3, 5%Z); (C1, 0%Z); (C2, 0%Z)] ∧
    scenario_S3 K d1 d2 d3 (klassOop od3) o1 o2 o3 h =
      Some (C1, C2, C3, [C3; C3; C3; C3; C3], h8)) ∧
  (∀ g k c pre u v post,
     heap_wf g → classCounters g !! k = Some c →
     child_views g (child c) (pre ++ u :: v :: post) →
     Forall (λ w, cv_klass w ≠ cv_klass v) (pre ++ [u]) →
     ∃ g' c', findChildClass k (cv_klass v) g = Some (cv_addr v, g') ∧
       classCounters g' !! k = Some c' ∧
       child_views g' (child c')
         (if decide (cv_calls u ≤ wrap32u (cv_calls v + 1))%Z
          then pre ++ hit v :: u :: post else pre ++ u :: hit v :: post)) ∧
  (∀ g k c v post,
     heap_wf g → classCounters g !! k = Some c → child_views g (child c) (v :: post) →
     ∃ g' c', findChildClass k (cv_klass v) g = Some (cv_addr v, g') ∧
       classCounters g' !! k = Some c' ∧ child_views g' (child c') (hit v :: post)).
Proof.
  intros Hwf Hk Hchild Hd1 Hd2 Hd3 Hne1 Hne2
    [Hc1 Hm1]%andb_true_iff [Hc2 Hm2]%andb_true_iff [Hc3 Hm3]%andb_true_iff.
  split; [|split; [apply find_step_inner|apply find_step_head]].
  assert (child_views h (child cls) []) as Hvs0.
  { rewrite Hchild. split; [done|constructor]. }
  destruct (push_step _ _ _ _ _ _ _ Hwf Hk Hvs0 Hd1 Hc1 Hm1)
    as (h1 & cls1 & Hr1 & Hwf1 & Hk1 & Hvs1 & Hod1 & Hb1).
  rewrite <- Hod1 in Hd2, Hd3.
  destruct (push_step _ _ _ _ _ _ _ Hwf1 Hk1 Hvs1 Hd2 Hc2 Hm2)
    as (h2 & cls2 & Hr2 & Hwf2 & Hk2 & Hvs2 & Hod2 & Hb2).
  rewrite <- Hod2 in Hd3.
  destruct (push_step _ _ _ _ _ _ _ Hwf2 Hk2 Hvs2 Hd3 Hc3 Hm3)
    as (h3 & cls3 & Hr3 & Hwf3 & Hk3 & Hvs3 & Hod3 & Hb3).
  cbn [app] in Hvs1, Hvs2, Hvs3.
  set (key := klassOop od3) in *.
  set (V1 := mkView (brk h) (brk h + 1)%N d1 (klassOop od1) 0) in *.
  set (V2 := mkView (brk h1) (brk h1 + 1)%N d2 (klassOop od2) 0) in *.
  set (V3 := mkView (brk h2) (brk h2 + 1)%N d3 key 0) in *.
  (* first call: C2, with call count 0, is before C3 *)
  destruct (find_step_inner h3 K cls3 [V1] V2 V3 [] Hwf3 Hk3 Hvs3)
    as (h4 & cls4 & Hf1 & Hk4 & Hvs4); [by repeat constructor|].
  destruct (find_step _ _ _ _ key Hwf3 Hk3 Hvs3) as (h4' & _ & Hf1' & Hwf4 & _).
  cbn [cv_klass V3] in Hf1. rewrite Hf1 in Hf1'. injection Hf1' as _ <-.
  rewrite decide_True in Hvs4 by (by vm_compute). cbn [app] in Hvs4.
  (* second call: C1, with call count 0, is before C3 *)
  destruct (find_step_inner h4 K cls4 [] V1 (hit V3) [V2] Hwf4 Hk4 Hvs4)
    as (h5 & cls5 & Hf2 & Hk5 & Hvs5); [by repeat constructor|].
  destruct (find_step _ _ _ _ key Hwf4 Hk4 Hvs4) as (h5' & _ & Hf2' & Hwf5 & _).
  cbn [cv_klass hit V3] in Hf2. rewrite Hf2 in Hf2'. injection Hf2' as _ <-.
  rewrite decide_True in Hvs5 by (by vm_compute). cbn [app] in Hvs5.
  (* the other calls: C3 is the head *)
  destruct (find_step_head h5 K cls5 _ _ Hwf5 Hk5 Hvs5) as (h6 & cls6 & Hf3 & Hk6 & Hvs6).
  destruct (find_step _ _ _ _ key Hwf5 Hk5 Hvs5) as (h6' & _ & Hf3' & Hwf6 & _).
  cbn [cv_klass hit V3] in Hf3. rewrite Hf3 in Hf3'. injection Hf3' as _ <-.
  destruct (find_step_head h6 K cls6 _ _ Hwf6 Hk6 Hvs6) as (h7 & cls7 & Hf4 & Hk7 & Hvs7).
  destruct (find_step _ _ _ _ key Hwf6 Hk6 Hvs6) as (h7' & _ & Hf4' & Hwf7 & _).
  cbn [cv_klass hit V3] in Hf4. rewrite Hf4 in Hf4'. injection Hf4' as _ <-.
  destruct (find_step_head h7 K cls7 _ _ Hwf7 Hk7 Hvs7) as (h8 & cls8 & Hf5 & Hk8 & Hvs8).
  cbn [cv_klass hit V3] in Hf5.
  cbn [cv_addr hit V3] in Hf1, Hf2, Hf3, Hf4, Hf5.
  exists (brk h), (brk h1), (brk h2), h1, h2, h3, h4, h5, h6, h7, h8.
  split.
  { apply (child_list_NoDup h3 _ (child cls3)). exact (proj1 Hvs3). }
  split; [exact Hr1|]. split; [by exists cls1, [V1]|].
  split; [exact Hr2|]. split; [by exists cls2, [V1; V2]|].
  split; [exact Hr3|]. split; [by exists cls3, [V1; V2; V3]|].
  split; [exact Hf1|]. split; [by eexists cls4, _|].
  split; [exact Hf2|]. split; [by eexists cls5, _|].
  split; [exact Hf3|]. split; [by eexists cls6, _|].
  split; [exact Hf4|]. split; [by eexists cls7, _|].
  split; [exact Hf5|]. split; [by eexists cls8, _|].
  unfold scenario_S3. rewrite Hr1. cbn [mbind option_bind fst snd].
  rewrite Hr2. cbn [mbind option_bind fst snd].
  rewrite Hr3. cbn [mbind option_bind fst snd].
  rewrite Hf1. cbn [mbind option_bind fst snd].
  rewrite Hf2. cbn [mbind option_bind fst snd].
  rewrite Hf3. cbn [mbind option_bind fst snd].
  rewrite Hf4. cbn [mbind option_bind fst snd].
  rewrite Hf5. cbn [mbind option_bind fst snd]. done.
Qed.
End Scenario.

(** * Worked examples on the lists *)

Section Witnesses.
Lemma demo_class_heap_wf : heap_wf demo_class.1.
Proof. apply (pushNewClass_heap_wf _ demo_container 100%N all_ok demo_heap_wf). Qed.

Lemma promotion_scenario_S3_witness :
  ∃ h1 h2 h3 h4 h5 h6 h7 h8,
    pushNewChildClass 64 100 all_ok demo_class.1 = Some (66%N, h1) ∧
    pushNewChildClass 64 101 all_ok h1 = Some (68%N, h2) ∧
    pushNewChildClass 64 102 all_ok h2 = Some (70%N, h3) ∧
    children_are h3 64 [(66%N, 0%Z); (68%N, 0%Z); (70%N, 0%Z)] ∧
    findChildClass 64 4098 h3 = Some (70%N, h4) ∧
    children_are h4 64 [(66%N, 0%Z); (70%N, 1%Z); (68%N, 0%Z)] ∧
    findChildClass 64 4098 h4 = Some (70%N, h5) ∧
    children_are h5 64 [(70%N, 2%Z); (66%N, 0%Z); (68%N, 0%Z)] ∧
    findChildClass 64 4098 h5 = Some (70%N, h6) ∧
    children_are h6 64 [(70%N, 3%Z); (66%N, 0%Z); (68%N, 0%Z)] ∧
    findChildClass 64 4098 h6 = Some (70%N, h7) ∧
    children_are h7 64 [(70%N, 4%Z); (66%N, 0%Z); (68%N, 0%Z)] ∧
    findChildClass 64 4098 h7 = Some (70%N, h8) ∧
    children_are h8 64 [(70%N, 5%Z); (66%N, 0%Z); (68%N, 0%Z)] ∧
    scenario_S3 64 100 101 102 4098 all_ok all_ok all_ok demo_class.1 =
      Some (66%N, 68%N, 70%N, [70; 70; 70; 70; 70]%N, h8).
Proof.
  assert (classCounters demo_class.1 !! 64%N = Some (mkClassCounter 65 NULL 0 NULL (-1)))
    as Hk by (by vm_compute).
  assert (objDatas demo_class.1 !! 100%N = Some (demo_objData 4096)) as Hd1 by (by vm_compute).
  assert (objDatas demo_class.1 !! 101%N = Some (demo_objData 4097)) as Hd2 by (by vm_compute).
  assert (objDatas demo_class.1 !! 102%N = Some (demo_objData 4098)) as Hd3 by (by vm_compute).
  assert (klassOop (demo_objData 4096) ≠ klassOop (demo_objData 4098)) as Hn1
    by (vm_compute; congruence).
  assert (klassOop (demo_objData 4097) ≠ klassOop (demo_objData 4098)) as Hn2
    by (vm_compute; congruence).
  destruct (promotion_scenario_S3 demo_class.1 64 (mkClassCounter 65 NULL 0 NULL (-1))
              100 101 102 (demo_objData 4096) (demo_objData 4097) (demo_objData 4098)
              all_ok all_ok all_ok demo_class_heap_wf Hk eq_refl Hd1 Hd2 Hd3 Hn1 Hn2
              eq_refl eq_refl eq_refl)
    as [(C1 & C2 & C3 & h1 & h2 & h3 & h4 & h5 & h6 & h7 & h8 & _ & Hp1 & _ & Hp2 & _ &
         Hp3 & Hl3 & Hf1 & Hl4 & Hf2 & Hl5 & Hf3 & Hl6 & Hf4 & Hl7 & Hf5 & Hl8 & Hrun) _].
  assert (C1 = 66%N) as ->.
  { assert (fst <$> pushNewChildClass 64 100 all_ok demo_class.1 = Some C1) as E
      by (rewrite Hp1; reflexivity).
    vm_compute in E. congruence. }
  assert (h1 = demo_push 100 demo_class.1) as ->
    by (unfold demo_push; rewrite Hp1; reflexivity).
  assert (C2 = 68%N) as ->.
  { assert (fst <$> pushNewChildClass 64 101 all_ok (demo_push 100 demo_class.1) = Some C2)
      as E by (rewrite Hp2; reflexivity).
    vm_compute in E. congruence. }
  assert (h2 = demo_push 101 (demo_push 100 demo_class.1)) as ->
    by (unfold demo_push at 1; rewrite Hp2; reflexivity).
  assert (C3 = 70%N) as ->.
  { assert (fst <$> pushNewChildClass 64 102 all_ok
                      (demo_push 101 (demo_push 100 demo_class.1)) = Some C3)
      as E by (rewrite Hp3; reflexivity).
    vm_compute in E. congruence. }
  exists (demo_push 100 demo_class.1), (demo_push 101 (demo_push 100 demo_class.1)),
    h3, h4, h5, h6, h7, h8.
  repeat (split; [assumption|]). assumption.
Defined.

Lemma findChildClass_keeps_nodes_witness :
  heap_wf demo_children ∧
  ∃ h', findChildClass_seq
          [(64, 4098); (64, 4097); (64, 4098); (64, 7777); (64, 4096)]%N
          demo_children = Some h' ∧ heap_wf h' ∧
    ∀ K cls l, classCounters demo_children !! K = Some cls →
      child_list demo_children (child cls) l →
      ∃ cls' l', classCounters h' !! K = Some cls' ∧
                 child_list h' (child cls') l' ∧ l' ≡ₚ l ∧ NoDup l'.
Proof.
  split; [apply demo_children_wf|].
  apply (findChildClass_keeps_nodes demo_children); [apply demo_children_wf|].
  repeat constructor; apply demo_children_wf.
Defined.
End Witnesses.

(** * findClass and pushNewClass *)

Section FindClass.
Implicit Types (h : heap) (s : TSnapShotContainer) (hs : heap * TSnapShotContainer).


(** The class counter of a successful push. *)
Lemma pushNewClass_new_zero h s d o :
  heap_wf h → oracle_ok o = true →
  class_zero (pushNewClass d o (h, s)).2.1 (brk h).
Proof.
  intros Hwf Hok.
  destruct (pushNewClass_ok h s d o Hwf Hok) as (h' & -> & _ & Hk & Ho & _).
  eexists. cbn [fst snd]. rewrite Hk, lookup_insert_eq. split; [done|].
  cbn [counter offsets offsetCount child]. rewrite Ho, lookup_insert_eq.
  split_and!; try done. intros l a Hl Ha.
  apply child_list_null in Hl as ->. by inversion Ha.
Qed.







End FindClass.

(** * The stock of instances *)

Section Stock.
Implicit Types (w : world) (s : TSnapShotContainer).

Lemma getInstance_fresh cfg raw w :
  stockQueue w = Some [] →
  getInstance cfg (Some raw) w =
    Some (brk (w_heap w),
          mkWorld (with_brk (w_heap w) (brk (w_heap w) + 1))
                  (<[brk (w_heap w) := TSnapShotContainer_ctor cfg raw]> (containers w))
                  (Some [])).
Proof. intros Hq. unfold getInstance. rewrite Hq. simpl. by rewrite Hq. Qed.

Lemma getInstance_pooled cfg fresh w p q :
  stockQueue w = Some (p :: q) → p ≠ NULL →
  getInstance cfg fresh w = Some (p, mkWorld (w_heap w) (containers w) (Some q)).
Proof. intros Hq Hp. unfold getInstance. rewrite Hq. simpl. by rewrite decide_False. Qed.

Lemma releaseInstance_stocked w p q s :
  p ≠ NULL → stockQueue w = Some q → length q < MAX_STOCK_COUNT →
  containers w !! p = Some s → isCleared s = true →
  releaseInstance p true w =
    Some (mkWorld (w_heap w) (containers w) (Some (q ++ [p]))).
Proof.
  intros Hp Hq Hlen Hs Hc. unfold releaseInstance.
  rewrite decide_False by done. rewrite Hq. simpl. rewrite decide_True by done.
  rewrite Hs. simpl. rewrite Hc. simpl. by rewrite insert_id.
Qed.

Lemma releaseInstance_destroyed w p q s :
  p ≠ NULL → stockQueue w = Some q → ¬ length q < MAX_STOCK_COUNT →
  containers w !! p = Some s → counterMap s = ∅ →
  releaseInstance p true w =
    Some (mkWorld (w_heap w) (delete p (containers w)) (Some q)).
Proof.
  intros Hp Hq Hlen Hs Hc. unfold releaseInstance.
  rewrite decide_False by done. rewrite Hq. simpl. rewrite decide_False by done.
  unfold delete_instance. rewrite Hs. simpl.
  unfold TSnapShotContainer_dtor. simpl. rewrite Hc, map_to_list_empty. simpl.
  by rewrite Hq.
Qed.
(** C3. From a stock that is empty: three instances a, b, c are
    acquired (all new), then released in this order; the stock then holds
    a and b, in this order, and c is destroyed; three more acquisitions
    return a, then b, then an instance allocated by that call. *)
Theorem stock_recycles_two cfg raw1 raw2 raw3 raw4 raw5 raw6 w :
  world_wf w → stockQueue w = Some [] →
  ∃ a b c w3 d w',
    scenario_S4 cfg raw1 raw2 raw3 raw4 raw5 raw6 w =
      Some (a, b, c, w3, (a, b, d), w') ∧
    NoDup [a; b; c] ∧ a ≠ NULL ∧ b ≠ NULL ∧ c ≠ NULL ∧
    containers w !! a = None ∧ containers w !! b = None ∧ containers w !! c = None ∧
    stockQueue w3 = Some [a; b] ∧
    is_Some (containers w3 !! a) ∧ is_Some (containers w3 !! b) ∧
    containers w3 !! c = None ∧
    d ≠ NULL ∧ d ≠ a ∧ d ≠ b ∧ containers w3 !! d = None ∧
    containers w' !! d = Some (TSnapShotContainer_ctor cfg raw6) ∧
    stockQueue w' = Some [].
Proof.
  intros [Hbd Hlive] Hq. destruct w as [h cs q]. simpl in *. subst q.
  set (a := brk h). set (b := (a + 1)%N). set (c := (b + 1)%N). set (d := (c + 1)%N).
  assert (0 < a)%N as Ha by (by destruct Hbd as [? _]).
  assert (∀ p, (a ≤ p)%N → cs !! p = None) as Hfree.
  { intros p Hp. apply eq_None_not_Some. intros Hs%Hlive. unfold a in Hp. lia. }
  exists a, b, c.
  eexists. exists d. eexists.
  unfold scenario_S4.
  rewrite getInstance_fresh by done. cbn [mbind option_bind fst snd w_heap containers].
  rewrite getInstance_fresh by done. cbn [mbind option_bind fst snd w_heap containers].
  rewrite getInstance_fresh by done. cbn [mbind option_bind fst snd w_heap containers].
  heap_norm. fold a b c.
  rewrite (releaseInstance_stocked _ a [] (TSnapShotContainer_ctor cfg raw1));
    [|unfold NULL; lia|done|unfold MAX_STOCK_COUNT; simpl; lia| |done].
  2:{ cbn [containers]. rewrite !lookup_insert_ne by lia. apply lookup_insert_eq. }
  cbn [mbind option_bind fst snd w_heap containers app].
  rewrite (releaseInstance_stocked _ b [a] (TSnapShotContainer_ctor cfg raw2));
    [|unfold NULL; lia|done|unfold MAX_STOCK_COUNT; simpl; lia| |done].
  2:{ cbn [containers]. rewrite !lookup_insert_ne by lia. apply lookup_insert_eq. }
  cbn [mbind option_bind fst snd w_heap containers app].
  rewrite (releaseInstance_destroyed _ c [a; b] (TSnapShotContainer_ctor cfg raw3));
    [|unfold NULL; lia|done|unfold MAX_STOCK_COUNT; simpl; lia| |done].
  2:{ cbn [containers]. apply lookup_insert_eq. }
  cbn [mbind option_bind fst snd w_heap containers app].
  rewrite (getInstance_pooled _ _ _ a [b]); [|done|unfold NULL; lia].
  cbn [mbind option_bind fst snd w_heap containers app].
  rewrite (getInstance_pooled _ _ _ b []); [|done|unfold NULL; lia].
  cbn [mbind option_bind fst snd w_heap containers app].
  rewrite getInstance_fresh by done. cbn [mbind option_bind fst snd w_heap containers brk].
  fold d. split; [reflexivity|]. cbn [containers stockQueue].
  rewrite delete_insert_eq.
  split_and!; try (unfold NULL; lia); try (apply Hfree; lia); try done.
  - repeat constructor; rewrite ?elem_of_cons; [| |by inversion 1]; intros Hx.
    + destruct Hx as [?|[?|Hx]]; [lia|lia|by inversion Hx].
    + destruct Hx as [?|Hx]; [lia|by inversion Hx].
  - rewrite delete_id by (rewrite !lookup_insert_ne by lia; apply Hfree; lia).
    rewrite lookup_insert_ne by lia. rewrite lookup_insert_eq. by eexists.
  - rewrite delete_id by (rewrite !lookup_insert_ne by lia; apply Hfree; lia).
    rewrite lookup_insert_eq. by eexists.
  - rewrite lookup_delete_eq. done.
  - rewrite lookup_delete_ne by lia. rewrite !lookup_insert_ne by lia. apply Hfree. lia.
  - apply lookup_insert_eq.
Qed.

Lemma demo_world_wf : world_wf demo_world.
Proof.
  split; [apply demo_heap_wf|]. intros p [x Hx]. unfold demo_world in Hx.
  cbn [containers] in Hx. by rewrite lookup_empty in Hx.
Qed.

Lemma stock_recycles_two_witness :
  world_wf demo_world ∧ stockQueue demo_world = Some [] ∧
  ∃ a b c w3 d w',
    scenario_S4 demo_config (replicate 174 x00) (replicate 174 x01)
      (replicate 174 x02) (replicate 174 x03) (replicate 174 x04)
      (replicate 174 x05) demo_world =
      Some (a, b, c, w3, (a, b, d), w') ∧
    NoDup [a; b; c] ∧ a ≠ NULL ∧ b ≠ NULL ∧ c ≠ NULL ∧
    containers demo_world !! a = None ∧ containers demo_world !! b = None ∧
    containers demo_world !! c = None ∧
    stockQueue w3 = Some [a; b] ∧
    is_Some (containers w3 !! a) ∧ is_Some (containers w3 !! b) ∧
    containers w3 !! c = None ∧
    d ≠ NULL ∧ d ≠ a ∧ d ≠ b ∧ containers w3 !! d = None ∧
    containers w' !! d = Some (TSnapShotContainer_ctor demo_config (replicate 174 x05)) ∧
    stockQueue w' = Some [].
Proof.
  split; [apply demo_world_wf|]. split; [reflexivity|].
  apply (stock_recycles_two demo_config); [apply demo_world_wf|reflexivity].
Defined.
End Stock.

(** * The class container *)

Section Registry.
Import ClassContainer.

(** C8. With record K found under host pointer p, and q another
    pointer: after updateClass(p, q), findClass(q) returns K and
    findClass(p) returns null.  updateClass writes to the index only, so
    what K points to in any store of records, the isRemoved flag with it,
    is what it was. *)
Theorem relocation_moves_the_record (records : gmap N TObjectData) c p q K :
  findClass p c = K → K ≠ NULL → p ≠ q →
  findClass q (updateClass p q c) = K ∧
  findClass p (updateClass p q c) = NULL ∧
  records !! findClass q (updateClass p q c) = records !! K.
Proof.
  intros Hp HK Hpq.
  assert (classMap c !! p = Some K) as Hl.
  { unfold findClass in Hp. destruct (classMap c !! p); congruence. }
  assert (findClass q (updateClass p q c) = K) as Hq.
  { unfold findClass, updateClass, subscript. simpl. rewrite Hl. simpl. rewrite Hl.
    rewrite lookup_delete_ne by done. by rewrite lookup_insert_eq. }
  split_and!; [done| |by rewrite Hq].
  unfold findClass, updateClass. simpl. by rewrite lookup_delete_eq.
Qed.

Lemma relocation_moves_the_record_witness :
  findClass 4096 demo_registry.2 = 100%N ∧ 100%N ≠ NULL ∧ 4096%N ≠ 8192%N ∧
  findClass 8192 (updateClass 4096 8192 demo_registry.2) = 100%N ∧
  findClass 4096 (updateClass 4096 8192 demo_registry.2) = NULL ∧
  demo_registry.1 !! findClass 8192 (updateClass 4096 8192 demo_registry.2)
    = demo_registry.1 !! 100%N.
Proof.
  assert (findClass 4096 demo_registry.2 = 100%N) as H1 by (by vm_compute).
  assert (100%N ≠ NULL) as H2 by (by vm_compute).
  assert (4096%N ≠ 8192%N) as H3 by (by vm_compute).
  split; [exact H1|]. split; [exact H2|]. split; [exact H3|].
  exact (relocation_moves_the_record demo_registry.1 demo_registry.2 4096 8192 100 H1 H2 H3).
Defined.

(** In scenario S5 the record found at 0x2000 is flagged unloaded. *)
Lemma scenario_S5_flag :
  isRemoved <$> demo_registry.1 !! findClass 8192 (updateClass 4096 8192 demo_registry.2)
    = Some true.
Proof. by vm_compute. Qed.

(** A relocation onto the same pointer erases the entry. *)
Lemma updateClass_same_pointer c p : findClass p (updateClass p p c) = NULL.
Proof. unfold findClass, updateClass. simpl. by rewrite lookup_delete_eq. Qed.
End Registry.

(** * The header *)

Section Header.
Lemma c_str_length src : length (c_str src) ≤ length src.
Proof. induction src as [|b src IH]; simpl; [done|]. case_decide; simpl; lia. Qed.

(** strcpy stores every byte of the string and the terminator after
    them; how long the destination is plays no part. *)
Theorem strcpy_writes_whole_string off src img img' j :
  strcpy off src img = Some img' → j ≤ length (c_str src) →
  img' !! (off + j) = (c_str src ++ [x00]) !! j.
Proof.
  unfold strcpy. case_decide as Hfit; [|done]. intros [= <-] Hj.
  rewrite length_app in Hfit. simpl in Hfit.
  rewrite list_lookup_inserts; [f_equal; lia|rewrite length_app; simpl; lia|lia].
Qed.

(** So a string of 80 bytes or more reaches the byte after gcCause, the
    first of FGCCount. *)
Corollary strcpy_leaves_gcCause src img img' :
  strcpy off_gcCause src img = Some img' →
  sizeof_gcCause ≤ length (c_str src) →
  img' !! off_FGCCount = (c_str src ++ [x00]) !! sizeof_gcCause.
Proof.
  intros Hrun Hlen.
  apply (strcpy_writes_whole_string _ _ _ _ sizeof_gcCause Hrun Hlen).
Qed.

(** C2 at a GC cause of 128 letters: setJvmInfo returns, the length
    field holds 128, the 80 bytes of gcCause hold letters with no
    terminator among them, and the letters have overwritten the total
    heap size that was set before. *)
Theorem setJvmInfo_overruns_gcCause :
  load_jint off_cause (_header demo_gc_container) = demo_GC ∧
  load_jlong off_totalHeapSize (_header demo_gc_container) = 4096%Z ∧
  ∃ s', setJvmInfo demo_GC (Some demo_long_cause) demo_gc_container = Some s' ∧
    load_jlong off_gcCauseLen (_header s') = 128%Z ∧
    load_bytes off_gcCause sizeof_gcCause (_header s') = replicate 80 "A"%byte ∧
    load_bytes off_totalHeapSize 8 (_header s') = replicate 8 "A"%byte ∧
    load_jlong off_totalHeapSize (_header s') = 4702111234474983745%Z.
Proof.
  split; [by vm_compute|]. split; [by vm_compute|].
  eexists. split; [by vm_compute|]. by vm_compute.
Qed.
End Header.

(** * Zeroed class counters *)

Section ZeroViews.
Implicit Types (h : heap) (vs : list child_view) (s : TSnapShotContainer).

(** The state of a zeroed class counter, told on the views of its list. *)
Lemma class_zero_views h K cls vs :
  classCounters h !! K = Some cls → child_views h (child cls) vs →
  class_zero h K ↔
  objCounters h !! counter cls = Some zero_counter ∧ offsets cls = NULL ∧
  offsetCount cls = (-1)%Z ∧
  Forall (λ v, objCounters h !! cv_counter v = Some zero_counter) vs.
Proof.
  intros HK Hvs. split.
  - intros (cls' & HK' & Hz & Ho & Hn & Hch). rewrite HK in HK'. injection HK' as <-.
    split_and!; try done. apply Forall_forall. intros v Hv.
    destruct (Hch _ (cv_addr v) (proj1 Hvs)) as (c & Hc & Hcz);
      [by apply list_elem_of_fmap_2|].
    destruct Hvs as [_ Hnv]. rewrite Forall_forall in Hnv.
    destruct (Hnv _ Hv) as (c' & _ & Hc' & Hcc & _). congruence.
  - intros (Hz & Ho & Hn & Hall). exists cls. split_and!; try done.
    intros l a Hl Ha. rewrite (child_views_list _ _ _ _ Hvs Hl) in Ha.
    apply list_elem_of_fmap in Ha as (v & -> & Hv).
    destruct Hvs as [_ Hnv]. rewrite Forall_forall in Hnv, Hall.
    destruct (Hnv _ Hv) as (c & _ & Hc & Hcc & _). exists c. split; [done|].
    rewrite Hcc. by apply Hall.
Qed.

Lemma findChildClass_zero h k key r h' K :
  heap_wf h → is_Some (classCounters h !! k) →
  findChildClass k key h = Some (r, h') →
  class_zero h K → class_zero h' K.
Proof.
  intros Hwf [cls Hk] Hrun Hz.
  destruct (findChildClass_wf h k cls key Hwf Hk)
    as (vs & h2 & head' & Hvs & Hrun2 & Hwf' & Hk' & Hvs' & Ho & Hd & Hb & Hbrk & Hframe).
  rewrite Hrun in Hrun2. injection Hrun2 as -> <-.
  pose proof Hz as (clsK & HK & _).
  destruct (decide (k = K)) as [<-|Hne].
  - rewrite Hk in HK. injection HK as <-.
    apply (class_zero_views _ _ _ _ Hk Hvs) in Hz as (Hz & Hof & Hn & Hall).
    apply (class_zero_views h' k (set_child cls head') (lfu key vs));
      [by rewrite Hk', lookup_insert_eq|done|].
    rewrite Ho. split_and!; try done.
    by apply (lfu_counters (λ x, objCounters h !! x = Some zero_counter)).
  - destruct (proj1 (proj2 Hwf) _ _ HK) as (vsK & _ & _ & _ & HvsK & _).
    apply (class_zero_views _ _ _ _ HK HvsK) in Hz as (Hz & Hof & Hn & Hall).
    apply (class_zero_views h' K clsK vsK); [by rewrite Hk', lookup_insert_ne| |].
    + apply (child_views_untouched h); [done| |done]. intros a Ha. apply Hframe.
      intros Ha'. destruct Hwf as (_ & _ & Hdisj & _).
      by apply (Hdisj _ _ _ _ _ _ Hk HK Hne (proj1 Hvs) (proj1 HvsK) a).
    + by rewrite Ho.
Qed.

Lemma pushNewChildClass_zero h k d o r h' K :
  heap_wf h → is_Some (classCounters h !! k) → is_Some (objDatas h !! d) →
  pushNewChildClass k d o h = Some (r, h') →
  class_zero h K → class_zero h' K.
Proof.
  intros Hwf [cls Hk] [od Hd] Hrun Hz.
  destruct (calloc_ok o && memalign_ok o) eqn:Hok.
  2:{ destruct (pushNewChildClass_fails h k d o Hwf Hok)
        as (h2 & Hrun2 & _ & E1 & E2 & E3 & E4 & E5).
      rewrite Hrun in Hrun2. injection Hrun2 as -> <-.
      destruct Hz as (clsK & HK & Hzc & Hof & Hn & Hch). exists clsK.
      rewrite E3, E1. split_and!; try done.
      intros l a Hl Ha. rewrite E2.
      apply (Hch l a); [|done]. revert Hl. apply lseg_untouched. intros x _. by rewrite E2. }
  apply andb_true_iff in Hok as [Hc Hm].
  destruct (pushNewChildClass_wf h k cls d od o Hwf Hk Hd Hc Hm)
    as (vs & h2 & head' & Hvs & Hrun2 & Hwf' & Hk' & Hvs' & Ho & Hdm & Hb & Hbrk & Hframe).
  rewrite Hrun in Hrun2. injection Hrun2 as -> <-.
  assert (∀ x, objCounters h !! x = Some zero_counter →
               objCounters h' !! x = Some zero_counter) as Hmono.
  { intros x Hx. rewrite Ho.
    destruct (decide (brk h + 1 = x)%N) as [<-|Hne];
      [by rewrite lookup_insert_eq|by rewrite lookup_insert_ne]. }
  pose proof Hz as (clsK & HK & _).
  destruct (decide (k = K)) as [<-|Hne].
  - rewrite Hk in HK. injection HK as <-.
    apply (class_zero_views _ _ _ _ Hk Hvs) in Hz as (Hz & Hof & Hn & Hall).
    eapply (class_zero_views h' k (set_child cls head'));
      [by rewrite Hk', lookup_insert_eq|exact Hvs'|].
    split_and!; try done; [by apply Hmono|].
    apply Forall_app. split.
    + eapply Forall_impl; [exact Hall|]. intros v. apply Hmono.
    + constructor; [|constructor]. simpl. by rewrite Ho, lookup_insert_eq.
  - destruct (proj1 (proj2 Hwf) _ _ HK) as (vsK & _ & _ & _ & HvsK & _).
    apply (class_zero_views _ _ _ _ HK HvsK) in Hz as (Hz & Hof & Hn & Hall).
    apply (class_zero_views h' K clsK vsK); [by rewrite Hk', lookup_insert_ne| |].
    + apply (child_views_untouched h); [done| |done]. intros a Ha. apply Hframe.
      * intros Ha'. destruct Hwf as (_ & _ & Hdisj & _).
        by apply (Hdisj _ _ _ _ _ _ Hk HK Hne (proj1 Hvs) (proj1 HvsK) a).
      * intros ->. destruct (bounded_fresh _ (proj1 Hwf)) as (_ & _ & _ & _ & Hca & _).
        destruct (lseg_allocated _ _ _ _ _ (proj1 HvsK) Ha). congruence.
    + split_and!; try done; [by apply Hmono|].
      eapply Forall_impl; [exact Hall|]. intros v. apply Hmono.
Qed.

Lemma pushNewClass_zero h s d o K :
  heap_wf h → class_zero h K → class_zero (pushNewClass d o (h, s)).2.1 K.
Proof.
  intros Hwf (clsK & HK & Hzc & Hof & Hn & Hch).
  destruct (bounded_fresh _ (proj1 Hwf)) as (_ & _ & _ & _ & _ & _ & Hka & _).
  assert (∃ h', (pushNewClass d o (h, s)).2.1 = h' ∧
            childCounters h' = childCounters h ∧
            classCounters h' !! K = Some clsK ∧
            ∀ x, objCounters h !! x = Some zero_counter →
                 objCounters h' !! x = Some zero_counter) as (h' & -> & E2 & E3 & Hmono).
  { destruct (oracle_ok o) eqn:Hok.
    - destruct (pushNewClass_ok h s d o Hwf Hok) as (h' & -> & _ & Hk' & Ho & Hc & _).
      exists h'. split_and!; [done|done| |].
      + rewrite Hk', lookup_insert_ne; [done|]. intros <-. congruence.
      + intros x Hx. rewrite Ho.
        destruct (decide (brk h + 1 = x)%N) as [<-|Hne];
          [by rewrite lookup_insert_eq|by rewrite lookup_insert_ne].
    - destruct (pushNewClass_fails h s d o Hwf Hok) as (h' & -> & _ & E1 & E2 & E3 & _).
      exists h'. split_and!; [done|done|by rewrite E3|]. intros x. by rewrite E1. }
  exists clsK. split_and!; try done; [by apply Hmono|].
  intros l a Hl Ha. rewrite E2.
  destruct (Hch l a) as (c & Hc & Hcz); [|done|].
  - revert Hl. apply lseg_untouched. intros x _. by rewrite E2.
  - exists c. split; [done|by apply Hmono].
Qed.
End ZeroViews.

(** * The core operations *)

Section Flag.
Implicit Types (h : heap) (s : TSnapShotContainer) (hs : heap * TSnapShotContainer).

Lemma Inc_heap_wf h c size :
  heap_wf h → is_Some (objCounters h !! c) →
  ∃ h', Inc c size h = Some h' ∧ heap_wf h' ∧ classCounters h' = classCounters h.
Proof.
  intros Hwf [x Hx]. unfold Inc. rewrite Hx. eexists. split; [done|]. split; [|done].
  apply (heap_wf_counters h); [done|done|]. intros z. simpl.
  rewrite lookup_insert_is_Some'. split; [by right|]. intros [<-|?]; [by eexists|done].
Qed.

Lemma addInc_returns h c o :
  heap_wf h → is_Some (objCounters h !! c) → is_Some (objCounters h !! o) →
  ∃ h', addInc c o h = Some h' ∧ heap_wf h' ∧ classCounters h' = classCounters h.
Proof.
  intros Hwf [x Hx] [y Hy].
  destruct (addInc_spec _ _ _ _ _ Hx Hy) as (h' & Hrun & Hoc & _).
  exists h'. split_and!; [done|by eapply addInc_heap_wf|apply Hoc].
Qed.

(** setJvmInfo returns when the strcpy of the cause ends inside the
    header. *)
Lemma setJvmInfo_returns GC info s :
  length (_header s) = sizeof_TSnapShotFileHeader →
  (load_jint off_cause (_header s) = GC →
   off_gcCause + length (c_str (getGCCause info)) + 1 ≤ sizeof_TSnapShotFileHeader) →
  ∃ img, setJvmInfo GC (Some info) s = Some (with_header s img).
Proof.
  intros Hlen Hfit. unfold setJvmInfo.
  case_decide as Hc; [|by eexists]. specialize (Hfit Hc).
  unfold strcpy. rewrite decide_True.
  2:{ rewrite length_app, Hlen. cbn [length]. lia. }
  cbn [mbind option_bind]. unfold strlen. rewrite decide_True; [by eexists|].
  apply list_elem_of_lookup. exists (length (c_str (getGCCause info))).
  rewrite lookup_drop, list_lookup_inserts.
  - rewrite Nat.add_comm, Nat.add_sub. by rewrite lookup_app_r, Nat.sub_diag.
  - rewrite length_app. cbn [length]. lia.
  - rewrite Hlen. lia.
Qed.

Lemma all_zero_header h s img : all_zero h s → all_zero h (with_header s img).
Proof. done. Qed.
End Flag.

(** * The is-cleared flag *)

Section FlagClaim.
Implicit Types (h : heap) (s : TSnapShotContainer) (hs : heap * TSnapShotContainer).

Lemma cleared_inv_header h s img :
  cleared_inv (h, s) → cleared_inv (h, with_header s img).
Proof. done. Qed.

Lemma container_wf_header h s img :
  container_wf h s → container_wf h (with_header s img).
Proof. done. Qed.

(** C5, with the counting operations set apart.  On a well-formed
    container, the state predicate of the is-cleared flag (flag set
    implies every counter, root and child, zero and no offset list
    cached) is kept by pushNewClass, pushNewChildClass, findClass,
    findChildClass, clear and the setters of the header, each of which
    returns when the pointers it is given are allocated; for setJvmInfo
    at a GC snapshot this is so for every cause of at most 143 bytes,
    which strcpy writes with its terminator inside the 174 bytes of the
    header.  Inc and addInc keep the predicate on a container whose flag
    is not set. *)
Theorem flag_invariant_preserved GC op h s :
  container_wf h s → op_ready GC op (h, s) →
  (counts op = true → isCleared s = false) →
  cleared_inv (h, s) →
  ∃ hs', run_op GC op (h, s) = Some hs' ∧ cleared_inv hs' ∧
         container_wf hs'.1 hs'.2.
Proof.
  intros [Hwf Hmap] Hready Hflag Hinv.
  destruct op as [c size|c o|d o|k d o|d|k key|isForce|t|cause|size|info];
    cbn [run_op op_ready counts fst snd] in *.
  - destruct (Inc_heap_wf h c size Hwf Hready) as (h' & -> & Hwf' & Hk).
    eexists. split; [done|]. split.
    + intros Hc. simpl in Hc. by rewrite Hflag in Hc.
    + split; [done|]. simpl. intros d k. rewrite Hk. apply Hmap.
  - destruct Hready as [Hc Ho].
    destruct (addInc_returns h c o Hwf Hc Ho) as (h' & -> & Hwf' & Hk).
    eexists. split; [done|]. split.
    + intros Hcl. simpl in Hcl. by rewrite Hflag in Hcl.
    + split; [done|]. simpl. intros d k. rewrite Hk. apply Hmap.
  - eexists. split; [done|]. split; [|by apply pushNewClass_container_wf].
    unfold cleared_inv. intros Hc d' k Hd' Hn.
    destruct (oracle_ok o) eqn:Hok.
    + pose proof (pushNewClass_new_zero h s d o Hwf Hok) as Hnew.
      pose proof (λ K, pushNewClass_zero h s d o K Hwf) as Hold.
      destruct (pushNewClass_ok h s d o Hwf Hok) as (h' & E & _).
      rewrite E in *. cbn [fst snd counterMap isCleared] in *.
      destruct (decide (d = d')) as [<-|Hne].
      * rewrite lookup_insert_eq in Hd'. injection Hd' as <-. exact Hnew.
      * rewrite lookup_insert_ne in Hd' by done. apply Hold. by apply (Hinv Hc d').
    + pose proof (λ K, pushNewClass_zero h s d o K Hwf) as Hold.
      destruct (pushNewClass_fails h s d o Hwf Hok) as (h' & E & _).
      rewrite E in *. cbn [fst snd] in *. apply Hold. by apply (Hinv Hc d').
  - destruct Hready as [Hk Hd].
    destruct (pushNewChildClass_returns h k d o Hwf Hk Hd) as (r & h' & Hrun & Hwf' & Hmono).
    rewrite Hrun. eexists. split; [done|]. cbn [fst snd]. split.
    + intros Hc d' K Hd' Hn. simpl in *.
      apply (pushNewChildClass_zero h k d o r h' K Hwf Hk Hd Hrun). by apply (Hinv Hc d').
    + split; [done|]. intros d' K Hd' Hn. apply Hmono. by apply (Hmap d').
  - eexists. by split_and!.
  - destruct (findChildClass_returns h k key Hwf Hready) as (r & h' & Hrun & Hwf' & Hmono).
    rewrite Hrun. eexists. split; [done|]. cbn [fst snd]. split.
    + intros Hc d' K Hd' Hn. simpl in *.
      apply (findChildClass_zero h k key r h' K Hwf Hready Hrun). by apply (Hinv Hc d').
    + split; [done|]. intros d' K Hd' Hn. apply Hmono. by apply (Hmap d').
  - destruct (negb isForce && isCleared s) eqn:Hgo.
    + exists (h, s). unfold clear. rewrite Hgo. by split_and!.
    + destruct (clear_spec h s isForce (conj Hwf Hmap) Hgo) as (h' & Hrun & Hf & Hwf' & Hz).
      eexists. split; [exact Hrun|]. split; [by intros _|].
      split; [done|]. cbn [fst snd counterMap]. intros d' K Hd' Hn.
      eapply clear_frame_allocated; [done|]. by apply (Hmap d').
  - eexists. by split_and!.
  - eexists. by split_and!.
  - eexists. by split_and!.
  - destruct info as [info|]; [|eexists; by split_and!].
    destruct Hready as [Hlen Hfit].
    destruct (setJvmInfo_returns GC info s Hlen Hfit) as (img & ->).
    eexists. by split_and!.
Qed.
End FlagClaim.

(** * The is-cleared flag: examples *)

Section FlagExamples.
Lemma demo_class_wf : container_wf demo_class.1 demo_class.2.
Proof. apply (pushNewClass_container_wf _ _ 100%N all_ok demo_container_wf). Qed.

Lemma demo_class_cleared : cleared_inv demo_class.
Proof.
  intros _ d k Hd Hn.
  assert (k = brk demo_heap) as ->.
  { revert Hd. unfold demo_class.
    destruct (pushNewClass_ok demo_heap demo_container 100 all_ok demo_heap_wf eq_refl)
      as (h' & -> & _). cbn [snd counterMap].
    unfold demo_container, TSnapShotContainer_ctor. cbn [counterMap].
    intros Hd. apply lookup_insert_Some in Hd as [[_ <-]|[_ Hd]]; [done|].
    by rewrite lookup_empty in Hd. }
  apply (pushNewClass_new_zero demo_heap demo_container 100 all_ok demo_heap_wf eq_refl).
Qed.

Lemma flag_invariant_preserved_witness :
  container_wf demo_class.1 (setSnapShotCause demo_GC demo_class.2) ∧
  op_ready demo_GC (OpSetJvmInfo (Some (demo_cause_of 143)))
    (demo_class.1, setSnapShotCause demo_GC demo_class.2) ∧
  load_jint off_cause (_header (setSnapShotCause demo_GC demo_class.2)) = demo_GC ∧
  cleared_inv (demo_class.1, setSnapShotCause demo_GC demo_class.2) ∧
  ∃ hs', run_op demo_GC (OpSetJvmInfo (Some (demo_cause_of 143)))
           (demo_class.1, setSnapShotCause demo_GC demo_class.2) = Some hs' ∧
         cleared_inv hs' ∧ container_wf hs'.1 hs'.2.
Proof.
  assert (op_ready demo_GC (OpSetJvmInfo (Some (demo_cause_of 143)))
            (demo_class.1, setSnapShotCause demo_GC demo_class.2)) as Hready.
  { split; [by vm_compute|]. intros _. vm_compute. lia. }
  split; [apply demo_class_wf|]. split; [exact Hready|]. split; [by vm_compute|].
  split; [apply demo_class_cleared|].
  apply (flag_invariant_preserved demo_GC (OpSetJvmInfo (Some (demo_cause_of 143)))
           demo_class.1 (setSnapShotCause demo_GC demo_class.2)).
  - apply demo_class_wf.
  - exact Hready.
  - discriminate.
  - apply demo_class_cleared.
Defined.

(** C5 as it is stated fails for the counting operations.  On a
    container whose flag is set, with every counter zero, addInc and Inc
    each leave the flag set and the counter of the class at (1, 24): the
    predicate no longer holds.  setJvmInfo at a GC snapshot with a cause
    of 144 bytes writes the terminator past the header, into the members
    that follow it: no state results of which the predicate could be
    read. *)
Lemma flag_invariant_broken_by_counting :
  container_wf demo_class.1 demo_class.2 ∧ cleared_inv demo_class ∧
  isCleared demo_class.2 = true ∧
  is_Some (objCounters demo_class.1 !! 65%N) ∧ is_Some (objCounters demo_class.1 !! 50%N) ∧
  (∃ hs', run_op demo_GC (OpAddInc 65 50) demo_class = Some hs' ∧
          isCleared hs'.2 = true ∧
          objCounters hs'.1 !! 65%N = Some (mkObjectCounter 1 24) ∧
          ¬ cleared_inv hs') ∧
  (∃ hs', run_op demo_GC (OpInc 65 24) demo_class = Some hs' ∧
          isCleared hs'.2 = true ∧
          objCounters hs'.1 !! 65%N = Some (mkObjectCounter 1 24) ∧
          ¬ cleared_inv hs') ∧
  load_jint off_cause (_header (setSnapShotCause demo_GC demo_class.2)) = demo_GC ∧
  run_op demo_GC (OpSetJvmInfo (Some (demo_cause_of 144)))
    (demo_class.1, setSnapShotCause demo_GC demo_class.2) = None.
Proof.
  split; [apply demo_class_wf|]. split; [apply demo_class_cleared|].
  split; [by vm_compute|]. split; [vm_compute; by eexists|]. split; [vm_compute; by eexists|].
  assert (∀ hs', isCleared hs'.2 = true → counterMap hs'.2 !! 100%N = Some 64%N →
            classCounters hs'.1 !! 64%N = Some (mkClassCounter 65 NULL 0 NULL (-1)) →
            objCounters hs'.1 !! 65%N = Some (mkObjectCounter 1 24) → ¬ cleared_inv hs')
    as Hbroken.
  { intros hs' Hc Hd Hk Ho Hinv.
    destruct (Hinv Hc 100%N 64%N Hd) as (cls & Hcls & Hz & _); [by vm_compute|].
    rewrite Hk in Hcls. injection Hcls as <-. cbn [counter] in Hz.
    rewrite Ho in Hz. discriminate. }
  split_and!.
  - eexists. split; [by vm_compute|]. split; [by vm_compute|]. split; [by vm_compute|].
    apply Hbroken; by vm_compute.
  - eexists. split; [by vm_compute|]. split; [by vm_compute|]. split; [by vm_compute|].
    apply Hbroken; by vm_compute.
  - by vm_compute.
  - by vm_compute.
Qed.
End FlagExamples.

(** * Bytes of the header *)

Section Bytes.
Implicit Types (img bs : list byte) (off width : nat) (z : Z).

Lemma Z_of_byte_of_Z z : Z_of_byte (byte_of_Z z) = (z mod 256)%Z.
Proof.
  unfold Z_of_byte, byte_of_Z.
  pose proof (Z.mod_pos_bound z 256 eq_refl) as Hb.
  destruct (Byte.of_N (Z.to_N (z mod 256))) as [b|] eqn:E.
  - simpl. rewrite (@Byte.to_of_N _ b E). by rewrite Z2N.id by lia.
  - apply Byte.of_N_None_iff in E. lia.
Qed.

Lemma length_encode_le width : ∀ z, length (encode_le width z) = width.
Proof. induction width as [|w IH]; intros z; simpl; [done|]. by rewrite IH. Qed.

Lemma decode_encode_le width : ∀ z,
  decode_le (encode_le width z) = (z mod 256 ^ Z.of_nat width)%Z.
Proof.
  induction width as [|w IH]; intros z.
  - simpl. by rewrite Z.mod_1_r.
  - cbn [encode_le decode_le]. rewrite Z_of_byte_of_Z, IH.
    rewrite Nat2Z.inj_succ, Z.pow_succ_r by lia.
    rewrite Z.rem_mul_r by lia. done.
Qed.

Lemma load_bytes_lookup off width img i :
  load_bytes off width img !! i = if decide (i < width) then img !! (off + i) else None.
Proof.
  unfold load_bytes. case_decide.
  - by rewrite lookup_take_lt, lookup_drop.
  - rewrite lookup_take_ge; [done|lia].
Qed.

Lemma load_bytes_ext off width img img' :
  (∀ i, off ≤ i < off + width → img' !! i = img !! i) →
  load_bytes off width img' = load_bytes off width img.
Proof.
  intros H. apply list_eq. intros i. rewrite !load_bytes_lookup.
  case_decide; [|done]. apply H. lia.
Qed.

Lemma load_bytes_inserts_ne off width off' bs img :
  off + width ≤ off' ∨ off' + length bs ≤ off →
  load_bytes off width (list_inserts off' bs img) = load_bytes off width img.
Proof.
  intros H. apply load_bytes_ext. intros i Hi.
  destruct H; [apply list_lookup_inserts_lt|apply list_lookup_inserts_ge]; lia.
Qed.

Lemma load_bytes_inserts_eq off bs img :
  off + length bs ≤ length img →
  load_bytes off (length bs) (list_inserts off bs img) = bs.
Proof.
  intros H. apply list_eq. intros i. rewrite load_bytes_lookup.
  case_decide as Hi.
  - rewrite list_lookup_inserts by lia. f_equal. lia.
  - symmetry. apply lookup_ge_None. lia.
Qed.

Lemma load_uint_store off width z img :
  off + width ≤ length img →
  load_uint off width (store_int off width z img) = (z mod 256 ^ Z.of_nat width)%Z.
Proof.
  intros H. unfold load_uint, store_int.
  rewrite <- (length_encode_le width z) at 1.
  rewrite load_bytes_inserts_eq by (by rewrite length_encode_le).
  apply decode_encode_le.
Qed.

Lemma wrap64_mod z : wrap64 (z mod 2 ^ 64) = wrap64 z.
Proof.
  unfold wrap64. f_equal. rewrite <- (Z.add_mod_idemp_l z) by lia. done.
Qed.

Lemma wrap64_small z : (- 2 ^ 63 ≤ z < 2 ^ 63)%Z → wrap64 z = z.
Proof. intros H. unfold wrap64. rewrite Z.mod_small; lia. Qed.

Lemma load_jlong_store off z img :
  off + 8 ≤ length img → load_jlong off (store_int off 8 z img) = wrap64 z.
Proof.
  intros H. unfold load_jlong. rewrite load_uint_store by done.
  apply wrap64_mod.
Qed.

Lemma load_jint_store off z img :
  off + 4 ≤ length img → (- 2 ^ 31 ≤ z < 2 ^ 31)%Z →
  load_jint off (store_int off 4 z img) = z.
Proof.
  intros H Hz. unfold load_jint. rewrite load_uint_store by done.
  change (256 ^ Z.of_nat 4)%Z with (2 ^ 32)%Z.
  destruct (decide (0 ≤ z)%Z).
  - rewrite Z.mod_small by lia. rewrite decide_True by lia. done.
  - replace (z mod 2 ^ 32)%Z with (z + 2 ^ 32)%Z.
    + rewrite decide_False by lia. lia.
    + rewrite <- (Z.mod_small (z + 2 ^ 32) (2 ^ 32)) by lia.
      rewrite <- (Z.mul_1_l (2 ^ 32)) at 1. by rewrite Z.mod_add by lia.
Qed.

Lemma load_uint_store_ne off width off' width' z img :
  off + width ≤ off' ∨ off' + width' ≤ off →
  load_uint off width (store_int off' width' z img) = load_uint off width img.
Proof.
  intros H. unfold load_uint, store_int. rewrite load_bytes_inserts_ne; [done|].
  by rewrite length_encode_le.
Qed.

Lemma load_jlong_store_ne off off' width' z img :
  off + 8 ≤ off' ∨ off' + width' ≤ off →
  load_jlong off (store_int off' width' z img) = load_jlong off img.
Proof. intros H. unfold load_jlong. by rewrite load_uint_store_ne. Qed.

Lemma load_jint_store_ne off off' width' z img :
  off + 4 ≤ off' ∨ off' + width' ≤ off →
  load_jint off (store_int off' width' z img) = load_jint off img.
Proof. intros H. unfold load_jint. by rewrite load_uint_store_ne. Qed.

Lemma length_store_int off width z img :
  length (store_int off width z img) = length img.
Proof. apply length_inserts. Qed.

Lemma store_int_lookup_ne off width z img i :
  i < off ∨ off + width ≤ i → store_int off width z img !! i = img !! i.
Proof.
  intros H. unfold store_int.
  destruct H; [apply list_lookup_inserts_lt|apply list_lookup_inserts_ge];
    rewrite ?length_encode_le; lia.
Qed.
End Bytes.

(** * Fields of the header *)

Section HeaderFields.
Implicit Types (img bs src : list byte) (s : TSnapShotContainer).

Lemma c_str_no_nul src : x00 ∉ c_str src.
Proof.
  induction src as [|b src IH]; simpl; [by inversion 1|].
  case_decide; [by inversion 1|]. apply not_elem_of_cons. done.
Qed.

Lemma c_str_app_nul bs rest : x00 ∉ bs → c_str (bs ++ x00 :: rest) = bs.
Proof.
  induction bs as [|b bs IH]; intros Hn; simpl; [by rewrite ?decide_True|].
  apply not_elem_of_cons in Hn as [Hb Hn].
  rewrite decide_False by done. by rewrite IH.
Qed.

Lemma c_str_all bs : x00 ∉ bs → c_str bs = bs.
Proof.
  induction bs as [|b bs IH]; intros Hn; simpl; [done|].
  apply not_elem_of_cons in Hn as [Hb Hn].
  rewrite decide_False by done. by rewrite IH.
Qed.

Lemma drop_list_inserts off bs img :
  off + length bs ≤ length img →
  drop off (list_inserts off bs img) = bs ++ drop (off + length bs) img.
Proof.
  intros H. apply list_eq. intros i. rewrite lookup_drop.
  destruct (decide (i < length bs)) as [Hi|Hi].
  - rewrite list_lookup_inserts by lia. rewrite lookup_app_l by done. f_equal. lia.
  - rewrite list_lookup_inserts_ge by lia. rewrite lookup_app_r by lia.
    rewrite lookup_drop. f_equal. lia.
Qed.

Lemma strlen_strcpy off src img img' :
  strcpy off src img = Some img' →
  strlen off img' = Some (Z.of_nat (length (c_str src))).
Proof.
  unfold strcpy. case_decide as Hfit; [|done]. intros [= <-].
  unfold strlen. rewrite drop_list_inserts by done.
  rewrite <- app_assoc. cbn [app].
  rewrite decide_True by (apply elem_of_app; right; apply list_elem_of_here).
  by rewrite c_str_app_nul by apply c_str_no_nul.
Qed.

(** The image that setJvmInfo leaves at a GC snapshot, for every cause
    string that strcpy can store within the image. *)
Lemma setJvmInfo_gc_image GC info s :
  length (_header s) = sizeof_TSnapShotFileHeader →
  load_jint off_cause (_header s) = GC →
  off_gcCause + length (c_str (getGCCause info)) < sizeof_TSnapShotFileHeader →
  setJvmInfo GC (Some info) s =
    Some (with_header s
      (store_int off_metaspaceCapacity 8 (getMetaspaceCapacity info)
      (store_int off_metaspaceUsage 8 (getMetaspaceUsage info)
      (store_int off_oldAreaSize 8 (getOldAreaSize info)
      (store_int off_newAreaSize 8 (getNewAreaSize info)
      (store_int off_YGCCount 8 (getYGCCount info)
      (store_int off_FGCCount 8 (getFGCCount info)
      (store_int off_gcWorktime 8 (getGCWorktime info)
      (store_int off_gcCauseLen 8 (Z.of_nat (length (c_str (getGCCause info))))
      (list_inserts off_gcCause (c_str (getGCCause info) ++ [x00]) (_header s))))))))))).
Proof.
  intros Hlen Hc Hfit. unfold setJvmInfo. rewrite decide_True by done.
  assert (strcpy off_gcCause (getGCCause info) (_header s) =
          Some (list_inserts off_gcCause (c_str (getGCCause info) ++ [x00]) (_header s)))
    as Hcpy.
  { unfold strcpy. rewrite decide_True; [done|].
    rewrite length_app, Hlen. cbn [length]. lia. }
  rewrite Hcpy. cbn [mbind option_bind].
  rewrite (strlen_strcpy _ _ _ _ Hcpy). done.
Qed.

Lemma jvm_counts_stored info img :
  length img = sizeof_TSnapShotFileHeader →
  jvm_counts_set info
    (store_int off_metaspaceCapacity 8 (getMetaspaceCapacity info)
    (store_int off_metaspaceUsage 8 (getMetaspaceUsage info)
    (store_int off_oldAreaSize 8 (getOldAreaSize info)
    (store_int off_newAreaSize 8 (getNewAreaSize info)
    (store_int off_YGCCount 8 (getYGCCount info)
    (store_int off_FGCCount 8 (getFGCCount info) img)))))).
Proof.
  intros Hlen. unfold jvm_counts_set.
  split_and!;
    repeat first
      [ rewrite load_jlong_store by (rewrite ?length_store_int, Hlen; offsets; lia)
      | rewrite load_jlong_store_ne by (offsets; lia) ]; done.
Qed.
End HeaderFields.

(** * setJvmInfo *)

Section HeaderTheorems.
Implicit Types (img bs src : list byte) (s : TSnapShotContainer).

Lemma load_bytes_store_ne off width off' width' z img :
  off + width ≤ off' ∨ off' + width' ≤ off →
  load_bytes off width (store_int off' width' z img) = load_bytes off width img.
Proof.
  intros H. unfold store_int. apply load_bytes_inserts_ne. by rewrite length_encode_le.
Qed.

Lemma load_jlong_inserts_ne off off' bs img :
  off + 8 ≤ off' ∨ off' + length bs ≤ off →
  load_jlong off (list_inserts off' bs img) = load_jlong off img.
Proof. intros H. unfold load_jlong, load_uint. by rewrite load_bytes_inserts_ne. Qed.

Lemma jvm_fields_kept_gc info img bs :
  off_gcCause + length bs ≤ off_totalHeapSize →
  jvm_fields_kept img
    (store_int off_metaspaceCapacity 8 (getMetaspaceCapacity info)
    (store_int off_metaspaceUsage 8 (getMetaspaceUsage info)
    (store_int off_oldAreaSize 8 (getOldAreaSize info)
    (store_int off_newAreaSize 8 (getNewAreaSize info)
    (store_int off_YGCCount 8 (getYGCCount info)
    (store_int off_FGCCount 8 (getFGCCount info)
    (store_int off_gcWorktime 8 (getGCWorktime info)
    (store_int off_gcCauseLen 8 (Z.of_nat (length bs - 1))
    (list_inserts off_gcCause bs img))))))))).
Proof.
  intros Hfit. unfold jvm_fields_kept.
  split; [by rewrite !length_store_int, length_inserts|].
  split; rewrite !load_bytes_store_ne by (offsets; lia);
    apply load_bytes_inserts_ne; offsets; lia.
Qed.

(** X1. setJvmInfo at a GC snapshot, with a cause string shorter than the
    80 bytes of gcCause: it returns; the field then holds the string and
    its terminator, gcCauseLen its length, gcWorktime and the six counters
    the values of the TJvmInfo (as 64-bit integers); the fields before
    gcCauseLen, the total heap size, the class map and the flag are what
    they were. *)
Theorem setJvmInfo_gc_cause_fits GC info s :
  length (_header s) = sizeof_TSnapShotFileHeader →
  load_jint off_cause (_header s) = GC →
  length (c_str (getGCCause info)) < sizeof_gcCause →
  ∃ s', setJvmInfo GC (Some info) s = Some s' ∧
    counterMap s' = counterMap s ∧ isCleared s' = isCleared s ∧
    c_str (load_bytes off_gcCause sizeof_gcCause (_header s')) = c_str (getGCCause info) ∧
    load_jlong off_gcCauseLen (_header s') = Z.of_nat (length (c_str (getGCCause info))) ∧
    load_jlong off_gcWorktime (_header s') = wrap64 (getGCWorktime info) ∧
    jvm_counts_set info (_header s') ∧
    jvm_fields_kept (_header s) (_header s').
Proof.
  intros Hlen Hc Hfit.
  rewrite setJvmInfo_gc_image by (try done; offsets; lia).
  eexists. split; [done|]. cbn [with_header counterMap isCleared _header].
  set (src := c_str (getGCCause info)) in *.
  assert (length (src ++ [x00]) = S (length src)) as Hl
    by (rewrite length_app; cbn [length]; lia).
  split_and!; try done.
  - rewrite !load_bytes_store_ne by (offsets; lia).
    unfold load_bytes. rewrite drop_list_inserts by (rewrite Hl, Hlen; offsets; lia).
    rewrite take_app_ge by (rewrite Hl; offsets; lia).
    rewrite <- app_assoc. cbn [app].
    by rewrite c_str_app_nul by apply c_str_no_nul.
  - rewrite !load_jlong_store_ne by (offsets; lia).
    rewrite load_jlong_store by (rewrite length_inserts, Hlen; offsets; lia).
    apply wrap64_small. pose proof (Nat2Z.is_nonneg (length src)). offsets. lia.
  - rewrite !load_jlong_store_ne by (offsets; lia).
    apply load_jlong_store.
    rewrite ?length_store_int, length_inserts, Hlen. offsets. lia.
  - apply jvm_counts_stored. by rewrite !length_store_int, length_inserts.
  - pose proof (jvm_fields_kept_gc info (_header s) (src ++ [x00])) as Hk.
    rewrite Hl in Hk. replace (S (length src) - 1) with (length src) in Hk by lia.
    apply Hk. offsets. lia.
Qed.

Lemma setJvmInfo_gc_cause_fits_witness :
  ∃ s', setJvmInfo demo_GC (Some demo_short_cause) demo_gc_container = Some s' ∧
    c_str (load_bytes off_gcCause sizeof_gcCause (_header s')) = ["G"%byte; "C"%byte] ∧
    load_jlong off_gcCauseLen (_header s') = 2%Z.
Proof.
  destruct (setJvmInfo_gc_cause_fits demo_GC demo_short_cause demo_gc_container)
    as (s' & Hrun & _ & _ & Hstr & Hlen & _).
  - vm_compute. reflexivity.
  - vm_compute. reflexivity.
  - vm_compute. lia.
  - exists s'. split; [exact Hrun|]. split; [exact Hstr|exact Hlen].
Defined.

(** X2. setJvmInfo at a GC snapshot, with a cause string of 80 to 119
    bytes: strcpy overruns gcCause, but only into the fields that
    setJvmInfo assigns afterwards.  It returns with every counter and
    gcWorktime as in the TJvmInfo and the total heap size kept; gcCause
    holds the first 80 bytes of the string, with no terminator among
    them, and gcCauseLen holds the length of the whole string. *)
Theorem setJvmInfo_gc_overrun_masked GC info s :
  length (_header s) = sizeof_TSnapShotFileHeader →
  load_jint off_cause (_header s) = GC →
  sizeof_gcCause ≤ length (c_str (getGCCause info)) →
  off_gcCause + length (c_str (getGCCause info)) < off_totalHeapSize →
  ∃ s', setJvmInfo GC (Some info) s = Some s' ∧
    load_bytes off_gcCause sizeof_gcCause (_header s')
      = take sizeof_gcCause (c_str (getGCCause info)) ∧
    (x00 ∉ load_bytes off_gcCause sizeof_gcCause (_header s')) ∧
    load_jlong off_gcCauseLen (_header s') = Z.of_nat (length (c_str (getGCCause info))) ∧
    load_jlong off_gcWorktime (_header s') = wrap64 (getGCWorktime info) ∧
    jvm_counts_set info (_header s') ∧
    jvm_fields_kept (_header s) (_header s').
Proof.
  intros Hlen Hc Hlong Hfit.
  rewrite setJvmInfo_gc_image by (try done; offsets; lia).
  eexists. split; [done|]. cbn [with_header counterMap isCleared _header].
  set (src := c_str (getGCCause info)) in *.
  assert (length (src ++ [x00]) = S (length src)) as Hl
    by (rewrite length_app; cbn [length]; lia).
  assert (load_bytes off_gcCause sizeof_gcCause
            (list_inserts off_gcCause (src ++ [x00]) (_header s))
          = take sizeof_gcCause src) as Hfield.
  { unfold load_bytes. rewrite drop_list_inserts by (rewrite Hl, Hlen; offsets; lia).
    rewrite <- app_assoc. by rewrite take_app_le by done. }
  split_and!.
  - by rewrite !load_bytes_store_ne by (offsets; lia).
  - rewrite !load_bytes_store_ne by (offsets; lia). rewrite Hfield.
    intros Hin. apply (c_str_no_nul (getGCCause info)).
    apply elem_of_take in Hin as (i & Hi & _). eapply list_elem_of_lookup_2, Hi.
  - rewrite !load_jlong_store_ne by (offsets; lia).
    rewrite load_jlong_store by (rewrite length_inserts, Hlen; offsets; lia).
    apply wrap64_small. pose proof (Nat2Z.is_nonneg (length src)). offsets. lia.
  - rewrite !load_jlong_store_ne by (offsets; lia).
    apply load_jlong_store.
    rewrite ?length_store_int, length_inserts, Hlen. offsets. lia.
  - apply jvm_counts_stored. by rewrite !length_store_int, length_inserts.
  - pose proof (jvm_fields_kept_gc info (_header s) (src ++ [x00])) as Hk.
    rewrite Hl in Hk. replace (S (length src) - 1) with (length src) in Hk by lia.
    apply Hk. offsets. lia.
Qed.

Lemma setJvmInfo_gc_overrun_masked_witness :
  ∃ s', setJvmInfo demo_GC (Some (demo_cause_of 100)) demo_gc_container = Some s' ∧
    (x00 ∉ load_bytes off_gcCause sizeof_gcCause (_header s')) ∧
    load_jlong off_gcCauseLen (_header s') = 100%Z.
Proof.
  destruct (setJvmInfo_gc_overrun_masked demo_GC (demo_cause_of 100) demo_gc_container)
    as (s' & Hrun & _ & Hnul & Hlen & _).
  - vm_compute. reflexivity.
  - vm_compute. reflexivity.
  - vm_compute. lia.
  - vm_compute. lia.
  - exists s'. split; [exact Hrun|]. split; [exact Hnul|exact Hlen].
Defined.

(** X3. setJvmInfo at a snapshot whose cause is not GC: gcCauseLen is 1
    (not the length 0 of the string), the first byte of gcCause is the
    terminator and the other 79 bytes keep what an earlier cause left,
    gcWorktime is 0, the six counters are those of the TJvmInfo, and the
    other fields, the class map and the flag are what they were. *)
Theorem setJvmInfo_other_cause GC info s :
  length (_header s) = sizeof_TSnapShotFileHeader →
  load_jint off_cause (_header s) ≠ GC →
  ∃ s', setJvmInfo GC (Some info) s = Some s' ∧
    counterMap s' = counterMap s ∧ isCleared s' = isCleared s ∧
    load_jlong off_gcCauseLen (_header s') = 1%Z ∧
    c_str (load_bytes off_gcCause sizeof_gcCause (_header s')) = [] ∧
    load_bytes (S off_gcCause) (sizeof_gcCause - 1) (_header s')
      = load_bytes (S off_gcCause) (sizeof_gcCause - 1) (_header s) ∧
    load_jlong off_gcWorktime (_header s') = 0%Z ∧
    jvm_counts_set info (_header s') ∧
    jvm_fields_kept (_header s) (_header s').
Proof.
  intros Hlen Hc. unfold setJvmInfo. rewrite decide_False by done.
  cbn [mbind option_bind].
  eexists. split; [done|]. cbn [with_header counterMap isCleared _header].
  split_and!; try done.
  - rewrite !load_jlong_store_ne by (offsets; lia).
    rewrite load_jlong_inserts_ne by (cbn [length]; offsets; lia).
    rewrite load_jlong_store by (rewrite Hlen; offsets; lia). done.
  - rewrite !load_bytes_store_ne by (offsets; lia).
    unfold load_bytes.
    rewrite drop_list_inserts by (rewrite length_store_int, Hlen; cbn [length]; offsets; lia).
    cbn [app]. offsets. cbn [take c_str]. by rewrite decide_True.
  - rewrite !load_bytes_store_ne by (offsets; lia).
    rewrite load_bytes_inserts_ne by (cbn [length]; offsets; lia).
    by rewrite load_bytes_store_ne by (offsets; lia).
  - rewrite !load_jlong_store_ne by (offsets; lia).
    rewrite load_jlong_store; [done|].
    rewrite length_inserts, length_store_int, Hlen. offsets. lia.
  - apply jvm_counts_stored.
    by rewrite length_store_int, length_inserts, length_store_int.
  - unfold jvm_fields_kept.
    split; [by rewrite !length_store_int, length_inserts, length_store_int|].
    split; rewrite !load_bytes_store_ne by (offsets; lia);
      (rewrite load_bytes_inserts_ne by (cbn [length]; offsets; lia));
      by rewrite load_bytes_store_ne by (offsets; lia).
Qed.

Lemma setJvmInfo_other_cause_witness :
  ∃ s', setJvmInfo 7 (Some demo_short_cause) demo_gc_container = Some s' ∧
    load_jlong off_gcCauseLen (_header s') = 1%Z ∧
    c_str (load_bytes off_gcCause sizeof_gcCause (_header s')) = [].
Proof.
  destruct (setJvmInfo_other_cause 7 demo_short_cause demo_gc_container)
    as (s' & Hrun & _ & _ & Hlen & Hstr & _).
  - vm_compute. reflexivity.
  - vm_compute. discriminate.
  - exists s'. split; [exact Hrun|]. split; [exact Hlen|exact Hstr].
Defined.
End HeaderTheorems.

(** * The constructor, the setters and the fields nothing assigns *)

Section Constructor.
Implicit Types (img raw : list byte) (s : TSnapShotContainer) (cfg : config).

Lemma length_ctor cfg raw : length (_header (TSnapShotContainer_ctor cfg raw)) = length raw.
Proof.
  unfold TSnapShotContainer_ctor. cbn [_header].
  by rewrite length_inserts, !length_store_int, length_inserts, length_store_int.
Qed.

Lemma load_uint_inserts_ne off width off' bs img :
  off + width ≤ off' ∨ off' + length bs ≤ off →
  load_uint off width (list_inserts off' bs img) = load_uint off width img.
Proof. intros H. unfold load_uint. by rewrite load_bytes_inserts_ne. Qed.

(** X4. The constructor on the memory of a new object: the magic number is
    EXTENDED_REFTREE_SNAPSHOT or EXTENDED_SNAPSHOT by the configuration,
    the byte order mark is BOM, the snapshot time and the size are 0,
    the 80 bytes of gcCause are 0, the flag is set, findClass finds no
    class, and the destructor of such a container frees nothing. *)
Theorem constructor_initialises cfg raw :
  length raw = sizeof_TSnapShotFileHeader →
  load_uint off_magicNumber 1 (_header (TSnapShotContainer_ctor cfg raw))
    = (if CollectRefTree cfg then EXTENDED_REFTREE_SNAPSHOT else EXTENDED_SNAPSHOT) ∧
  load_bytes off_byteOrderMark 1 (_header (TSnapShotContainer_ctor cfg raw)) = [BOM cfg] ∧
  load_jlong off_snapShotTime (_header (TSnapShotContainer_ctor cfg raw)) = 0%Z ∧
  getContainerSize (TSnapShotContainer_ctor cfg raw) = 0%Z ∧
  load_bytes off_gcCause sizeof_gcCause (_header (TSnapShotContainer_ctor cfg raw))
    = replicate 80 x00 ∧
  isCleared (TSnapShotContainer_ctor cfg raw) = true ∧
  (∀ objData, findClass objData (TSnapShotContainer_ctor cfg raw) = NULL) ∧
  (∀ h, TSnapShotContainer_dtor (h, TSnapShotContainer_ctor cfg raw) = Some h).
Proof.
  intros Hlen. unfold getContainerSize. unfold TSnapShotContainer_ctor.
  cbn [_header isCleared].
  split_and!.
  - rewrite load_uint_inserts_ne by (rewrite length_replicate; offsets; lia).
    rewrite !load_uint_store_ne by (offsets; lia).
    rewrite load_uint_inserts_ne by (cbn [length]; offsets; lia).
    rewrite load_uint_store by (rewrite Hlen; offsets; lia).
    by destruct (CollectRefTree cfg).
  - rewrite load_bytes_inserts_ne by (rewrite length_replicate; offsets; lia).
    rewrite !load_bytes_store_ne by (offsets; lia).
    apply (load_bytes_inserts_eq off_byteOrderMark [BOM cfg]).
    rewrite length_store_int, Hlen. cbn [length]. offsets. lia.
  - rewrite load_jlong_inserts_ne by (rewrite length_replicate; offsets; lia).
    rewrite load_jlong_store_ne by (offsets; lia).
    rewrite load_jlong_store; [done|].
    rewrite length_inserts, length_store_int, Hlen. offsets. lia.
  - rewrite load_uint_inserts_ne by (rewrite length_replicate; offsets; lia).
    rewrite load_uint_store; [done|].
    rewrite length_store_int, length_inserts, length_store_int, Hlen. offsets. lia.
  - apply (load_bytes_inserts_eq off_gcCause (replicate 80 x00)).
    rewrite !length_store_int, length_inserts, length_store_int, Hlen, length_replicate.
    offsets. lia.
  - done.
  - intros d. unfold findClass. cbn [counterMap]. by rewrite lookup_empty.
  - intros h. unfold TSnapShotContainer_dtor. cbn [fst snd counterMap].
    by rewrite map_to_list_empty.
Qed.

Lemma constructor_initialises_witness :
  length (replicate 174 x41) = sizeof_TSnapShotFileHeader ∧
  getContainerSize (TSnapShotContainer_ctor demo_config (replicate 174 x41)) = 0%Z ∧
  load_uint off_magicNumber 1 (_header (TSnapShotContainer_ctor demo_config (replicate 174 x41)))
    = 128%Z.
Proof.
  assert (length (replicate 174 x41) = sizeof_TSnapShotFileHeader) as H by reflexivity.
  split; [exact H|].
  destruct (constructor_initialises demo_config (replicate 174 x41) H)
    as (Hm & _ & _ & Hs & _).
  split; [exact Hs|exact Hm].
Defined.

(** X5. The constructor assigns neither the cause, nor gcCauseLen, nor any
    field after gcCause: on a new container they read what the memory
    held before the constructor ran. *)
Theorem constructor_leaves_uninitialised cfg raw :
  length raw = sizeof_TSnapShotFileHeader →
  load_jint off_cause (_header (TSnapShotContainer_ctor cfg raw)) = load_jint off_cause raw ∧
  load_jlong off_gcCauseLen (_header (TSnapShotContainer_ctor cfg raw))
    = load_jlong off_gcCauseLen raw ∧
  load_bytes off_FGCCount (sizeof_TSnapShotFileHeader - off_FGCCount)
      (_header (TSnapShotContainer_ctor cfg raw))
    = load_bytes off_FGCCount (sizeof_TSnapShotFileHeader - off_FGCCount) raw.
Proof.
  intros Hlen. unfold TSnapShotContainer_ctor. cbn [_header]. unfold load_jint, load_jlong.
  split_and!.
  - rewrite load_uint_inserts_ne by (rewrite length_replicate; offsets; lia).
    rewrite !load_uint_store_ne by (offsets; lia).
    rewrite load_uint_inserts_ne by (cbn [length]; offsets; lia).
    by rewrite load_uint_store_ne by (offsets; lia).
  - rewrite load_uint_inserts_ne by (rewrite length_replicate; offsets; lia).
    rewrite !load_uint_store_ne by (offsets; lia).
    rewrite load_uint_inserts_ne by (cbn [length]; offsets; lia).
    by rewrite load_uint_store_ne by (offsets; lia).
  - rewrite load_bytes_inserts_ne by (rewrite length_replicate; offsets; lia).
    rewrite !load_bytes_store_ne by (offsets; lia).
    rewrite load_bytes_inserts_ne by (cbn [length]; offsets; lia).
    by rewrite load_bytes_store_ne by (offsets; lia).
Qed.

Lemma constructor_leaves_uninitialised_witness :
  length (replicate 174 x41) = sizeof_TSnapShotFileHeader ∧
  load_jint off_cause (_header (TSnapShotContainer_ctor demo_config (replicate 174 x41)))
    = 1094795585%Z.
Proof.
  assert (length (replicate 174 x41) = sizeof_TSnapShotFileHeader) as H by reflexivity.
  split; [exact H|].
  destruct (constructor_leaves_uninitialised demo_config (replicate 174 x41) H) as (Hc & _).
  rewrite Hc. vm_compute. reflexivity.
Defined.
End Constructor.

Section Setters.
Implicit Types (img raw : list byte) (s : TSnapShotContainer).

(** X6. setSnapShotTime, setSnapShotCause and setTotalSize: the field reads
    back the value (as a 64-bit integer; a cause within the range of
    jint as it is), and every byte of the packed header outside the field
    is what it was. *)
Theorem setters_write_their_field s t cause size :
  length (_header s) = sizeof_TSnapShotFileHeader →
  (- 2 ^ 31 ≤ cause < 2 ^ 31)%Z →
  load_jlong off_snapShotTime (_header (setSnapShotTime t s)) = wrap64 t ∧
  load_jint off_cause (_header (setSnapShotCause cause s)) = cause ∧
  load_jlong off_totalHeapSize (_header (setTotalSize size s)) = wrap64 size ∧
  (∀ i, ¬ off_snapShotTime ≤ i < off_snapShotTime + 8 →
        _header (setSnapShotTime t s) !! i = _header s !! i) ∧
  (∀ i, ¬ off_cause ≤ i < off_cause + 4 →
        _header (setSnapShotCause cause s) !! i = _header s !! i) ∧
  (∀ i, ¬ off_totalHeapSize ≤ i < off_totalHeapSize + 8 →
        _header (setTotalSize size s) !! i = _header s !! i).
Proof.
  intros Hlen Hc. unfold setSnapShotTime, setSnapShotCause, setTotalSize.
  cbn [with_header _header]. split_and!.
  - apply load_jlong_store. rewrite Hlen. offsets. lia.
  - apply load_jint_store; [rewrite Hlen; offsets; lia|done].
  - apply load_jlong_store. rewrite Hlen. offsets. lia.
  - intros i Hi. apply store_int_lookup_ne. lia.
  - intros i Hi. apply store_int_lookup_ne. lia.
  - intros i Hi. apply store_int_lookup_ne. lia.
Qed.

Lemma setters_write_their_field_witness :
  length (_header demo_container) = sizeof_TSnapShotFileHeader ∧
  (- 2 ^ 31 ≤ 3 < 2 ^ 31)%Z ∧
  load_jint off_cause (_header (setSnapShotCause 3 demo_container)) = 3%Z ∧
  load_jlong off_snapShotTime (_header (setSnapShotTime (-1) demo_container)) = (-1)%Z.
Proof.
  assert (length (_header demo_container) = sizeof_TSnapShotFileHeader) as H
    by (vm_compute; reflexivity).
  assert (- 2 ^ 31 ≤ 3 < 2 ^ 31)%Z as Hc by lia.
  split; [exact H|]. split; [exact Hc|].
  destruct (setters_write_their_field demo_container (-1) 3 0 H Hc) as (Ht & Hcause & _).
  split; [exact Hcause|]. rewrite Ht. reflexivity.
Defined.
End Setters.

Section HeaderIdentity.
Implicit Types (img raw : list byte) (s : TSnapShotContainer) (hs : heap * TSnapShotContainer).

(** The first 18 bytes of the header without the snapshot time: the magic
    number, the byte order mark and the size. *)
Lemma setJvmInfo_low_bytes GC info s s' i :
  setJvmInfo GC info s = Some s' → i < off_gcCauseLen →
  _header s' !! i = _header s !! i.
Proof.
  intros Hrun Hi. destruct info as [info|]; [|by injection Hrun as <-].
  unfold setJvmInfo in Hrun. case_decide as Hc.
  - destruct (strcpy off_gcCause (getGCCause info) (_header s)) as [img|] eqn:Hcpy;
      [|done]. cbn [mbind option_bind] in Hrun.
    destruct (strlen off_gcCause img) as [len|]; [|done].
    cbn [mbind option_bind] in Hrun. injection Hrun as <-. cbn [with_header _header].
    rewrite !store_int_lookup_ne by (offsets; lia).
    unfold strcpy in Hcpy. case_decide; [|done]. injection Hcpy as <-.
    apply list_lookup_inserts_lt. offsets. lia.
  - cbn [mbind option_bind] in Hrun. injection Hrun as <-. cbn [with_header _header].
    rewrite !store_int_lookup_ne by (offsets; lia).
    rewrite list_lookup_insert_ne by (offsets; lia).
    apply store_int_lookup_ne. offsets. lia.
Qed.

Lemma run_op_identity GC op hs hs' i :
  run_op GC op hs = Some hs' →
  i < off_snapShotTime ∨ off_size ≤ i < off_cause →
  _header hs'.2 !! i = _header hs.2 !! i.
Proof.
  intros Hrun Hi. destruct hs as [h s].
  destruct op; cbn [run_op fst snd] in Hrun.
  - destruct (Inc _ _ _); [|done]. by injection Hrun as <-.
  - destruct (addInc _ _ _); [|done]. by injection Hrun as <-.
  - injection Hrun as <-. unfold pushNewClass.
    repeat (case_match; try done).
  - destruct (pushNewChildClass _ _ _ _); [|done]. by injection Hrun as <-.
  - by injection Hrun as <-.
  - destruct (findChildClass _ _ _); [|done]. by injection Hrun as <-.
  - unfold clear in Hrun. case_match.
    + by injection Hrun as <-.
    + destruct (clearLoop _ _); [|done]. by injection Hrun as <-.
  - injection Hrun as <-. apply store_int_lookup_ne. offsets. lia.
  - injection Hrun as <-. apply store_int_lookup_ne. offsets. lia.
  - injection Hrun as <-. apply store_int_lookup_ne. offsets. lia.
  - destruct (setJvmInfo GC info s) as [s'|] eqn:Hs; [|done]. injection Hrun as <-.
    apply (setJvmInfo_low_bytes _ _ _ _ _ Hs). offsets. lia.
Qed.

Lemma run_ops_identity GC ops : ∀ hs hs' i,
  run_ops GC ops hs = Some hs' →
  i < off_snapShotTime ∨ off_size ≤ i < off_cause →
  _header hs'.2 !! i = _header hs.2 !! i.
Proof.
  induction ops as [|op ops IH]; intros hs hs' i Hrun Hi; [by injection Hrun as <-|].
  cbn [run_ops] in Hrun. destruct (run_op GC op hs) as [hs1|] eqn:Hop; [|done].
  cbn [mbind option_bind] in Hrun.
  rewrite (IH _ _ _ Hrun Hi). by eapply run_op_identity.
Qed.

(** X7. No operation of the container assigns the size, the magic number
    or the byte order mark of the header: after any run of operations on
    a constructed container, getContainerSize still returns 0 and the
    other two are as constructed.  (Inc, whose body is not in these
    sources, is taken as its description has it.) *)
Theorem size_is_never_assigned GC cfg raw ops h hs' :
  length raw = sizeof_TSnapShotFileHeader →
  run_ops GC ops (h, TSnapShotContainer_ctor cfg raw) = Some hs' →
  getContainerSize hs'.2 = 0%Z ∧
  load_uint off_magicNumber 1 (_header hs'.2)
    = (if CollectRefTree cfg then EXTENDED_REFTREE_SNAPSHOT else EXTENDED_SNAPSHOT) ∧
  load_bytes off_byteOrderMark 1 (_header hs'.2) = [BOM cfg].
Proof.
  intros Hlen Hrun.
  destruct (constructor_initialises cfg raw Hlen) as (Hm & Hb & _ & Hs & _).
  assert (∀ off width,
            off + width ≤ off_snapShotTime ∨ off_size ≤ off ∧ off + width ≤ off_cause →
            load_bytes off width (_header hs'.2)
              = load_bytes off width (_header (TSnapShotContainer_ctor cfg raw))) as Hsame.
  { intros off width Hr. apply load_bytes_ext. intros i Hi.
    apply (run_ops_identity _ _ _ _ _ Hrun). cbn [fst snd]. lia. }
  rewrite <- Hm, <- Hb, <- Hs. unfold getContainerSize, load_uint.
  rewrite !Hsame by (offsets; lia). done.
Qed.

Lemma size_is_never_assigned_witness :
  length (replicate 174 x00) = sizeof_TSnapShotFileHeader ∧
  ∃ hs', run_ops demo_GC demo_ops (demo_heap, demo_container) = Some hs' ∧
    getContainerSize hs'.2 = 0%Z.
Proof.
  assert (length (replicate 174 x00) = sizeof_TSnapShotFileHeader) as H by reflexivity.
  split; [exact H|].
  assert (is_Some (run_ops demo_GC demo_ops (demo_heap, demo_container))) as [hs' Hrun]
    by (vm_compute; eauto).
  exists hs'. split; [exact Hrun|].
  apply (size_is_never_assigned demo_GC demo_config (replicate 174 x00) demo_ops demo_heap hs' H Hrun).
Defined.
End HeaderIdentity.

(** * updateClass on the whole index *)

Section Relocation.
Import ClassContainer.
Implicit Types (c : TClassContainer) (p q r K : N).

Lemma lookup_subscript (m : gmap N N) k r :
  subscript k m !! r = if decide (r = k) then Some (default NULL (m !! k)) else m !! r.
Proof.
  unfold subscript. destruct (m !! k) as [x|] eqn:E.
  - case_decide; [by subst|done].
  - case_decide; [subst; by rewrite lookup_insert_eq|by rewrite lookup_insert_ne].
Qed.

Lemma lookup_updateClass c p q r :
  classMap (updateClass p q c) !! r =
    if decide (r = p) then None
    else if decide (r = q) then Some (default NULL (classMap c !! p))
    else classMap c !! r.
Proof.
  unfold updateClass. cbn [with_classMap classMap].
  case_decide as Hp; [subst; apply lookup_delete_eq|].
  rewrite lookup_delete_ne by done.
  case_decide as Hq.
  - subst. rewrite lookup_insert_eq, lookup_subscript. by rewrite decide_True.
  - rewrite lookup_insert_ne by done. rewrite !lookup_subscript.
    by rewrite !decide_False by done.
Qed.

(** X8. updateClass(p, q) changes the entries of p and q and no other:
    findClass of any other pointer returns what it returned, and the
    other members of the container are not written. *)
Theorem updateClass_changes_two_entries c p q r :
  r ≠ p → r ≠ q →
  findClass r (updateClass p q c) = findClass r c ∧
  classMap (updateClass p q c) !! r = classMap c !! r ∧
  needToClear (updateClass p q c) = needToClear c ∧
  unloadedList (updateClass p q c) = unloadedList c.
Proof.
  intros Hp Hq. unfold findClass. rewrite lookup_updateClass.
  by rewrite !decide_False by done.
Qed.

Lemma updateClass_changes_two_entries_witness :
  4097%N ≠ 4096%N ∧ 4097%N ≠ 8192%N ∧
  findClass 4097 (updateClass 4096 8192 demo_index) = 101%N.
Proof.
  assert (4097%N ≠ 4096%N) as H1 by (by vm_compute).
  assert (4097%N ≠ 8192%N) as H2 by (by vm_compute).
  split; [exact H1|]. split; [exact H2|].
  destruct (updateClass_changes_two_entries demo_index 4096 8192 4097 H1 H2) as [Hf _].
  rewrite Hf. reflexivity.
Defined.

(** X9. updateClass(p, q) when q already leads to another record: q then
    leads to the record of p, and the record that q led to, if no other
    pointer led to it, is found under no pointer any more. *)
Theorem updateClass_overwrites_target c p q K K' :
  findClass p c = K → K ≠ NULL → p ≠ q →
  findClass q c = K' → K' ≠ NULL → K' ≠ K →
  (∀ r, r ≠ q → findClass r c ≠ K') →
  findClass q (updateClass p q c) = K ∧
  ∀ r, findClass r (updateClass p q c) ≠ K'.
Proof.
  intros Hp HK Hpq Hq HK' Hne Honly.
  assert (classMap c !! p = Some K) as Hl.
  { unfold findClass in Hp. destruct (classMap c !! p); congruence. }
  assert (∀ r, findClass r (updateClass p q c) =
               if decide (r = p) then NULL else if decide (r = q) then K
               else findClass r c) as Hfind.
  { intros r. unfold findClass. rewrite lookup_updateClass, Hl.
    by repeat case_decide. }
  split.
  - by rewrite Hfind, decide_False, decide_True.
  - intros r. rewrite Hfind. repeat case_decide; [congruence|congruence|by apply Honly].
Qed.

Lemma updateClass_overwrites_target_witness :
  findClass 4096 demo_index = 100%N ∧ 100%N ≠ NULL ∧ 4096%N ≠ 4097%N ∧
  findClass 4097 demo_index = 101%N ∧ 101%N ≠ NULL ∧ 101%N ≠ 100%N ∧
  (∀ r, r ≠ 4097%N → findClass r demo_index ≠ 101%N) ∧
  findClass 4097 (updateClass 4096 4097 demo_index) = 100%N ∧
  ∀ r, findClass r (updateClass 4096 4097 demo_index) ≠ 101%N.
Proof.
  assert (findClass 4096 demo_index = 100%N) as H1 by (by vm_compute).
  assert (100%N ≠ NULL) as H2 by (by vm_compute).
  assert (4096%N ≠ 4097%N) as H3 by (by vm_compute).
  assert (findClass 4097 demo_index = 101%N) as H4 by (by vm_compute).
  assert (101%N ≠ NULL) as H5 by (by vm_compute).
  assert (101%N ≠ 100%N) as H6 by (by vm_compute).
  assert (∀ r, r ≠ 4097%N → findClass r demo_index ≠ 101%N) as H7.
  { intros r Hr. unfold findClass, demo_index. cbn [classMap].
    destruct (decide (r = 4096%N)) as [->|Hr'].
    - by rewrite lookup_insert_eq.
    - rewrite lookup_insert_ne by done. rewrite lookup_insert_ne by done.
      by rewrite lookup_empty. }
  do 7 (split; [assumption|]).
  exact (updateClass_overwrites_target demo_index 4096 4097 100 101 H1 H2 H3 H4 H5 H6 H7).
Defined.

(** X10. updateClass(p, q) for a pointer p that is not in the index: the
    subscript inserts a null record for p, which is assigned to q and
    erased at p; findClass(q) then returns null, whatever q led to
    before, and the entry of q holds a null pointer. *)
Theorem updateClass_unknown_pointer c p q :
  classMap c !! p = None → p ≠ q →
  classMap (updateClass p q c) !! q = Some NULL ∧
  findClass q (updateClass p q c) = NULL ∧
  classMap (updateClass p q c) !! p = None.
Proof.
  intros Hp Hpq. unfold findClass. rewrite !lookup_updateClass.
  rewrite (decide_False (P := q = p)) by done.
  rewrite !(decide_True (P := q = q)) by done.
  rewrite (decide_True (P := p = p)) by done.
  by rewrite Hp.
Qed.

Lemma updateClass_unknown_pointer_witness :
  classMap demo_index !! 12288%N = None ∧ 12288%N ≠ 4096%N ∧
  findClass 4096 demo_index = 100%N ∧
  findClass 4096 (updateClass 12288 4096 demo_index) = NULL.
Proof.
  assert (classMap demo_index !! 12288%N = None) as H1 by (by vm_compute).
  assert (12288%N ≠ 4096%N) as H2 by (by vm_compute).
  split; [exact H1|]. split; [exact H2|]. split; [by vm_compute|].
  exact (proj1 (proj2 (updateClass_unknown_pointer demo_index 12288 4096 H1 H2))).
Defined.

(** X11. updateClass(p, q) followed by updateClass(q, p), for p in the
    index and q not: the container is what it was. *)
Theorem updateClass_there_and_back c p q :
  is_Some (classMap c !! p) → classMap c !! q = None →
  updateClass q p (updateClass p q c) = c.
Proof.
  intros [K Hp] Hq.
  assert (p ≠ q) as Hpq by congruence.
  destruct c as [m n u]. cbn [classMap] in *.
  assert (∀ c1 c2, classMap c1 = classMap c2 → needToClear c1 = needToClear c2 →
            unloadedList c1 = unloadedList c2 → c1 = c2) as Hext.
  { intros [] []. simpl. congruence. }
  apply Hext; [|done|done].
  apply map_eq. intros r. rewrite lookup_updateClass.
  rewrite !lookup_updateClass. cbn [classMap].
  rewrite (decide_False (P := q = p)) by done. rewrite (decide_True (P := q = q)) by done.
  rewrite Hp. cbn [default].
  case_decide as Hrq; [by subst|]. case_decide as Hrp; [by subst|done].
Qed.

Lemma updateClass_there_and_back_witness :
  is_Some (classMap demo_index !! 4096%N) ∧ classMap demo_index !! 8192%N = None ∧
  updateClass 8192 4096 (updateClass 4096 8192 demo_index) = demo_index.
Proof.
  assert (is_Some (classMap demo_index !! 4096%N)) as H1 by (vm_compute; eauto).
  assert (classMap demo_index !! 8192%N = None) as H2 by (by vm_compute).
  split; [exact H1|]. split; [exact H2|].
  exact (updateClass_there_and_back demo_index 4096 8192 H1 H2).
Defined.

(** X12. updateClass(p, p) erases the entry of p and leaves every other
    entry. *)
Theorem updateClass_onto_itself c p :
  classMap (updateClass p p c) = delete p (classMap c).
Proof.
  apply map_eq. intros r. rewrite lookup_updateClass.
  case_decide as Hr; [subst; by rewrite lookup_delete_eq|].
  rewrite lookup_delete_ne by done. by rewrite ?decide_False by done.
Qed.
End Relocation.

(** * Lookups in the child lists *)

Section Lookups.
Implicit Types (h : heap) (vs pre post : list child_view) (v u w : child_view).

(** X13. findChildClass for a class that no child of the class counter has:
    it returns null and the heap is what it was (no call count, link or
    head is written). *)
Theorem findChildClass_miss_changes_nothing h k cls key vs :
  classCounters h !! k = Some cls → child_views h (child cls) vs →
  Forall (λ v, cv_klass v ≠ key) vs →
  findChildClass k key h = Some (NULL, h).
Proof.
  intros Hk Hvs Hmiss. unfold findChildClass. rewrite Hk. cbn [mbind option_bind].
  destruct vs as [|v rest].
  - destruct Hvs as [Hl _]. unfold child_list in Hl. simpl in Hl.
    by rewrite decide_True.
  - pose proof Hvs as (Hhead & Hn & _)%child_views_cons.
    rewrite decide_False by congruence.
    rewrite Hhead in Hvs |- *.
    rewrite (searchChild_scan _ _ rest) by
      (try done; pose proof (child_list_fuel _ _ _ (proj1 Hvs)) as Hf;
       rewrite length_fmap in Hf; lia).
    cbn [mbind option_bind].
    destruct (scan key NULL NULL (v :: rest)) as [r|] eqn:Hscan; [|done].
    apply scan_Some in Hscan as (pre & w & post & Heq & _ & Hw & _).
    rewrite Heq in Hmiss. apply Forall_app in Hmiss as [_ [Hw' _]%Forall_cons]. done.
Qed.

Lemma lfu_perm_hit key pre v post :
  Forall (λ w, cv_klass w ≠ key) pre → cv_klass v = key →
  lfu key (pre ++ v :: post) ≡ₚ hit v :: pre ++ post.
Proof.
  intros Hpre Hv. destruct pre as [|u pre _] using rev_ind.
  - cbn [app]. by rewrite lfu_hit_head.
  - rewrite <- app_assoc. cbn [app]. rewrite lfu_hit_inner by done.
    case_decide.
    + rewrite <- (app_assoc pre [u] post). symmetry. apply Permutation_middle.
    + rewrite (cons_middle u pre (hit v :: post)), app_assoc.
      symmetry. apply Permutation_middle.
Qed.

(** X14. findChildClass at a hit: it returns the first node of the class,
    whose call count has grown by one (modulo 2^32); every other node
    keeps its call count, and every node its counter and its class
    record; no object counter, no class record and no other class
    counter is written. *)
Theorem findChildClass_hit_counts_one h k cls key pre v post :
  classCounters h !! k = Some cls → child_views h (child cls) (pre ++ v :: post) →
  Forall (λ w, cv_klass w ≠ key) pre → cv_klass v = key →
  ∃ h', findChildClass k key h = Some (cv_addr v, h') ∧ cv_addr v ≠ NULL ∧
    node_view h' (hit v) ∧ Forall (node_view h') (pre ++ post) ∧
    objCounters h' = objCounters h ∧ objDatas h' = objDatas h ∧
    oopMapBlocks h' = oopMapBlocks h ∧
    ∀ k', k' ≠ k → classCounters h' !! k' = classCounters h !! k'.
Proof.
  intros Hk Hvs Hpre Hv.
  destruct (findChildClass_spec _ _ _ key _ Hk Hvs)
    as (h' & head' & Hrun & Hk' & Hvs' & Ho & Hd & Hb & _).
  rewrite lfu_found_hit in Hrun by done.
  exists h'. split; [done|]. split.
  { eapply lseg_not_null; [apply Hvs|]. rewrite fmap_app. apply elem_of_app. right.
    apply list_elem_of_here. }
  destruct Hvs' as [_ Hall]. rewrite lfu_perm_hit in Hall by done.
  apply Forall_cons in Hall as [Hhit Hrest].
  split_and!; try done.
  intros k' Hne. rewrite Hk'. by rewrite lookup_insert_ne.
Qed.

Lemma lfu_found_app_congr key pre l1 l2 :
  lfu_found key l1 = lfu_found key l2 →
  lfu_found key (pre ++ l1) = lfu_found key (pre ++ l2).
Proof. intros E. induction pre as [|t pre IH]; simpl; [done|]. by rewrite IH. Qed.

(** The reordering never changes what a lookup finds. *)
Lemma lfu_found_lfu key key' vs : lfu_found key (lfu key' vs) = lfu_found key vs.
Proof.
  destruct (scan key' NULL NULL vs) as [r|] eqn:E.
  - apply scan_Some in E as (pre & v & post & -> & Hpre & Hv & _).
    destruct pre as [|u pre _] using rev_ind.
    + cbn [app]. by rewrite lfu_hit_head.
    + rewrite <- app_assoc. cbn [app]. rewrite lfu_hit_inner by done.
      apply Forall_app in Hpre as [_ [Hu _]%Forall_cons].
      case_decide; apply lfu_found_app_congr; cbn [lfu_found hit cv_klass cv_addr]; [|done].
      repeat case_decide; congruence.
  - apply scan_None in E. by rewrite lfu_miss.
Qed.

Lemma findChildClass_views h k cls key :
  heap_wf h → classCounters h !! k = Some cls →
  ∃ r h', findChildClass k key h = Some (r, h') ∧ heap_wf h' ∧
    ∀ K clsK vs, classCounters h !! K = Some clsK → child_views h (child clsK) vs →
      ∃ clsK', classCounters h' !! K = Some clsK' ∧
        child_views h' (child clsK') (if decide (K = k) then lfu key vs else vs).
Proof.
  intros Hwf Hk.
  destruct (findChildClass_wf _ _ _ key Hwf Hk)
    as (vs0 & h' & head' & Hvs0 & Hrun & Hwf' & Hk' & Hvs' & Ho & Hd & Hb & Hbrk & Hframe).
  eexists _, h'. split; [exact Hrun|]. split; [done|].
  intros K clsK vs HK Hvs. rewrite Hk'. case_decide as HKk.
  - subst K. rewrite Hk in HK. injection HK as <-.
    rewrite (child_views_inj _ _ _ _ Hvs Hvs0).
    exists (set_child cls head'). by rewrite lookup_insert_eq.
  - exists clsK. rewrite lookup_insert_ne by done. split; [done|].
    apply (child_views_untouched h); [done| |done]. intros a Ha. apply Hframe.
    intros Ha'. destruct Hwf as (_ & _ & Hdisj & _).
    by apply (Hdisj _ _ _ _ _ _ Hk HK (not_eq_sym HKk) (proj1 Hvs0) (proj1 Hvs) a).
Qed.

Lemma findChildClass_seq_views calls : ∀ h,
  heap_wf h → Forall (λ c, is_Some (classCounters h !! c.1)) calls →
  ∃ h', findChildClass_seq calls h = Some h' ∧ heap_wf h' ∧
    ∀ K clsK vs, classCounters h !! K = Some clsK → child_views h (child clsK) vs →
      ∃ clsK' vs', classCounters h' !! K = Some clsK' ∧
        child_views h' (child clsK') vs' ∧
        ∀ key, lfu_found key vs' = lfu_found key vs.
Proof.
  induction calls as [|[k key] calls IH]; intros h Hwf Hcalls.
  - exists h. split_and!; [done|done|]. intros K clsK vs HK Hvs. by exists clsK, vs.
  - apply Forall_cons in Hcalls as [[cls Hk] Hcalls]. cbn [fst] in Hk.
    destruct (findChildClass_views _ _ _ key Hwf Hk) as (r & h1 & Hrun & Hwf1 & Hstep).
    assert (Forall (λ c, is_Some (classCounters h1 !! c.1)) calls) as Hcalls1.
    { eapply Forall_impl; [exact Hcalls|]. intros [k2 key2] [cls2 Hk2]. cbn [fst] in *.
      destruct (proj1 (proj2 Hwf) _ _ Hk2) as (vs2 & _ & _ & _ & Hvs2 & _).
      destruct (Hstep _ _ _ Hk2 Hvs2) as (cls2' & Hk2' & _). by eexists. }
    destruct (IH _ Hwf1 Hcalls1) as (h' & Hrun' & Hwf' & Hrest).
    exists h'. cbn [findChildClass_seq]. rewrite Hrun. cbn [mbind option_bind snd].
    split_and!; [done|done|].
    intros K clsK vs HK Hvs.
    destruct (Hstep _ _ _ HK Hvs) as (cls1 & HK1 & Hvs1).
    destruct (Hrest _ _ _ HK1 Hvs1) as (cls' & vs' & HK' & Hvs' & Hsame).
    exists cls', vs'. split_and!; [done|done|].
    intros key0. rewrite Hsame. case_decide; [apply lfu_found_lfu|done].
Qed.

(** X15. The reordering never changes what a lookup finds: after any
    sequence of findChildClass calls, on this or on other class
    counters, findChildClass for a class returns the node it would have
    returned before them. *)
Theorem findChildClass_result_survives_promotion h calls k key :
  heap_wf h → Forall (λ c, is_Some (classCounters h !! c.1)) calls →
  is_Some (classCounters h !! k) →
  ∃ r h1 h' h2,
    findChildClass k key h = Some (r, h1) ∧
    findChildClass_seq calls h = Some h' ∧
    findChildClass k key h' = Some (r, h2).
Proof.
  intros Hwf Hcalls [cls Hk].
  destruct (proj1 (proj2 Hwf) _ _ Hk) as (vs & _ & _ & _ & Hvs & _).
  destruct (find_step _ _ _ _ key Hwf Hk Hvs) as (h1 & _ & Hrun1 & _).
  destruct (findChildClass_seq_views calls h Hwf Hcalls) as (h' & Hseq & Hwf' & Hviews).
  destruct (Hviews _ _ _ Hk Hvs) as (cls' & vs' & Hk' & Hvs' & Hsame).
  destruct (find_step _ _ _ _ key Hwf' Hk' Hvs') as (h2 & _ & Hrun2 & _).
  rewrite Hsame in Hrun2. by exists (lfu_found key vs), h1, h', h2.
Qed.

Lemma findChildClass_result_survives_promotion_witness :
  heap_wf demo_children ∧
  ∃ r h1 h' h2,
    findChildClass 64 4097 demo_children = Some (r, h1) ∧
    findChildClass_seq [(64, 4098); (64, 4098); (64, 4097); (64, 4096); (64, 4098)]%N
      demo_children = Some h' ∧
    findChildClass 64 4097 h' = Some (r, h2).
Proof.
  split; [apply demo_children_wf|].
  apply (findChildClass_result_survives_promotion demo_children); [apply demo_children_wf| |].
  - repeat constructor; apply demo_children_wf.
  - apply demo_children_wf.
Defined.
End Lookups.

(** * The child list of the worked examples *)

Section DemoViews.
Lemma demo_children_class :
  classCounters demo_children !! 64%N = Some (mkClassCounter 65 66 0 NULL (-1)).
Proof. vm_compute. reflexivity. Qed.

Lemma demo_children_views : child_views demo_children 66 demo_views.
Proof.
  split.
  - unfold child_list, demo_views. cbn [fmap list_fmap cv_addr lseg].
    split; [done|]. split; [done|]. eexists. split; [vm_compute; reflexivity|].
    cbn [next]. split; [done|]. split; [done|]. eexists. split; [vm_compute; reflexivity|].
    cbn [next]. split; [done|]. split; [done|]. eexists. split; [vm_compute; reflexivity|].
    reflexivity.
  - unfold demo_views. repeat constructor.
    all: eexists _, _; cbn [cv_addr cv_counter cv_objData cv_calls cv_klass];
      split; [vm_compute; reflexivity|]; cbn [ch_counter objData callCount];
      split; [reflexivity|]; split; [reflexivity|]; split; [reflexivity|];
      split; [vm_compute; reflexivity|reflexivity].
Qed.

Lemma findChildClass_miss_changes_nothing_witness :
  classCounters demo_children !! 64%N = Some (mkClassCounter 65 66 0 NULL (-1)) ∧
  child_views demo_children 66 demo_views ∧
  Forall (λ v, cv_klass v ≠ 7777%N) demo_views ∧
  findChildClass 64 7777 demo_children = Some (NULL, demo_children).
Proof.
  assert (Forall (λ v, cv_klass v ≠ 7777%N) demo_views) as H
    by (repeat constructor; by vm_compute).
  split; [apply demo_children_class|]. split; [apply demo_children_views|].
  split; [exact H|].
  exact (findChildClass_miss_changes_nothing demo_children 64 _ 7777 demo_views
           demo_children_class demo_children_views H).
Defined.

Lemma findChildClass_hit_counts_one_witness :
  ∃ h', findChildClass 64 4097 demo_children = Some (68%N, h') ∧
    node_view h' (mkView 68 69 101 4097 1) ∧
    node_view h' (mkView 66 67 100 4096 0) ∧
    objCounters h' = objCounters demo_children.
Proof.
  destruct (findChildClass_hit_counts_one demo_children 64 _ 4097
              [mkView 66 67 100 4096 0] (mkView 68 69 101 4097 0) [mkView 70 71 102 4098 0]
              demo_children_class demo_children_views)
    as (h' & Hrun & _ & Hhit & Hrest & Ho & _).
  - repeat constructor. by vm_compute.
  - reflexivity.
  - exists h'. split; [exact Hrun|]. split; [exact Hhit|].
    apply Forall_cons in Hrest as [H1 _]. split; [exact H1|exact Ho].
Defined.
End DemoViews.

(** * Pushes followed by lookups, and sums of counters *)

Section PushFind.
Implicit Types (h : heap) (vs pre post : list child_view) (v u w : child_view).

Lemma lfu_found_snoc key vs w :
  lfu_found key (vs ++ [w]) =
    if decide (Forall (λ v, cv_klass v ≠ key) vs)
    then (if decide (cv_klass w = key) then cv_addr w else NULL)
    else lfu_found key vs.
Proof.
  induction vs as [|v vs IH]; cbn [app lfu_found].
  - rewrite (decide_True (P := Forall _ [])) by constructor. done.
  - destruct (decide (cv_klass v = key)) as [Hv|Hv].
    + rewrite decide_False; [done|]. intros [Hn _]%Forall_cons. done.
    + rewrite IH. destruct (decide (Forall (λ v0, cv_klass v0 ≠ key) vs)) as [Hall|Hall].
      * by rewrite (decide_True (P := Forall _ (v :: vs))) by by constructor.
      * rewrite (decide_False (P := Forall _ (v :: vs))); [done|].
        by intros [_ ?]%Forall_cons.
Qed.

(** X16. pushNewChildClass and then findChildClass for the class of the
    record pushed: the lookup returns the new node when the list had no
    node of that class; when it had one, it returns that older node (the
    one a lookup returned before the push) and the new node is
    shadowed. *)
Theorem pushNewChildClass_then_find h k cls vs d od o :
  heap_wf h → classCounters h !! k = Some cls → child_views h (child cls) vs →
  objDatas h !! d = Some od → calloc_ok o = true → memalign_ok o = true →
  ∃ h1 r h2,
    pushNewChildClass k d o h = Some (brk h, h1) ∧
    findChildClass k (klassOop od) h1 = Some (r, h2) ∧
    r ≠ NULL ∧
    (Forall (λ v, cv_klass v ≠ klassOop od) vs → r = brk h) ∧
    (¬ Forall (λ v, cv_klass v ≠ klassOop od) vs →
     r ≠ brk h ∧ ∃ h0, findChildClass k (klassOop od) h = Some (r, h0)).
Proof.
  intros Hwf Hk Hvs Hd Hc Hm.
  destruct (push_step _ _ _ _ _ _ o Hwf Hk Hvs Hd Hc Hm)
    as (h1 & cls1 & Hpush & Hwf1 & Hk1 & Hvs1 & _).
  destruct (find_step _ _ _ _ (klassOop od) Hwf1 Hk1 Hvs1) as (h2 & _ & Hfind & _).
  destruct (find_step _ _ _ _ (klassOop od) Hwf Hk Hvs) as (h0 & _ & Hfind0 & _).
  eexists h1, _, h2. split; [done|]. split; [exact Hfind|].
  rewrite lfu_found_snoc. cbn [cv_klass cv_addr]. rewrite (decide_True (P := klassOop od = klassOop od)) by done.
  destruct (bounded_fresh _ (proj1 Hwf)) as (Hnull & _ & _ & _ & Hfresh & _).
  case_decide as Hall.
  - split; [done|]. split; [done|]. intros Hn. contradiction.
  - assert (∃ pre v post, vs = pre ++ v :: post ∧
              Forall (λ w, cv_klass w ≠ klassOop od) pre ∧ cv_klass v = klassOop od)
      as (pre & v & post & -> & Hpre & Hv).
    { destruct (scan (klassOop od) NULL NULL vs) as [x|] eqn:E.
      - apply scan_Some in E as (pre & v & post & ? & ? & ? & _). by exists pre, v, post.
      - by apply scan_None in E. }
    rewrite lfu_found_hit in * by done.
    assert (cv_addr v ∈ cv_addr <$> pre ++ v :: post) as Hin.
    { rewrite fmap_app. apply elem_of_app. right. apply list_elem_of_here. }
    split; [by eapply lseg_not_null; [apply Hvs|]|]. split; [done|]. intros _. split; [|eauto].
    intros E. destruct (lseg_allocated _ _ _ _ _ (proj1 Hvs) Hin) as [c Hc']. congruence.
Qed.

Lemma pushNewChildClass_then_find_witness :
  ∃ h1 r h2,
    pushNewChildClass 64 101 all_ok demo_children = Some (brk demo_children, h1) ∧
    findChildClass 64 4097 h1 = Some (r, h2) ∧ r ≠ NULL ∧ r ≠ brk demo_children.
Proof.
  destruct (pushNewChildClass_then_find demo_children 64 _ demo_views 101
              (demo_objData 4097) all_ok (proj1 demo_children_wf)
              demo_children_class demo_children_views)
    as (h1 & r & h2 & Hpush & Hfind & Hr & _ & Hold).
  - vm_compute. reflexivity.
  - reflexivity.
  - reflexivity.
  - exists h1, r, h2. split; [exact Hpush|]. split; [exact Hfind|]. split; [exact Hr|].
    apply Hold. intros Hall. apply Forall_cons in Hall as [_ Hall].
    apply Forall_cons in Hall as [Hx _]. by apply Hx.
Defined.

(** X17. pushNewChildClass when calloc or posix_memalign fails: it returns
    null, the block allocated before the failure is freed, and the
    stores of object counters, child nodes and class counters (so the
    list and the lock) are what they were. *)
Theorem pushNewChildClass_allocation_fails h k d o :
  bounded h → calloc_ok o && memalign_ok o = false →
  ∃ h', pushNewChildClass k d o h = Some (NULL, h') ∧
    objCounters h' = objCounters h ∧ childCounters h' = childCounters h ∧
    classCounters h' = classCounters h ∧ objDatas h' = objDatas h ∧
    oopMapBlocks h' = oopMapBlocks h.
Proof.
  intros Hbd Ho. unfold pushNewChildClass.
  destruct (calloc_ok o); simpl in *.
  - rewrite Ho. simpl.
    destruct (bounded_fresh _ Hbd) as (_ & _ & _ & _ & Hca & _).
    eexists. split; [done|]. heap_norm.
    by rewrite delete_insert_eq, delete_id by done.
  - exists h. by split_and!.
Qed.

Lemma pushNewChildClass_allocation_fails_witness :
  bounded demo_children ∧ calloc_ok demo_failing && memalign_ok demo_failing = false ∧
  ∃ h', pushNewChildClass 64 101 demo_failing demo_children = Some (NULL, h') ∧
    childCounters h' = childCounters demo_children.
Proof.
  assert (bounded demo_children) as H1 by apply demo_children_wf.
  assert (calloc_ok demo_failing && memalign_ok demo_failing = false) as H2 by reflexivity.
  split; [exact H1|]. split; [exact H2|].
  destruct (pushNewChildClass_allocation_fails demo_children 64 101 demo_failing H1 H2)
    as (h' & Hrun & _ & Hc & _).
  exists h'. split; [exact Hrun|exact Hc].
Defined.
End PushFind.

Section Accumulate.
Implicit Types (h : heap) (x y : TObjectCounter).

Lemma wrap64_add_l a b : wrap64 (wrap64 a + b) = wrap64 (a + b).
Proof.
  unfold wrap64. f_equal.
  replace ((a + 2 ^ 63) mod 2 ^ 64 - 2 ^ 63 + b + 2 ^ 63)%Z
    with ((a + 2 ^ 63) mod 2 ^ 64 + b)%Z by lia.
  rewrite Z.add_mod_idemp_l by lia. f_equal. lia.
Qed.

Lemma wrap64_jlong z : is_jlong z → wrap64 z = z.
Proof. intros H. unfold wrap64, is_jlong in *. rewrite Z.mod_small; lia. Qed.

Lemma operand_sum_frame f h h' os :
  (∀ o, o ∈ os → objCounters h' !! o = objCounters h !! o) →
  operand_sum f h' os = operand_sum f h os.
Proof.
  induction os as [|o os IH]; intros Hsame; cbn [operand_sum foldr]; [done|].
  fold (operand_sum f h' os). fold (operand_sum f h os).
  rewrite Hsame by apply list_elem_of_here. rewrite IH; [done|].
  intros o' Ho'. apply Hsame. by right.
Qed.

Lemma operand_sum_perm f h os os' : os ≡ₚ os' → operand_sum f h os = operand_sum f h os'.
Proof.
  unfold operand_sum.
  induction 1 as [|o l l' _ IH|o1 o2 l|l1 l2 l3 _ IH1 _ IH2]; cbn [foldr];
    [done|by rewrite IH|lia|congruence].
Qed.

Lemma with_objCounters_id h : with_objCounters h (objCounters h) = h.
Proof. by destruct h. Qed.

Lemma addInc_all_run c os : ∀ h x,
  objCounters h !! c = Some x → is_jlong (count x) → is_jlong (total_size x) →
  Forall (λ o, is_Some (objCounters h !! o)) os → c ∉ os →
  addInc_all c os h =
    Some (with_objCounters h
            (<[c := mkObjectCounter (wrap64 (count x + operand_sum count h os))
                                    (wrap64 (total_size x + operand_sum total_size h os))]>
               (objCounters h))).
Proof.
  induction os as [|o os IH]; intros h x Hc Hx1 Hx2 Hos Hnin.
  - cbn [addInc_all operand_sum foldr]. rewrite !Z.add_0_r, !wrap64_jlong by done.
    replace (mkObjectCounter (count x) (total_size x)) with x by by destruct x.
    by rewrite insert_id, with_objCounters_id.
  - apply Forall_cons in Hos as [[y Hy] Hos].
    apply not_elem_of_cons in Hnin as [Hne Hnin].
    cbn [addInc_all].
    destruct (addInc_spec _ _ _ _ _ Hc Hy) as (h1 & Hrun & (E1 & E2 & E3 & E4 & E5) & Hm).
    rewrite Hrun. cbn [mbind option_bind].
    assert (∀ a, a ≠ c → objCounters h1 !! a = objCounters h !! a) as Hsame
      by (intros a Ha; by rewrite Hm, lookup_insert_ne).
    rewrite (IH h1 (mkObjectCounter (wrap64 (count x + count y))
                                    (wrap64 (total_size x + total_size y)))).
    + cbn [count total_size].
      rewrite !(operand_sum_frame _ h h1) by (intros a Ha; apply Hsame; congruence).
      cbn [operand_sum foldr]. fold (operand_sum count h os).
      fold (operand_sum total_size h os). rewrite Hy. cbn [fmap option_fmap option_map default].
      rewrite !wrap64_add_l, !Z.add_assoc, Hm, insert_insert_eq.
      destruct h, h1. cbn in *. by subst.
    + by rewrite Hm, lookup_insert_eq.
    + unfold is_jlong, wrap64. cbn [count].
      pose proof (Z.mod_pos_bound (count x + count y + 2 ^ 63) (2 ^ 64)). lia.
    + unfold is_jlong, wrap64. cbn [total_size].
      pose proof (Z.mod_pos_bound (total_size x + total_size y + 2 ^ 63) (2 ^ 64)). lia.
    + eapply Forall_impl; [exact Hos|]. intros a [z Hz].
      destruct (decide (a = c)) as [->|Ha]; [rewrite Hm, lookup_insert_eq; by eexists|].
      rewrite Hsame by done. by eexists.
    + done.
Qed.

(** X18. addInc of one counter with each of several operands in turn: it
    returns, the counter ends as its old value plus the sums of the
    operands' fields in 64-bit arithmetic, the result is the same for
    every order of the operands, and no other counter is written. *)
Theorem addInc_order_independent c os os' h x :
  objCounters h !! c = Some x → is_jlong (count x) → is_jlong (total_size x) →
  Forall (λ o, is_Some (objCounters h !! o)) os → c ∉ os → os ≡ₚ os' →
  ∃ h', addInc_all c os h = Some h' ∧ addInc_all c os' h = Some h' ∧
    objCounters h' !! c =
      Some (mkObjectCounter (wrap64 (count x + operand_sum count h os))
                            (wrap64 (total_size x + operand_sum total_size h os))) ∧
    (∀ a, a ≠ c → objCounters h' !! a = objCounters h !! a) ∧
    only_counters h h'.
Proof.
  intros Hc Hx1 Hx2 Hos Hnin Hperm.
  eexists. split; [by apply addInc_all_run|]. split.
  - rewrite (addInc_all_run c os' h x); try done.
    + by rewrite !(operand_sum_perm _ _ _ _ Hperm).
    + by rewrite <- Hperm.
    + by rewrite <- Hperm.
  - cbn [with_objCounters objCounters]. split; [apply lookup_insert_eq|].
    split; [intros a Ha; by rewrite lookup_insert_ne|done].
Qed.

Lemma addInc_order_independent_witness :
  ∃ h', addInc_all 65 [67; 69; 67]%N demo_state.1 = Some h' ∧
    addInc_all 65 [67; 67; 69]%N demo_state.1 = Some h' ∧
    objCounters h' !! 65%N = Some (mkObjectCounter 4 96).
Proof.
  destruct (addInc_order_independent 65 [67; 69; 67]%N [67; 67; 69]%N demo_state.1
              (mkObjectCounter 1 24)) as (h' & H1 & H2 & H3 & _).
  - vm_compute. reflexivity.
  - unfold is_jlong. cbn [count]. lia.
  - unfold is_jlong. cbn [total_size]. lia.
  - repeat constructor; vm_compute; eauto.
  - vm_compute. intros H. repeat (apply elem_of_cons in H as [H|H]; [discriminate|]).
    by inversion H.
  - apply perm_skip, perm_swap.
  - exists h'. split; [exact H1|]. split; [exact H2|]. rewrite H3. vm_compute. reflexivity.
Defined.
End Accumulate.

(** * Deallocation of a child list *)

Section FreeChildren.
Implicit Types (h : heap) (vs : list child_view) (v : child_view).

Lemma freeChildren_spec vs : ∀ h p fuel,
  child_views h p vs → NoDup (cv_counter <$> vs) →
  Forall (λ v, cv_counter v ≠ NULL ∧ is_Some (objCounters h !! cv_counter v)) vs →
  length vs ≤ fuel →
  ∃ h', freeChildren fuel p h = Some h' ∧
    (∀ a, objCounters h' !! a =
          if decide (a ∈ cv_counter <$> vs) then None else objCounters h !! a) ∧
    (∀ a, childCounters h' !! a =
          if decide (a ∈ cv_addr <$> vs) then None else childCounters h !! a) ∧
    classCounters h' = classCounters h ∧ objDatas h' = objDatas h ∧
    oopMapBlocks h' = oopMapBlocks h ∧ brk h' = brk h.
Proof.
  induction vs as [|v vs IH]; intros h p fuel Hvs Hnd Hall Hfuel.
  - destruct Hvs as [Hl _]. unfold child_list in Hl. simpl in Hl. subst p.
    exists h. split; [by destruct fuel|]. split_and!; try done; intros a;
      by rewrite decide_False by by inversion 1.
  - pose proof (child_list_NoDup _ _ _ (proj1 Hvs)) as Hnda.
    apply child_views_cons in Hvs as (-> & Hn & Hnv & c & Hc & Hrest).
    destruct Hnv as (c' & d & Hc' & Hctr & _). rewrite Hc in Hc'. injection Hc' as <-.
    cbn [fmap list_fmap] in Hnd, Hnda.
    apply NoDup_cons in Hnd as [Hnin Hnd]. apply NoDup_cons in Hnda as [Hnina Hnda].
    apply Forall_cons in Hall as [[Hvn [x Hx]] Hall].
    destruct fuel as [|fuel]; [simpl in Hfuel; lia|].
    cbn [freeChildren]. rewrite decide_False by done. rewrite Hc. cbn [mbind option_bind].
    unfold free_objCounter. rewrite Hctr, decide_False by done. rewrite Hx.
    cbn [mbind option_bind]. unfold free_childCounter. rewrite decide_False by done.
    cbn [with_objCounters childCounters]. rewrite Hc. cbn [mbind option_bind].
    match goal with |- ∃ h', freeChildren _ _ ?x = _ ∧ _ => set (h2 := x) end.
    destruct (IH h2 (next c) fuel) as (h' & Hrun & Ho & Hch & Hk & Hd & Hb & Hbrk).
    + apply (child_views_untouched h); [done| |done]. intros a Ha. subst h2.
      cbn [with_childCounters with_objCounters childCounters].
      apply lookup_delete_ne. intros <-. done.
    + done.
    + rewrite Forall_forall in Hall |- *. intros w Hw.
      destruct (Hall w Hw) as [Hwn Hwa]. split; [done|]. subst h2.
      cbn [with_childCounters with_objCounters objCounters].
      rewrite lookup_delete_ne; [done|]. intros E. apply Hnin. rewrite E.
      by apply list_elem_of_fmap_2.
    + simpl in Hfuel. lia.
    + exists h'. split; [done|]. subst h2.
      cbn [with_childCounters with_objCounters objCounters childCounters classCounters
           objDatas oopMapBlocks brk] in *.
      split_and!; try done.
      * intros a. rewrite Ho. cbn [fmap list_fmap].
        destruct (decide (a = cv_counter v)) as [->|Hne].
        -- rewrite (decide_True (P := _ ∈ _ :: _)) by apply list_elem_of_here.
           case_decide; [done|apply lookup_delete_eq].
        -- rewrite lookup_delete_ne by done.
           destruct (decide (a ∈ _ <$> vs)) as [Hin|Hin].
           ++ by rewrite decide_True by by right.
           ++ rewrite decide_False; [done|]. by intros [?|?]%elem_of_cons.
      * intros a. rewrite Hch. cbn [fmap list_fmap].
        destruct (decide (a = cv_addr v)) as [->|Hne].
        -- rewrite (decide_True (P := _ ∈ _ :: _)) by apply list_elem_of_here.
           case_decide; [done|apply lookup_delete_eq].
        -- rewrite lookup_delete_ne by done.
           destruct (decide (a ∈ _ <$> vs)) as [Hin|Hin].
           ++ by rewrite decide_True by by right.
           ++ rewrite decide_False; [done|]. by intros [?|?]%elem_of_cons.
Qed.
End FreeChildren.

Section DestroyStep.
Implicit Types (h : heap) (vs : list child_view) (v : child_view).

Lemma child_views_mono h h' p vs :
  childCounters h' ⊆ childCounters h → objDatas h' = objDatas h →
  child_views h' p vs → child_views h p vs.
Proof.
  intros Hsub Hd [Hl Hv]. split.
  - apply (lseg_frame h'); [|done]. intros a Ha.
    destruct (lseg_allocated _ _ _ _ _ Hl Ha) as [c Hc].
    by rewrite Hc, (lookup_weaken _ _ _ _ Hc Hsub).
  - eapply Forall_impl; [exact Hv|]. intros v (c & d & Hc & H1 & H2 & H3 & H4 & H5).
    exists c, d. rewrite <- Hd. split_and!; try done. eapply lookup_weaken; [exact Hc|done].
Qed.
End DestroyStep.

(** * The loop of the destructor *)

Section DestroyLoop.
Implicit Types (h : heap) (vs : list child_view) (v : child_view).

Lemma heap_wf_views h k cls :
  heap_wf h → classCounters h !! k = Some cls →
  ∃ vs, class_wf h cls vs ∧ child_views h (child cls) vs.
Proof.
  intros (_ & Hcls & _) Hk. destruct (Hcls _ _ Hk) as (vs & Hcw).
  exists vs. split; [done|apply Hcw].
Qed.

Lemma destroy_step h d k cls vs rest :
  heap_wf h → heap_owned h → k ≠ NULL →
  classCounters h !! k = Some cls → child_views h (child cls) vs →
  ∃ h4, destroyLoop ((d, k) :: rest) h = destroyLoop rest h4 ∧
    heap_wf h4 ∧ heap_owned h4 ∧ heap_shrunk h h4 ∧ class_freed h4 k cls vs ∧
    classCounters h4 = delete k (classCounters h) ∧
    (∀ k2 cls2 vs2, k2 ≠ k → classCounters h !! k2 = Some cls2 →
       child_views h (child cls2) vs2 →
       child_views h4 (child cls2) vs2 ∧
       Forall (λ a, objCounters h4 !! a = objCounters h !! a) (class_counters cls2 vs2)).
Proof.
  intros Hwf Hown Hkn Hk Hvs.
  pose proof Hwf as (Hbd & Hcls & Hdisj & Hoff).
  destruct (Hcls _ _ Hk) as (vs0 & Hlock & Hctr & Hofs & Hvs0 & Hcs).
  rewrite (child_views_inj _ _ _ _ Hvs0 Hvs) in Hcs. clear vs0 Hvs0.
  destruct (Hown _ _ _ _ _ _ Hk Hk Hvs Hvs) as [Hnd _].
  unfold class_counters in Hnd. apply NoDup_cons in Hnd as [Hroot Hnd].
  assert (∀ a, is_Some (objCounters h !! a) → a ≠ NULL) as Hnn.
  { intros a Ha. destruct Hbd as (_ & Ho & _). apply Ho in Ha. unfold NULL. lia. }
  (* the four deallocations *)
  assert (∃ h1, free_block (offsets cls) h = Some h1 ∧
            objCounters h1 = objCounters h ∧ childCounters h1 = childCounters h ∧
            classCounters h1 = classCounters h ∧ objDatas h1 = objDatas h ∧
            brk h1 = brk h ∧
            oopMapBlocks h1 = (if decide (offsets cls = NULL) then oopMapBlocks h
                               else oopMapBlocks h ∖ {[offsets cls]}))
    as (h1 & Hfree & E1o & E1c & E1k & E1d & E1b & E1m).
  { unfold free_block. case_decide as Hn; [by exists h|].
    destruct Hofs as [?|Hin]; [done|]. rewrite decide_True by done. by eexists. }
  destruct (freeChildren_spec vs h1 (child cls) (list_fuel h1))
    as (h2 & Hchildren & E2o & E2c & E2k & E2d & E2m & E2b).
  { apply (child_views_same h); done. }
  { done. }
  { rewrite E1o. eapply Forall_impl; [exact Hcs|]. intros v Hv. split; [by apply Hnn|done]. }
  { pose proof (child_list_fuel _ _ _ (proj1 Hvs)) as Hf. rewrite length_fmap in Hf.
    unfold list_fuel in *. rewrite E1c. lia. }
  assert (objCounters h2 !! counter cls = objCounters h !! counter cls) as Hroot2
    by (rewrite E2o, decide_False, E1o by done; done).
  set (h4 := with_classCounters
               (with_objCounters h2 (delete (counter cls) (objCounters h2)))
               (delete k (classCounters h2))).
  exists h4. split.
  { cbn [destroyLoop]. rewrite decide_False by done. rewrite Hk. cbn [mbind option_bind].
    rewrite Hfree. cbn [mbind option_bind]. rewrite Hchildren. cbn [mbind option_bind].
    unfold free_objCounter. rewrite decide_False by by apply Hnn.
    rewrite Hroot2. destruct Hctr as [x Hx]. rewrite Hx. cbn [mbind option_bind].
    unfold free_classCounter. rewrite decide_False by done.
    cbn [with_objCounters classCounters]. rewrite E2k, E1k, Hk. cbn [mbind option_bind].
    subst h4. by rewrite E2k, E1k. }
  (* what is left of the stores *)
  assert (∀ a, objCounters h4 !! a =
               if decide (a ∈ class_counters cls vs) then None else objCounters h !! a) as Ho.
  { intros a. subst h4. cbn [with_classCounters with_objCounters objCounters].
    unfold class_counters.
    destruct (decide (a = counter cls)) as [->|Hne].
    - rewrite lookup_delete_eq. by rewrite decide_True by apply list_elem_of_here.
    - rewrite lookup_delete_ne by done. rewrite E2o, E1o.
      destruct (decide (a ∈ cv_counter <$> vs)) as [Hin|Hin].
      + by rewrite decide_True by by right.
      + rewrite decide_False; [done|]. by intros [?|?]%elem_of_cons. }
  assert (∀ a, childCounters h4 !! a =
               if decide (a ∈ cv_addr <$> vs) then None else childCounters h !! a) as Hc.
  { intros a. subst h4. cbn [with_classCounters with_objCounters childCounters].
    by rewrite E2c, E1c. }
  assert (classCounters h4 = delete k (classCounters h)) as Hkk
    by (subst h4; cbn [with_classCounters classCounters]; by rewrite E2k, E1k).
  assert (objDatas h4 = objDatas h) as Hd by (subst h4; cbn; by rewrite E2d, E1d).
  assert (brk h4 = brk h) as Hb by (subst h4; cbn; by rewrite E2b, E1b).
  assert (oopMapBlocks h4 = (if decide (offsets cls = NULL) then oopMapBlocks h
                             else oopMapBlocks h ∖ {[offsets cls]})) as Hm
    by (subst h4; cbn; by rewrite E2m, E1m).
  clearbody h4. clear Hfree Hchildren E1o E1c E1k E1d E1b E1m E2o E2c E2k E2d E2m E2b Hroot2 h1 h2.
  assert (heap_shrunk h h4) as Hsh.
  { split_and!; try done.
    - apply map_subseteq_spec. intros a x. rewrite Ho. by destruct (decide (a ∈ _)).
    - apply map_subseteq_spec. intros a x. rewrite Hc. by destruct (decide (a ∈ _)).
    - rewrite Hkk. apply delete_subseteq.
    - rewrite Hm. destruct (decide (offsets cls = NULL)); [done|].
      by apply subseteq_difference_l. }
  (* the other class counters keep what is theirs *)
  assert (∀ k2 cls2 vs2, k2 ≠ k → classCounters h !! k2 = Some cls2 →
            child_views h (child cls2) vs2 →
            child_views h4 (child cls2) vs2 ∧
            Forall (λ a, objCounters h4 !! a = objCounters h !! a) (class_counters cls2 vs2))
    as Hothers.
  { intros k2 cls2 vs2 Hne Hk2 Hvs2. split.
    - apply (child_views_untouched h); [done| |done]. intros a Ha.
      rewrite Hc, decide_False; [done|]. intros Ha'.
      by apply (Hdisj _ _ _ _ _ _ Hk2 Hk Hne (proj1 Hvs2) (proj1 Hvs) a).
    - apply Forall_forall. intros a Ha. rewrite Ho, decide_False; [done|]. intros Ha'.
      destruct (Hown _ _ _ _ _ _ Hk2 Hk Hvs2 Hvs) as [_ Hd2].
      by apply (Hd2 Hne a). }
  split_and!; try done.
  - (* heap_wf *)
    apply (heap_wf_transfer h h4 NULL); [done| |].
    + destruct Hsh as (S1 & S2 & S3 & _).
      apply (bounded_transfer h); [done|lia|..]; intros a [x Hx]; left; exists x;
        eapply lookup_weaken; done.
    + intros k2 cls2 Hk2. rewrite Hkk in Hk2.
      apply lookup_delete_Some in Hk2 as [Hne Hk2].
      destruct (Hcls _ _ Hk2) as (vs2 & Hlock2 & Hctr2 & Hofs2 & Hvs2 & Hcs2).
      destruct (Hothers _ _ _ (not_eq_sym Hne) Hk2 Hvs2) as [Hvs2' Hkeep].
      unfold class_counters in Hkeep. apply Forall_cons in Hkeep as [Hkeep0 Hkeep].
      exists vs2. split.
      * split; [done|]. split; [by rewrite Hkeep0|]. split.
        { destruct Hofs2 as [?|Hin]; [by left|]. right. rewrite Hm.
          destruct (decide (offsets cls = NULL)); [done|]. apply elem_of_difference. split; [done|].
          intros E%elem_of_singleton.
          destruct (decide (offsets cls2 = NULL)) as [E0|E0]; [congruence|].
          apply Hne. symmetry. by apply (Hoff _ _ _ _ Hk2 Hk). }
        split; [done|].
        rewrite Forall_fmap in Hkeep. rewrite Forall_forall in Hkeep, Hcs2 |- *.
        intros w Hw. cbn in Hkeep. rewrite (Hkeep w Hw). by apply Hcs2.
      * right. exists cls2, vs2. split_and!; [done|done|by left|by left].
  - (* heap_owned *)
    intros k1 k2 cls1 cls2 vs1 vs2 Hk1 Hk2 Hv1 Hv2. rewrite Hkk in Hk1, Hk2.
    apply lookup_delete_Some in Hk1 as [_ Hk1]. apply lookup_delete_Some in Hk2 as [_ Hk2].
    destruct Hsh as (_ & S2 & _).
    apply (Hown _ _ _ _ _ _ Hk1 Hk2); by apply (child_views_mono h h4).
  - (* class_freed *)
    split_and!.
    + rewrite Hkk. apply lookup_delete_eq.
    + rewrite Ho. by rewrite decide_True by apply list_elem_of_here.
    + apply Forall_forall. intros v Hv. rewrite Hc, Ho.
      rewrite decide_True by by apply list_elem_of_fmap_2.
      rewrite decide_True; [done|]. right. by apply list_elem_of_fmap_2.
    + intros Hn. rewrite Hm, decide_False by done.
      intros [_ Hx]%elem_of_difference. apply Hx. by apply elem_of_singleton.
Qed.

Lemma heap_shrunk_trans h1 h2 h3 : heap_shrunk h1 h2 → heap_shrunk h2 h3 → heap_shrunk h1 h3.
Proof.
  intros (A1 & A2 & A3 & A4 & A5 & A6) (B1 & B2 & B3 & B4 & B5 & B6).
  split_and!; try (etrans; done); congruence.
Qed.

Lemma class_freed_shrunk h h' k cls vs :
  heap_shrunk h h' → class_freed h k cls vs → class_freed h' k cls vs.
Proof.
  intros (A1 & A2 & A3 & A4 & _) (F1 & F2 & F3 & F4).
  split_and!.
  - by eapply lookup_weaken_None.
  - by eapply lookup_weaken_None.
  - eapply Forall_impl; [exact F3|]. intros v [? ?].
    split; by eapply lookup_weaken_None.
  - intros Hn Hin. apply (F4 Hn). by apply A4.
Qed.

Lemma distinct_counters_map (m : gmap N N) :
  (∀ d1 d2 k, m !! d1 = Some k → m !! d2 = Some k → k ≠ NULL → d1 = d2) →
  distinct_counters (map_to_list m).
Proof.
  intros Hinj.
  assert (∀ l, NoDup l → (∀ d k, (d, k) ∈ l → m !! d = Some k) → distinct_counters l) as H.
  { induction l as [|[d k] l IH]; intros Hnd Hl; [done|].
    apply NoDup_cons in Hnd as [Hnin Hnd]. split.
    - intros Hk d' Hin.
      assert (d' = d) as ->; [|done].
      apply (Hinj _ _ k); [apply Hl; by right|apply Hl; by left|done].
    - apply IH; [done|]. intros d' k' Hin. apply Hl. by right. }
  apply H; [apply NoDup_map_to_list|]. intros d k. apply elem_of_map_to_list.
Qed.

Lemma destroyLoop_spec entries : ∀ h,
  heap_wf h → heap_owned h → distinct_counters entries →
  (∀ d k, (d, k) ∈ entries → k ≠ NULL → is_Some (classCounters h !! k)) →
  ∃ h', destroyLoop entries h = Some h' ∧ heap_wf h' ∧ heap_owned h' ∧ heap_shrunk h h' ∧
    (∀ d k cls vs, (d, k) ∈ entries → k ≠ NULL → classCounters h !! k = Some cls →
       child_views h (child cls) vs → class_freed h' k cls vs) ∧
    (∀ k cls vs, (∀ d, (d, k) ∉ entries) → classCounters h !! k = Some cls →
       child_views h (child cls) vs →
       classCounters h' !! k = Some cls ∧ child_views h' (child cls) vs ∧
       Forall (λ a, objCounters h' !! a = objCounters h !! a) (class_counters cls vs)).
Proof.
  induction entries as [|[d k] entries IH]; intros h Hwf Hown Hdist Hall.
  - exists h. split_and!; try done.
    + intros d k cls vs Hin. by inversion Hin.
    + intros k cls vs _ Hk Hvs. split_and!; [done|done|]. by apply Forall_forall.
  - destruct Hdist as [Hhead Hdist].
    destruct (decide (k = NULL)) as [->|Hkn].
    + destruct (IH h Hwf Hown Hdist) as (h' & Hrun & Hwf' & Hown' & Hsh & Hfreed & Hkeep).
      { intros d' k' Hin. apply (Hall d'). by right. }
      exists h'. split_and!; try done.
      * intros d' k' cls vs [[= -> ->]|Hin]%elem_of_cons Hn; [done|]. by apply (Hfreed d').
      * intros k' cls vs Hnone. apply Hkeep. intros d' Hin. apply (Hnone d'). by right.
    + destruct (Hall d k (list_elem_of_here _ _) Hkn) as [cls Hk].
      destruct (heap_wf_views _ _ _ Hwf Hk) as (vs & _ & Hvs).
      destruct (destroy_step h d k cls vs entries Hwf Hown Hkn Hk Hvs)
        as (h4 & Hstep & Hwf4 & Hown4 & Hsh4 & Hfreed4 & Hk4 & Hothers).
      destruct (IH h4 Hwf4 Hown4 Hdist) as (h' & Hrun & Hwf' & Hown' & Hsh & Hfreed & Hkeep).
      { intros d' k' Hin Hn. rewrite Hk4.
        assert (k' ≠ k) as Hne by (intros ->; by apply (Hhead Hkn d')).
        rewrite lookup_delete_ne by done. apply (Hall d'); [by right|done]. }
      exists h'. split_and!; try done.
      * by rewrite Hstep.
      * by eapply heap_shrunk_trans.
      * intros d' k' cls' vs' [[= -> ->]|Hin]%elem_of_cons Hn Hk' Hvs'.
        -- rewrite Hk in Hk'. injection Hk' as <-.
           rewrite (child_views_inj _ _ _ _ Hvs' Hvs).
           by eapply class_freed_shrunk.
        -- assert (k' ≠ k) as Hne by (intros ->; by apply (Hhead Hkn d')).
           apply (Hfreed d'); [done|done| |].
           ++ rewrite Hk4. by rewrite lookup_delete_ne.
           ++ exact (proj1 (Hothers _ _ _ Hne Hk' Hvs')).
      * intros k' cls' vs' Hnone Hk' Hvs'.
        assert (k' ≠ k) as Hne by (intros ->; apply (Hnone d); by left).
        destruct (Hothers _ _ _ Hne Hk' Hvs') as [Hvs4 Hsame4].
        destruct (Hkeep k' cls' vs') as (Hk'' & Hvs'' & Hsame).
        { intros d' Hin. apply (Hnone d'). by right. }
        { rewrite Hk4. by rewrite lookup_delete_ne. }
        { done. }
        split_and!; [done|done|].
        rewrite Forall_forall in Hsame4, Hsame |- *. intros a Ha.
        rewrite Hsame, Hsame4; done.
Qed.

(** The destructor on a well-formed container whose class counters are
    its own. *)
Lemma TSnapShotContainer_dtor_spec h s :
  container_wf h s → heap_owned h → map_injective s →
  ∃ h', TSnapShotContainer_dtor (h, s) = Some h' ∧
    heap_wf h' ∧ heap_owned h' ∧ heap_shrunk h h' ∧
    (∀ d k cls vs, counterMap s !! d = Some k → k ≠ NULL →
       classCounters h !! k = Some cls → child_views h (child cls) vs →
       class_freed h' k cls vs) ∧
    (∀ k cls vs, (∀ d, counterMap s !! d ≠ Some k) → classCounters h !! k = Some cls →
       child_views h (child cls) vs →
       classCounters h' !! k = Some cls ∧ child_views h' (child cls) vs ∧
       Forall (λ a, objCounters h' !! a = objCounters h !! a) (class_counters cls vs)).
Proof.
  intros [Hwf Hmap] Hown Hinj. unfold TSnapShotContainer_dtor. cbn [fst snd].
  destruct (destroyLoop_spec (map_to_list (counterMap s)) h Hwf Hown)
    as (h' & Hrun & Hwf' & Hown' & Hsh & Hfreed & Hkeep).
  { by apply distinct_counters_map. }
  { intros d k Hin. apply (Hmap d). by apply elem_of_map_to_list. }
  exists h'. split_and!; try done.
  - intros d k cls vs Hd. apply (Hfreed d). by apply elem_of_map_to_list.
  - intros k cls vs Hnone. apply Hkeep. intros d Hin%elem_of_map_to_list. by apply (Hnone d).
Qed.
End DestroyLoop.

(** * Ownership of the object counters *)

Section Ownership.
Implicit Types (h : heap) (vs : list child_view) (v : child_view) (s : TSnapShotContainer).

Lemma class_counters_allocated h k cls vs a :
  heap_wf h → classCounters h !! k = Some cls → child_views h (child cls) vs →
  a ∈ class_counters cls vs → is_Some (objCounters h !! a).
Proof.
  intros Hwf Hk Hvs Ha. destruct (heap_wf_views _ _ _ Hwf Hk) as (vs0 & Hcw & Hvs0).
  rewrite (child_views_inj _ _ _ _ Hvs Hvs0) in Ha.
  destruct Hcw as (_ & Hc & _ & _ & Hall).
  apply elem_of_cons in Ha as [->|Ha]; [done|].
  apply list_elem_of_fmap in Ha as (v & -> & Hv).
  rewrite Forall_forall in Hall. by apply Hall.
Qed.

(** The object counters stay owned when every class counter keeps the
    ones it had, but for one counter [c0], not allocated before, that the
    class counter [k0] may have gained. *)
Lemma heap_owned_transfer h h' k0 c0 :
  heap_wf h → heap_owned h → objCounters h !! c0 = None →
  (∀ k cls' vs', classCounters h' !! k = Some cls' → child_views h' (child cls') vs' →
     ∃ l, (l = [] ∨ ∃ cls vs, classCounters h !! k = Some cls ∧
                      child_views h (child cls) vs ∧ l = class_counters cls vs) ∧
          (class_counters cls' vs' ≡ₚ l ∨
           (k = k0 ∧ class_counters cls' vs' ≡ₚ c0 :: l))) →
  heap_owned h'.
Proof.
  intros Hwf Hown Hc0 Hall.
  assert (∀ k l, (l = [] ∨ ∃ cls vs, classCounters h !! k = Some cls ∧
                      child_views h (child cls) vs ∧ l = class_counters cls vs) →
            NoDup l ∧ c0 ∉ l) as Hold.
  { intros k l [->|(cls & vs & Hk & Hvs & ->)]; [split; [constructor|by inversion 1]|].
    split; [by destruct (Hown _ _ _ _ _ _ Hk Hk Hvs Hvs)|].
    intros Hin. destruct (class_counters_allocated _ _ _ _ _ Hwf Hk Hvs Hin). congruence. }
  intros k1 k2 cls1 cls2 vs1 vs2 Hk1 Hk2 Hv1 Hv2.
  destruct (Hall _ _ _ Hk1 Hv1) as (l1 & Hl1 & Hp1).
  destruct (Hall _ _ _ Hk2 Hv2) as (l2 & Hl2 & Hp2).
  destruct (Hold _ _ Hl1) as [Hnd1 Hc1]. destruct (Hold _ _ Hl2) as [Hnd2 Hc2].
  split.
  - destruct Hp1 as [->|[_ ->]]; [done|by constructor].
  - intros Hne a Ha1 Ha2.
    assert (a ∈ l1 ∨ (k1 = k0 ∧ a = c0)) as Hcase1.
    { destruct Hp1 as [Hp|[-> Hp]]; rewrite Hp in Ha1; [by left|].
      apply elem_of_cons in Ha1 as [->|?]; [by right|by left]. }
    assert (a ∈ l2 ∨ (k2 = k0 ∧ a = c0)) as Hcase2.
    { destruct Hp2 as [Hp|[-> Hp]]; rewrite Hp in Ha2; [by left|].
      apply elem_of_cons in Ha2 as [->|?]; [by right|by left]. }
    destruct Hcase1 as [Hin1|[-> ->]], Hcase2 as [Hin2|[E2 E2']]; subst; try done.
    destruct Hl1 as [->|(c1 & w1 & Hc1' & Hw1 & ->)]; [by inversion Hin1|].
    destruct Hl2 as [->|(c2 & w2 & Hc2' & Hw2 & ->)]; [by inversion Hin2|].
    destruct (Hown _ _ _ _ _ _ Hc1' Hc2' Hw1 Hw2) as [_ Hd]. by apply (Hd Hne a).
Qed.

(** The same, for an operation that allocates no object counter. *)
Lemma heap_owned_kept h h' :
  heap_wf h → heap_owned h →
  (∀ k cls' vs', classCounters h' !! k = Some cls' → child_views h' (child cls') vs' →
     ∃ cls vs, classCounters h !! k = Some cls ∧ child_views h (child cls) vs ∧
       class_counters cls' vs' ≡ₚ class_counters cls vs) →
  heap_owned h'.
Proof.
  intros Hwf Hown Hall.
  destruct (bounded_fresh _ (proj1 Hwf)) as (_ & _ & Hfresh & _).
  apply (heap_owned_transfer h h' NULL (brk h)); [done|done|done|].
  intros k cls' vs' Hk Hvs. destruct (Hall _ _ _ Hk Hvs) as (cls & vs & Hk0 & Hvs0 & Hp).
  exists (class_counters cls vs). split; [right; by exists cls, vs|by left].
Qed.

Lemma heap_owned_no_classes h : classCounters h = ∅ → heap_owned h.
Proof. intros He k1 k2 cls1 cls2 vs1 vs2 Hk1. by rewrite He, lookup_empty in Hk1. Qed.

Lemma pushNewClass_owned h s d o :
  heap_wf h → heap_owned h → heap_owned (pushNewClass d o (h, s)).2.1.
Proof.
  intros Hwf Hown.
  destruct (bounded_fresh _ (proj1 Hwf)) as (_ & _ & _ & Hfresh & _ & _ & Hk0 & _).
  destruct (oracle_ok o) eqn:Ho.
  - destruct (pushNewClass_ok h s d o Hwf Ho) as (h' & -> & _ & Hk & _ & Hc & Hd & _).
    cbn [fst snd].
    apply (heap_owned_transfer h h' (brk h) (brk h + 1)%N); [done|done|done|].
    intros k cls' vs' Hk' Hvs'. rewrite Hk in Hk'.
    destruct (decide (k = brk h)) as [->|Hne].
    + rewrite lookup_insert_eq in Hk'. injection Hk' as <-. cbn [child] in Hvs'.
      destruct Hvs' as [Hl Hv]. apply child_list_null in Hl.
      apply fmap_nil_inv in Hl as ->.
      exists []. split; [by left|]. right. done.
    + rewrite lookup_insert_ne in Hk' by done.
      exists (class_counters cls' vs'). split; [|by left]. right. exists cls', vs'.
      split_and!; [done| |done]. by apply (child_views_same h').
  - destruct (pushNewClass_fails h s d o Hwf Ho) as (h' & -> & _ & _ & Hc & Hk & Hd & _).
    cbn [fst snd]. apply (heap_owned_kept h); [done|done|].
    intros k cls' vs' Hk' Hvs'. rewrite Hk in Hk'. exists cls', vs'.
    split_and!; [done| |done]. by apply (child_views_same h').
Qed.

Lemma pushNewChildClass_owned h k d o r h' :
  heap_wf h → heap_owned h → is_Some (classCounters h !! k) → is_Some (objDatas h !! d) →
  pushNewChildClass k d o h = Some (r, h') → heap_owned h'.
Proof.
  intros Hwf Hown [cls Hk] [od Hd] Hrun.
  destruct (bounded_fresh _ (proj1 Hwf)) as (_ & _ & _ & Hfresh & _).
  destruct (calloc_ok o && memalign_ok o) eqn:Ho.
  - apply andb_true_iff in Ho as [Hc Hm].
    destruct (pushNewChildClass_wf h k cls d od o Hwf Hk Hd Hc Hm)
      as (vs & h2 & head' & Hvs & Hrun2 & Hwf' & Hk' & Hvs' & _ & Hdm & _ & _ & Hframe).
    assert (h2 = h') as -> by congruence.
    apply (heap_owned_transfer h h' k (brk h + 1)%N); [done|done|done|].
    intros k2 cls2' vs2' Hk2 Hvs2. rewrite Hk' in Hk2.
    destruct (decide (k = k2)) as [<-|Hne].
    + rewrite lookup_insert_eq in Hk2. injection Hk2 as <-. cbn [child] in Hvs2.
      rewrite (child_views_inj _ _ _ _ Hvs2 Hvs').
      exists (class_counters cls vs). split; [right; by exists cls, vs|]. right.
      split; [done|]. unfold class_counters. cbn [counter set_child].
      rewrite fmap_app. cbn [fmap list_fmap cv_counter].
      symmetry. apply (Permutation_cons_append (counter cls :: (cv_counter <$> vs))).
    + rewrite lookup_insert_ne in Hk2 by done.
      destruct (heap_wf_views _ _ _ Hwf Hk2) as (vs2 & _ & Hvs20).
      assert (child_views h' (child cls2') vs2) as Hnew.
      { apply (child_views_untouched h); [done| |done]. intros a Ha. apply Hframe.
        - intros Ha'. destruct Hwf as (_ & _ & Hdisj & _).
          by apply (Hdisj _ _ _ _ _ _ Hk Hk2 Hne (proj1 Hvs) (proj1 Hvs20) a).
        - intros ->. destruct (lseg_allocated _ _ _ _ _ (proj1 Hvs20) Ha) as [x Hx].
          destruct (bounded_fresh _ (proj1 Hwf)) as (_ & _ & _ & _ & Hca & _). congruence. }
      rewrite (child_views_inj _ _ _ _ Hvs2 Hnew).
      exists (class_counters cls2' vs2). split; [right; by exists cls2', vs2|by left].
  - destruct (pushNewChildClass_fails h k d o Hwf Ho) as (h2 & Hrun2 & _ & _ & Hc & Hk' & Hdm & _).
    assert (h2 = h') as -> by congruence.
    apply (heap_owned_kept h); [done|done|].
    intros k2 cls' vs' Hk2 Hvs2. rewrite Hk' in Hk2. exists cls', vs'.
    split_and!; [done| |done]. by apply (child_views_same h').
Qed.

Lemma findChildClass_owned h k key r h' :
  heap_wf h → heap_owned h → is_Some (classCounters h !! k) →
  findChildClass k key h = Some (r, h') → heap_owned h'.
Proof.
  intros Hwf Hown [cls Hk] Hrun.
  destruct (findChildClass_views h k cls key Hwf Hk) as (r2 & h2 & Hrun2 & Hwf' & Hviews).
  assert (h2 = h') as -> by congruence.
  destruct (findChildClass_wf h k cls key Hwf Hk) as (vs0 & h2 & head' & _ & Hrun3 & _ & Hk' & _).
  assert (h2 = h') as -> by congruence.
  apply (heap_owned_kept h); [done|done|].
  intros k2 cls' vs' Hk2 Hvs2.
  assert (∃ cls2, classCounters h !! k2 = Some cls2 ∧ counter cls' = counter cls2)
    as (cls2 & Hk20 & Hctr).
  { rewrite Hk' in Hk2. destruct (decide (k = k2)) as [<-|Hne].
    - rewrite lookup_insert_eq in Hk2. injection Hk2 as <-. by exists cls.
    - rewrite lookup_insert_ne in Hk2 by done. by exists cls'. }
  destruct (heap_wf_views _ _ _ Hwf Hk20) as (vs2 & _ & Hvs20).
  destruct (Hviews _ _ _ Hk20 Hvs20) as (cls2' & Hk2' & Hnew).
  rewrite Hk2 in Hk2'. injection Hk2' as <-.
  rewrite (child_views_inj _ _ _ _ Hvs2 Hnew).
  exists cls2, vs2. split_and!; [done|done|]. unfold class_counters. rewrite Hctr.
  f_equiv. case_decide; [by apply lfu_static|done].
Qed.

Lemma only_counters_owned h h' :
  heap_wf h → heap_owned h → only_counters h h' → heap_owned h'.
Proof.
  intros Hwf Hown (E1 & E2 & E3 & _). apply (heap_owned_kept h); [done|done|].
  intros k cls' vs' Hk Hvs. rewrite E2 in Hk. exists cls', vs'.
  split_and!; [done| |done]. by apply (child_views_same h').
Qed.

Lemma clear_frame_owned h h' :
  heap_wf h → heap_owned h → clear_frame h h' → heap_owned h'.
Proof.
  intros Hwf Hown (E1 & E2 & _ & _ & _ & Hk & _). apply (heap_owned_kept h); [done|done|].
  intros k cls' vs' Hk' Hvs.
  assert (child_views h (child cls') vs') as Hvs0 by by apply (child_views_same h').
  destruct (Hk k) as [E|(c & Hc & Hc')].
  - rewrite E in Hk'. by exists cls', vs'.
  - rewrite Hc' in Hk'. injection Hk' as <-. by exists c, vs'.
Qed.
End Ownership.

(** * The destructor *)

Section Destructor.
Implicit Types (h : heap) (vs : list child_view) (s : TSnapShotContainer)
  (hs : heap * TSnapShotContainer).

Lemma pushNewClass_injective h s d o :
  container_wf h s → map_injective s → map_injective (pushNewClass d o (h, s)).2.2.
Proof.
  intros [Hwf Hmap] Hinj.
  destruct (bounded_fresh _ (proj1 Hwf)) as (Hn & _ & _ & _ & _ & _ & Hfresh & _).
  destruct (oracle_ok o) eqn:Ho.
  - destruct (pushNewClass_ok h s d o Hwf Ho) as (h' & -> & _).
    cbn [fst snd]. intros d1 d2 k. cbn [counterMap].
    assert (∀ d', counterMap s !! d' ≠ Some (brk h)) as Hnew.
    { intros d' Hd'. destruct (Hmap _ _ Hd' Hn). congruence. }
    rewrite !lookup_insert. repeat case_decide; subst; try done.
    + intros [= <-] Hd2. by destruct (Hnew d2).
    + intros Hd1 [= <-]. by destruct (Hnew d1).
    + apply Hinj.
  - destruct (pushNewClass_fails h s d o Hwf Ho) as (h' & -> & _). done.
Qed.

Lemma run_op_destructible GC op hs :
  destructible hs → op_ready GC op hs →
  ∃ hs', run_op GC op hs = Some hs' ∧ destructible hs'.
Proof.
  destruct hs as [h s]. intros ([Hwf Hmap] & Hown & Hinj) Hready.
  destruct op as [c size|c o|d o|k d o|d|k key|isForce|t|cause|size|info];
    cbn [run_op op_ready fst snd] in *.
  - destruct (Inc_heap_wf h c size Hwf Hready) as (h' & Hrun & Hwf' & Hk).
    rewrite Hrun. eexists. split; [done|]. refine (conj (conj Hwf' _) (conj _ Hinj)).
    + cbn [fst snd]. intros d k. rewrite Hk. apply Hmap.
    + cbn [fst]. apply (only_counters_owned h); [done|done|].
      unfold Inc in Hrun. destruct (objCounters h !! c); [|done].
      injection Hrun as <-. done.
  - destruct Hready as [[x Hc] [y Ho]].
    destruct (addInc_spec _ _ _ _ _ Hc Ho) as (h' & Hrun & Honly & _).
    rewrite Hrun. eexists. split; [done|].
    refine (conj (conj (addInc_heap_wf _ _ _ _ Hwf Hrun) _) (conj _ Hinj)).
    + cbn [fst snd]. intros d k. destruct Honly as (_ & -> & _). apply Hmap.
    + by apply (only_counters_owned h).
  - eexists. split; [done|]. refine (conj _ (conj _ _)).
    + by apply pushNewClass_container_wf.
    + by apply pushNewClass_owned.
    + by apply pushNewClass_injective.
  - destruct Hready as [Hk Hd].
    destruct (pushNewChildClass_returns h k d o Hwf Hk Hd) as (r & h' & Hrun & Hwf' & Hmono).
    rewrite Hrun. eexists. split; [done|]. cbn [fst snd].
    refine (conj (conj Hwf' _) (conj _ Hinj)).
    + intros d' K Hd' Hn. apply Hmono. by apply (Hmap d').
    + exact (pushNewChildClass_owned h k d o r h' Hwf Hown Hk Hd Hrun).
  - eexists. split; [done|]. exact (conj (conj Hwf Hmap) (conj Hown Hinj)).
  - destruct (findChildClass_returns h k key Hwf Hready) as (r & h' & Hrun & Hwf' & Hmono).
    rewrite Hrun. eexists. split; [done|]. cbn [fst snd].
    refine (conj (conj Hwf' _) (conj _ Hinj)).
    + intros d' K Hd' Hn. apply Hmono. by apply (Hmap d').
    + exact (findChildClass_owned h k key r h' Hwf Hown Hready Hrun).
  - destruct (negb isForce && isCleared s) eqn:Hgo.
    + exists (h, s). unfold clear. rewrite Hgo. split; [done|].
      exact (conj (conj Hwf Hmap) (conj Hown Hinj)).
    + destruct (clear_spec h s isForce (conj Hwf Hmap) Hgo) as (h' & Hrun & Hf & Hwf' & Hz).
      eexists. split; [exact Hrun|]. cbn [fst snd].
      refine (conj (conj Hwf' _) (conj _ Hinj)).
      * cbn [counterMap]. intros d' K Hd' Hn.
        eapply clear_frame_allocated; [done|]. by apply (Hmap d').
      * by apply (clear_frame_owned h).
  - eexists. split; [done|]. exact (conj (conj Hwf Hmap) (conj Hown Hinj)).
  - eexists. split; [done|]. exact (conj (conj Hwf Hmap) (conj Hown Hinj)).
  - eexists. split; [done|]. exact (conj (conj Hwf Hmap) (conj Hown Hinj)).
  - destruct info as [info|].
    + destruct Hready as [Hlen Hfit].
      destruct (setJvmInfo_returns GC info s Hlen Hfit) as (img & ->).
      eexists. split; [done|]. exact (conj (conj Hwf Hmap) (conj Hown Hinj)).
    + eexists. split; [done|]. exact (conj (conj Hwf Hmap) (conj Hown Hinj)).
Qed.

Lemma fresh_container_destructible h cfg raw :
  heap_wf h → heap_owned h → destructible (h, TSnapShotContainer_ctor cfg raw).
Proof.
  intros Hwf Hown. refine (conj (conj Hwf _) (conj Hown _)).
  - intros d k Hd. cbn [snd TSnapShotContainer_ctor counterMap] in Hd.
    by rewrite lookup_empty in Hd.
  - intros d1 d2 k Hd. cbn [snd TSnapShotContainer_ctor counterMap] in Hd.
    by rewrite lookup_empty in Hd.
Qed.

(** X19. A run of operations on a container, each started with the
    pointers it is given allocated, and setJvmInfo with a header of 174
    bytes and, at a GC snapshot, a cause of at most 143 bytes (strcpy
    then ends inside the header): the run returns and the destructor
    then returns too.  It frees no block twice and none that is not
    allocated, the heap stays well formed, and no class counter of the
    map is left allocated.  (Inc, whose body is not in these sources, is
    taken as its description has it.) *)
Theorem destructor_returns_after_any_run GC ops : ∀ hs,
  destructible hs → ops_ready GC ops hs →
  ∃ hs' h', run_ops GC ops hs = Some hs' ∧ destructible hs' ∧
    TSnapShotContainer_dtor hs' = Some h' ∧ heap_wf h' ∧
    ∀ d k, counterMap hs'.2 !! d = Some k → k ≠ NULL → classCounters h' !! k = None.
Proof.
  induction ops as [|op ops IH]; intros hs Hd Hready.
  - destruct hs as [h s]. pose proof Hd as (Hcw & Hown & Hinj).
    destruct (TSnapShotContainer_dtor_spec h s Hcw Hown Hinj)
      as (h' & Hrun & Hwf' & _ & _ & Hfreed & _).
    exists (h, s), h'. split_and!; try done.
    intros d k Hk Hn. destruct (proj2 Hcw _ _ Hk Hn) as [cls Hcls].
    destruct (heap_wf_views _ _ _ (proj1 Hcw) Hcls) as (vs & _ & Hvs).
    apply (Hfreed _ _ _ _ Hk Hn Hcls Hvs).
  - destruct Hready as [Hop Hrest].
    destruct (run_op_destructible GC op hs Hd Hop) as (hs1 & Hrun1 & Hd1).
    destruct (IH hs1 Hd1 (Hrest _ Hrun1)) as (hs' & h' & Hrun & Hrest').
    exists hs', h'. cbn [run_ops]. rewrite Hrun1. done.
Qed.

Lemma destructor_returns_after_any_run_witness :
  destructible (demo_heap, demo_container) ∧
  ops_ready demo_GC demo_run (demo_heap, demo_container) ∧
  ∃ hs' h', run_ops demo_GC demo_run (demo_heap, demo_container) = Some hs' ∧
    TSnapShotContainer_dtor hs' = Some h'.
Proof.
  assert (destructible (demo_heap, demo_container)) as H1.
  { apply fresh_container_destructible; [apply demo_heap_wf|].
    by apply heap_owned_no_classes. }
  assert (ops_ready demo_GC demo_run (demo_heap, demo_container)) as H2.
  { cbn [ops_ready demo_run]. split; [done|]. intros hs1 Hrun.
    cbn [run_op fst snd] in Hrun. injection Hrun as <-.
    split; [split; [by vm_compute|intros _; vm_compute; lia]|]. intros ? _.
    cbn [op_ready]. repeat (split; [done|]; intros ? _). done. }
  split; [exact H1|]. split; [exact H2|].
  destruct (destructor_returns_after_any_run demo_GC demo_run _ H1 H2)
    as (hs' & h' & Hrun & _ & Hd & _).
  by exists hs', h'.
Defined.

(** X20. The destructor of a container whose class counters are its own:
    for every class counter of the map it deallocates the class
    counter, its object counter, every child node with its object
    counter, and the offset list; the class counters that are in no
    entry of the map keep their fields, their child lists and their
    counters. *)
Theorem destructor_frees_the_container h s :
  destructible (h, s) →
  ∃ h', TSnapShotContainer_dtor (h, s) = Some h' ∧
    heap_wf h' ∧ heap_shrunk h h' ∧
    (∀ d k cls vs, counterMap s !! d = Some k → k ≠ NULL →
       classCounters h !! k = Some cls → child_views h (child cls) vs →
       class_freed h' k cls vs) ∧
    (∀ k cls vs, (∀ d, counterMap s !! d ≠ Some k) → classCounters h !! k = Some cls →
       child_views h (child cls) vs →
       classCounters h' !! k = Some cls ∧ child_views h' (child cls) vs ∧
       Forall (λ a, objCounters h' !! a = objCounters h !! a) (class_counters cls vs)).
Proof.
  intros (Hcw & Hown & Hinj).
  destruct (TSnapShotContainer_dtor_spec h s Hcw Hown Hinj)
    as (h' & Hrun & Hwf' & _ & Hsh & Hfreed & Hkeep).
  by exists h'.
Qed.

Lemma demo_class_destructible : destructible (demo_class.1, demo_class.2).
Proof.
  refine (conj demo_class_wf (conj _ _)); cbn [fst snd].
  - apply (pushNewClass_owned demo_heap demo_container 100 all_ok demo_heap_wf).
    by apply heap_owned_no_classes.
  - apply (pushNewClass_injective demo_heap demo_container 100 all_ok demo_container_wf).
    intros d1 d2 k Hd. cbn [demo_container TSnapShotContainer_ctor counterMap] in Hd.
    by rewrite lookup_empty in Hd.
Qed.

Lemma destructor_frees_the_container_witness :
  destructible (demo_class.1, demo_class.2) ∧
  ∃ h', TSnapShotContainer_dtor (demo_class.1, demo_class.2) = Some h' ∧
    classCounters h' !! 64%N = None ∧ objCounters h' !! 65%N = None.
Proof.
  split; [apply demo_class_destructible|].
  destruct (destructor_frees_the_container demo_class.1 demo_class.2 demo_class_destructible)
    as (h' & Hrun & _ & _ & Hfreed & _).
  exists h'. split; [exact Hrun|].
  destruct (Hfreed 100%N 64%N (mkClassCounter 65 NULL 0 NULL (-1)) []) as (Hk & Ho & _).
  - vm_compute. reflexivity.
  - vm_compute. discriminate.
  - vm_compute. reflexivity.
  - split; [reflexivity|constructor].
  - split; [exact Hk|exact Ho].
Defined.

(** X21. A record pushed twice: the first push returned the class counter
    at the break; after the second, findClass returns it for no record,
    and the destructor of the container returns and leaves it, with its
    object counter, allocated. *)
Theorem repeated_push_leaks h s d o1 o2 :
  destructible (h, s) → oracle_ok o1 = true → oracle_ok o2 = true →
  ∃ h', TSnapShotContainer_dtor (pushNewClass d o2 (pushNewClass d o1 (h, s)).2).2 = Some h' ∧
    (pushNewClass d o1 (h, s)).1 = brk h ∧
    (∀ d', findClass d' (pushNewClass d o2 (pushNewClass d o1 (h, s)).2).2.2 ≠ brk h) ∧
    is_Some (classCounters h' !! brk h) ∧
    objCounters h' !! (brk h + 1)%N = Some zero_counter.
Proof.
  intros Hd Ho1 Ho2. pose proof Hd as ([Hwf Hmap] & Hown & Hinj).
  cbn [fst snd] in Hwf, Hmap, Hown, Hinj.
  destruct (bounded_fresh _ (proj1 Hwf)) as (Hn & _ & _ & _ & _ & _ & Hfresh & _).
  pose proof (pushNewClass_container_wf h s d o1 (conj Hwf Hmap)) as Hcw1.
  pose proof (pushNewClass_owned h s d o1 Hwf Hown) as Hown1.
  pose proof (pushNewClass_injective h s d o1 (conj Hwf Hmap) Hinj) as Hinj1.
  destruct (pushNewClass_ok h s d o1 Hwf Ho1) as (h1 & Hp1 & Hwf1 & Hk1 & Hoc1 & _ & _ & _ & Hb1).
  rewrite Hp1 in Hcw1, Hown1, Hinj1 |- *. cbn [fst snd] in Hcw1, Hown1, Hinj1 |- *.
  set (s1 := mkContainer (<[d:=brk h]> (counterMap s)) (_header s) (isCleared s)) in *.
  pose proof (pushNewClass_container_wf h1 s1 d o2 Hcw1) as Hcw2.
  pose proof (pushNewClass_owned h1 s1 d o2 Hwf1 Hown1) as Hown2.
  pose proof (pushNewClass_injective h1 s1 d o2 Hcw1 Hinj1) as Hinj2.
  destruct (pushNewClass_ok h1 s1 d o2 Hwf1 Ho2) as (h2 & Hp2 & Hwf2 & Hk2 & Hoc2 & Hcc2 & Hod2 & _).
  rewrite Hp2 in Hcw2, Hown2, Hinj2 |- *. cbn [fst snd] in Hcw2, Hown2, Hinj2 |- *.
  set (s2 := mkContainer (<[d:=brk h1]> (counterMap s1)) (_header s1) (isCleared s1)) in *.
  assert (∀ d', counterMap s2 !! d' ≠ Some (brk h)) as Hgone.
  { intros d'. subst s2 s1. cbn [counterMap]. rewrite insert_insert_eq.
    destruct (decide (d = d')) as [<-|Hne].
    - rewrite lookup_insert_eq, Hb1. intros [= E]. lia.
    - rewrite lookup_insert_ne by done. intros Hd'.
      destruct (Hmap _ _ Hd' Hn). congruence. }
  destruct (TSnapShotContainer_dtor_spec h2 s2 Hcw2 Hown2 Hinj2)
    as (h' & Hrun & _ & _ & _ & _ & Hkeep).
  exists h'. split; [done|]. split; [done|]. split.
  { intros d'. unfold findClass. specialize (Hgone d').
    destruct (counterMap s2 !! d') as [k|]; [congruence|done]. }
  destruct (Hkeep (brk h) (mkClassCounter (brk h + 1)%N NULL 0 NULL (-1)) [])
    as (Hk' & _ & Hsame).
  - done.
  - rewrite Hk2, Hk1, Hb1. rewrite lookup_insert_ne by lia. apply lookup_insert_eq.
  - split; [done|constructor].
  - split; [by eexists|].
    apply Forall_cons in Hsame as [Hsame _]. cbn [counter] in Hsame.
    rewrite Hsame, Hoc2, Hoc1, Hb1. rewrite lookup_insert_ne by lia. apply lookup_insert_eq.
Qed.

Lemma repeated_push_leaks_witness :
  ∃ h', TSnapShotContainer_dtor
          (pushNewClass 100 all_ok (pushNewClass 100 all_ok (demo_heap, demo_container)).2).2
          = Some h' ∧
    is_Some (classCounters h' !! 64%N).
Proof.
  destruct (repeated_push_leaks demo_heap demo_container 100 all_ok all_ok)
    as (h' & Hrun & _ & _ & Hleak & _).
  - apply fresh_container_destructible; [apply demo_heap_wf|].
    by apply heap_owned_no_classes.
  - reflexivity.
  - reflexivity.
  - exists h'. split; [exact Hrun|exact Hleak].
Defined.
End Destructor.

(** * Clearing and destroying in a process *)

Section WorldSteps.
Implicit Types (w : world) (h : heap) (s : TSnapShotContainer) (p : N).

Lemma delete_instance_spec w p s :
  world_owned w → containers w !! p = Some s →
  ∃ w', delete_instance p w = Some w' ∧ world_owned w' ∧
    containers w' = delete p (containers w) ∧ stockQueue w' = stockQueue w ∧
    heap_shrunk (w_heap w) (w_heap w') ∧
    (∀ d k cls vs, counterMap s !! d = Some k → k ≠ NULL →
       classCounters (w_heap w) !! k = Some cls → child_views (w_heap w) (child cls) vs →
       class_freed (w_heap w') k cls vs).
Proof.
  intros ([Hbd Hlive] & Hwf & Hown & Hcs & Hdisj) Hp.
  destruct (Hcs _ _ Hp) as [Hcw Hinj].
  destruct (TSnapShotContainer_dtor_spec _ _ Hcw Hown Hinj)
    as (h' & Hrun & Hwf' & Hown' & Hsh & Hfreed & Hkeep).
  unfold delete_instance. rewrite Hp. cbn [mbind option_bind]. rewrite Hrun.
  cbn [mbind option_bind]. eexists. split; [done|].
  cbn [containers stockQueue w_heap]. split_and!; try done.
  unfold world_owned, world_wf. cbn [containers stockQueue w_heap]. split_and!; try done.
  - apply Hwf'.
  - intros p2 [s2 Hp2].
    apply lookup_delete_Some in Hp2 as [_ Hp2].
    destruct Hsh as (_ & _ & _ & _ & _ & ->). apply Hlive. by eexists.
  - intros p2 s2 Hp2. apply lookup_delete_Some in Hp2 as [Hne Hp2].
    destruct (Hcs _ _ Hp2) as [[_ Hmap2] Hinj2]. split; [|done]. split; [done|].
    intros d k Hk Hn. destruct (Hmap2 _ _ Hk Hn) as [cls Hcls].
    destruct (heap_wf_views _ _ _ Hwf Hcls) as (vs & _ & Hvs).
    destruct (Hkeep k cls vs) as (Hk' & _); [|done|done|by eexists].
    intros d' Hd'. apply Hn. by apply (Hdisj _ _ _ _ _ _ _ Hp Hp2 Hne Hd' Hk).
  - intros p1 p2 s1 s2 d1 d2 k Hp1 Hp2.
    apply lookup_delete_Some in Hp1 as [_ Hp1]. apply lookup_delete_Some in Hp2 as [_ Hp2].
    by apply Hdisj.
Qed.

Lemma clear_world w p s :
  world_owned w → containers w !! p = Some s →
  ∃ h1 s', clear false (w_heap w, s) = Some (h1, s') ∧
    counterMap s' = counterMap s ∧ _header s' = _header s ∧ isCleared s' = true ∧
    clear_frame (w_heap w) h1 ∧
    (isCleared s = false → all_zero h1 s') ∧
    world_owned (mkWorld h1 (<[p := s']> (containers w)) (stockQueue w)) ∧
    (isCleared s = true → h1 = w_heap w ∧ s' = s).
Proof.
  intros Hw Hp. pose proof Hw as ([Hbd Hlive] & Hwf & Hown & Hcs & Hdisj).
  destruct (Hcs _ _ Hp) as [Hcw Hinj].
  destruct (isCleared s) eqn:Hc.
  - exists (w_heap w), s. unfold clear. cbn [negb andb]. rewrite Hc.
    split_and!; try done; [apply clear_frame_refl|].
    rewrite insert_id by done. by destruct w.
  - destruct (clear_spec _ s false Hcw) as (h1 & Hrun & Hf & Hwf1 & Hz); [by rewrite Hc|].
    eexists h1, _. split; [exact Hrun|]. cbn [counterMap _header isCleared].
    split_and!; try done.
    pose proof Hf as (_ & _ & Hbrk & _).
    assert (∀ p2 s2, <[p:=mkContainer (counterMap s) (_header s) true]> (containers w) !! p2
                       = Some s2 →
              ∃ s0, containers w !! p2 = Some s0 ∧ counterMap s2 = counterMap s0) as Hsame.
    { intros p2 s2 Hp2. apply lookup_insert_Some in Hp2 as [[<- <-]|[_ Hp2]]; eauto. }
    unfold world_owned, world_wf. cbn [containers stockQueue w_heap]. split_and!; try done.
    + apply Hwf1.
    + intros p2 [s2 Hp2]. rewrite Hbrk.
      destruct (Hsame _ _ Hp2) as (s0 & Hp0 & _). apply Hlive. by eexists.
    + by apply (clear_frame_owned (w_heap w)).
    + intros p2 s2 Hp2. destruct (Hsame _ _ Hp2) as (s0 & Hp0 & Hm).
      destruct (Hcs _ _ Hp0) as [[_ Hmap0] Hinj0]. split.
      * split; [done|]. intros d k. rewrite Hm. intros Hk Hn.
        eapply clear_frame_allocated; [done|]. by apply (Hmap0 d).
      * intros d1 d2 k. rewrite Hm. apply Hinj0.
    + intros p1 p2 s1 s2 d1 d2 k Hp1 Hp2 Hne.
      destruct (Hsame _ _ Hp1) as (s10 & Hp10 & ->).
      destruct (Hsame _ _ Hp2) as (s20 & Hp20 & ->).
      by apply (Hdisj _ _ _ _ _ _ _ Hp10 Hp20).
Qed.

Lemma getInstance_new cfg raw w q :
  world_owned w → stockQueue w = Some q → q = [] ∨ head q = Some NULL →
  ∃ w', getInstance cfg (Some raw) w = Some (brk (w_heap w), w') ∧ world_owned w' ∧
    containers w !! brk (w_heap w) = None ∧ brk (w_heap w) ≠ NULL ∧
    containers w' = <[brk (w_heap w) := TSnapShotContainer_ctor cfg raw]> (containers w) ∧
    stockQueue w' = Some (tail q).
Proof.
  intros ([Hbd Hlive] & Hwf & Hown & Hcs & Hdisj) Hq Hempty.
  assert (containers w !! brk (w_heap w) = None) as Hfree.
  { apply eq_None_not_Some. intros Hs%Hlive. lia. }
  assert (brk (w_heap w) ≠ NULL) as Hn by (destruct Hbd as [? _]; unfold NULL; lia).
  unfold getInstance. rewrite Hq. cbn [mbind option_bind].
  assert (∃ w0, (match q with
                 | item :: q' => (item, mkWorld (w_heap w) (containers w) (Some q'))
                 | [] => (NULL, w)
                 end) = (NULL, w0) ∧ w_heap w0 = w_heap w ∧ containers w0 = containers w ∧
                stockQueue w0 = Some (tail q)) as (w0 & -> & E1 & E2 & E3).
  { destruct Hempty as [->|Hh].
    - exists w. by rewrite Hq.
    - destruct q as [|x q']; [done|]. injection Hh as ->. eexists. done. }
  rewrite decide_True by done. unfold alloc. rewrite E1, E2, E3.
  eexists. split; [done|]. cbn [containers stockQueue w_heap].
  split_and!; try done.
  set (h' := with_brk (w_heap w) (brk (w_heap w) + 1)).
  assert (heap_wf h') as Hwf'.
  { apply (heap_wf_same (w_heap w)); try done. subst h'. cbn. lia. }
  unfold world_owned, world_wf. cbn [containers stockQueue w_heap]. split_and!; try done.
  - apply Hwf'.
  - intros p2 Hp2. subst h'. cbn [with_brk brk].
    apply lookup_insert_is_Some' in Hp2 as [<-|Hp2]; [destruct Hbd as [? _]; lia|].
    apply Hlive in Hp2. lia.
  - apply (heap_owned_kept (w_heap w)); [done|done|].
    intros k cls' vs' Hk Hvs. exists cls', vs'. split_and!; [done| |done].
    by apply (child_views_same h').
  - intros p2 s2 Hp2. apply lookup_insert_Some in Hp2 as [[<- <-]|[_ Hp2]].
    + split; [split; [done|]|].
      * intros d k. cbn [TSnapShotContainer_ctor counterMap]. by rewrite lookup_empty.
      * intros d1 d2 k. cbn [TSnapShotContainer_ctor counterMap]. by rewrite lookup_empty.
    + destruct (Hcs _ _ Hp2) as [[_ Hmap2] Hinj2]. done.
  - intros p1 p2 s1 s2 d1 d2 k Hp1 Hp2 Hne.
    apply lookup_insert_Some in Hp1 as [[<- <-]|[_ Hp1]];
      [cbn [TSnapShotContainer_ctor counterMap]; by rewrite lookup_empty|].
    apply lookup_insert_Some in Hp2 as [[<- <-]|[_ Hp2]];
      [cbn [TSnapShotContainer_ctor counterMap]; by rewrite lookup_empty|].
    by apply (Hdisj _ _ _ _ _ _ _ Hp1 Hp2).
Qed.
End WorldSteps.

(** * The stock under a client *)

Section Pool.
Implicit Types (w : world) (h : heap) (s : TSnapShotContainer) (p : N) (held q : list N).

Lemma world_owned_stock h cs (q1 q2 : option (list N)) :
  world_owned (mkWorld h cs q1) → world_owned (mkWorld h cs q2).
Proof. done. Qed.

Lemma held_split held i p :
  held !! i = Some p → held ≡ₚ p :: delete i held.
Proof.
  intros Hi. rewrite <- (take_drop_middle _ _ _ Hi) at 1.
  rewrite delete_take_drop. symmetry. apply Permutation_middle.
Qed.

Lemma getInstance_step cfg fresh held w :
  pool_ok held w →
  ∃ r w', getInstance cfg fresh w = Some (r, w') ∧
    pool_ok (if decide (r = NULL) then held else held ++ [r]) w'.
Proof.
  intros (Hw & q & Hq & Hlen & Hnd & Hlive & Hclr).
  destruct q as [|p q'].
  - destruct fresh as [raw|].
    + destruct (getInstance_new cfg raw w [] Hw Hq) as (w' & Hrun & Hw' & Hfree & Hn & Hcs & Hq');
        [by left|].
      exists (brk (w_heap w)), w'. split; [done|]. rewrite decide_False by done.
      split; [done|]. exists []. cbn [tail] in Hq'. split; [done|]. split; [simpl; lia|].
      rewrite !app_nil_r in *. split_and!.
      * apply NoDup_app. split_and!; [done| |apply NoDup_singleton].
        intros x Hx ->%list_elem_of_singleton. rewrite Forall_forall in Hlive.
        destruct (Hlive _ Hx) as [_ [y Hy]]. congruence.
      * apply Forall_app. split.
        -- eapply Forall_impl; [exact Hlive|]. intros x [? Hx]. split; [done|].
           rewrite Hcs. apply lookup_insert_is_Some'. by right.
        -- constructor; [|constructor]. split; [done|]. rewrite Hcs, lookup_insert_eq.
           by eexists.
      * constructor.
    + exists NULL, w. unfold getInstance. rewrite Hq. cbn [mbind option_bind].
      rewrite decide_True by done. split; [done|]. rewrite decide_True by done.
      split; [done|]. exists []. by split_and!.
  - assert (p ≠ NULL) as Hp.
    { rewrite Forall_forall in Hlive. apply (Hlive p). apply elem_of_app. right.
      apply list_elem_of_here. }
    exists p, (mkWorld (w_heap w) (containers w) (Some q')). split.
    { unfold getInstance. rewrite Hq. cbn [mbind option_bind]. by rewrite decide_False. }
    rewrite decide_False by done. split; [by destruct w|].
    exists q'. cbn [stockQueue containers]. split; [done|].
    split; [simpl in Hlen; lia|].
    assert ((held ++ [p]) ++ q' = held ++ p :: q') as -> by by rewrite <- app_assoc.
    split_and!; [done|done|]. by apply Forall_cons in Hclr as [_ ?].
Qed.

Lemma releaseInstance_step held w i p push_ok :
  pool_ok held w → held !! i = Some p →
  ∃ w', releaseInstance p push_ok w = Some w' ∧ pool_ok (delete i held) w'.
Proof.
  intros (Hw & q & Hq & Hlen & Hnd & Hlive & Hclr) Hi.
  pose proof (held_split _ _ _ Hi) as Hperm.
  rewrite Hperm in Hnd, Hlive. cbn [app] in Hnd, Hlive.
  apply NoDup_cons in Hnd as [Hnin Hnd].
  apply Forall_cons in Hlive as [[Hp [s Hs]] Hlive].
  assert (∀ x, x ∈ delete i held ++ q → x ≠ p) as Hother by (intros x Hx ->; done).
  (* the instance destroyed, from a world in which it is live *)
  assert (∀ w1, world_owned w1 → is_Some (containers w1 !! p) → stockQueue w1 = Some q →
            (∀ x, x ≠ p → containers w1 !! x = containers w !! x) →
            ∃ w', delete_instance p w1 = Some w' ∧ pool_ok (delete i held) w') as Hdestroy.
  { intros w1 Hw1 [s1 Hs1] Hq1 Hsame.
    destruct (delete_instance_spec w1 p s1 Hw1 Hs1) as (w' & Hrun & Hw' & Hcs & Hq' & _).
    exists w'. split; [done|]. split; [done|]. exists q. rewrite Hq', Hq1.
    split_and!; try done.
    - rewrite Forall_forall in Hlive |- *. intros x Hx.
      destruct (Hlive x Hx) as [Hxn Hxl]. split; [done|].
      rewrite Hcs, lookup_delete_ne by (apply not_eq_sym; by apply Hother).
      rewrite Hsame by by apply Hother. done.
    - rewrite Forall_forall in Hclr |- *. intros x Hx.
      assert (x ≠ p) as Hxp by (apply Hother, elem_of_app; by right).
      rewrite Hcs, lookup_delete_ne by done. rewrite Hsame by done. by apply Hclr. }
  unfold releaseInstance. rewrite decide_False by done. rewrite Hq. cbn [mbind option_bind].
  case_decide as Hspace.
  - rewrite Hs. cbn [mbind option_bind].
    destruct (clear_world w p s Hw Hs) as (h1 & s' & Hrun & Hm & Hhd & Hc & Hf & _ & Hw1 & _).
    rewrite Hrun. cbn [mbind option_bind w_heap containers stockQueue].
    destruct push_ok.
    + eexists. split; [done|]. split; [exact Hw1|]. exists (q ++ [p]).
      cbn [stockQueue containers]. split; [done|].
      split; [rewrite length_app; simpl; lia|]. split_and!.
      * rewrite app_assoc. apply NoDup_app. split_and!; [done| |apply NoDup_singleton].
        intros x Hx ->%list_elem_of_singleton. done.
      * rewrite app_assoc. apply Forall_app. split.
        -- eapply Forall_impl; [exact Hlive|]. intros x [? Hx]. split; [done|].
           apply lookup_insert_is_Some'. by right.
        -- constructor; [|constructor]. split; [done|]. rewrite lookup_insert_eq. by eexists.
      * apply Forall_app. split.
        -- rewrite Forall_forall in Hclr |- *. intros x Hx.
           rewrite lookup_insert_ne; [by apply Hclr|].
           apply not_eq_sym, Hother, elem_of_app. by right.
        -- constructor; [|constructor]. exists s'. by rewrite lookup_insert_eq.
    + apply Hdestroy; [exact Hw1| |done|].
      * cbn [containers]. rewrite lookup_insert_eq. by eexists.
      * intros x Hx. cbn [containers]. by rewrite lookup_insert_ne.
  - apply Hdestroy; [done|by eexists|done|done].
Qed.

(** X22. The stock under a client that releases only instances it holds:
    every getInstance and releaseInstance call returns, whatever the
    allocator and the queue do; the stock never holds more than
    MAX_STOCK_COUNT instances; the instances held and those in stock are
    live, not null and pairwise distinct; and every instance in stock
    has its flag set. *)
Theorem stock_protocol_is_safe cfg calls : ∀ held w,
  pool_ok held w →
  ∃ held' w', run_pool cfg calls held w = Some (held', w') ∧ pool_ok held' w'.
Proof.
  induction calls as [|[fresh|i push_ok] calls IH]; intros held w Hok.
  - by exists held, w.
  - destruct (getInstance_step cfg fresh held w Hok) as (r & w1 & Hrun & Hok1).
    destruct (IH _ _ Hok1) as (held' & w' & Hrest & Hok').
    exists held', w'. cbn [run_pool]. rewrite Hrun. done.
  - cbn [run_pool]. destruct (held !! i) as [p|] eqn:Hi; [|by apply IH].
    destruct (releaseInstance_step held w i p push_ok Hok Hi) as (w1 & Hrun & Hok1).
    destruct (IH _ _ Hok1) as (held' & w' & Hrest & Hok').
    exists held', w'. rewrite Hrun. done.
Qed.
End Pool.

(** * globalFinalize and instances that are not stocked *)

Section StockTheorems.
Implicit Types (w : world) (h : heap) (s : TSnapShotContainer) (p : N) (held q : list N).

Lemma pool_ok_empty_world : pool_ok [] demo_world.
Proof.
  split.
  - unfold world_owned. split_and!.
    + apply demo_world_wf.
    + apply demo_heap_wf.
    + by apply heap_owned_no_classes.
    + intros p s Hp. cbn [demo_world containers] in Hp. by rewrite lookup_empty in Hp.
    + intros p1 p2 s1 s2 d1 d2 k Hp. cbn [demo_world containers] in Hp.
      by rewrite lookup_empty in Hp.
  - exists []. split_and!; [done|unfold MAX_STOCK_COUNT; simpl; lia|constructor| |];
      constructor.
Qed.

Lemma stock_protocol_is_safe_witness :
  pool_ok [] demo_world ∧
  ∃ held' w', run_pool demo_config demo_pool [] demo_world = Some (held', w') ∧
    pool_ok held' w'.
Proof.
  split; [apply pool_ok_empty_world|].
  apply (stock_protocol_is_safe demo_config demo_pool [] demo_world pool_ok_empty_world).
Defined.

Lemma deleteAll_spec q : ∀ w,
  world_owned w → NoDup q → Forall (λ p, is_Some (containers w !! p)) q →
  ∃ w', deleteAll q w = Some w' ∧ world_owned w' ∧ stockQueue w' = stockQueue w ∧
    ∀ x, containers w' !! x = if decide (x ∈ q) then None else containers w !! x.
Proof.
  induction q as [|p q IH]; intros w Hw Hnd Hlive.
  - exists w. split_and!; try done.
  - apply NoDup_cons in Hnd as [Hnin Hnd]. apply Forall_cons in Hlive as [[s Hs] Hlive].
    destruct (delete_instance_spec w p s Hw Hs) as (w1 & Hrun & Hw1 & Hcs & Hq & _).
    destruct (IH w1 Hw1 Hnd) as (w' & Hrun' & Hw' & Hq' & Hcs').
    { rewrite Forall_forall in Hlive |- *. intros x Hx. rewrite Hcs.
      rewrite lookup_delete_ne by (intros ->; done). by apply Hlive. }
    exists w'. cbn [deleteAll]. rewrite Hrun. cbn [mbind option_bind].
    split_and!; [done|done|congruence|].
    intros x. rewrite Hcs', Hcs. destruct (decide (x ∈ q)) as [Hx|Hx].
    + by rewrite decide_True by by right.
    + destruct (decide (x = p)) as [->|Hne].
      * rewrite lookup_delete_eq. by rewrite decide_True by by left.
      * rewrite lookup_delete_ne by done. rewrite decide_False; [done|].
        by intros [?|?]%elem_of_cons.
Qed.

(** X23. globalFinalize deletes every instance in stock, leaves the
    instances that are held, and sets stockQueue to null: a second call
    changes nothing, and getInstance, or releaseInstance of a non-null
    instance, after it dereferences the null stockQueue. *)
Theorem globalFinalize_destroys_the_stock held w :
  pool_ok held w →
  ∃ q w', stockQueue w = Some q ∧ globalFinalize w = Some w' ∧
    stockQueue w' = None ∧ world_owned w' ∧
    (∀ p, p ∈ q → containers w' !! p = None) ∧
    (∀ p, p ∈ held → containers w' !! p = containers w !! p) ∧
    globalFinalize w' = Some w' ∧
    (∀ cfg fresh, getInstance cfg fresh w' = None) ∧
    (∀ p push_ok, p ≠ NULL → releaseInstance p push_ok w' = None).
Proof.
  intros (Hw & q & Hq & Hlen & Hnd & Hlive & Hclr).
  apply NoDup_app in Hnd as (_ & Hdisj & Hndq).
  apply Forall_app in Hlive as [_ Hliveq].
  destruct (deleteAll_spec q w Hw Hndq) as (w1 & Hrun & Hw1 & Hq1 & Hcs).
  { eapply Forall_impl; [exact Hliveq|]. by intros x [_ ?]. }
  exists q, (mkWorld (w_heap w1) (containers w1) None).
  unfold globalFinalize at 1. rewrite Hq, Hrun. cbn [mbind option_bind].
  split_and!; try done.
  - intros p Hp. cbn [containers]. by rewrite Hcs, decide_True.
  - intros p Hp. cbn [containers]. rewrite Hcs, decide_False; [done|]. by apply Hdisj.
  - intros p push_ok Hp. unfold releaseInstance. by rewrite decide_False.
Qed.

Lemma globalFinalize_destroys_the_stock_witness :
  pool_ok [] demo_world ∧
  ∃ w', globalFinalize demo_world = Some w' ∧ stockQueue w' = None ∧
    getInstance demo_config None w' = None.
Proof.
  split; [apply pool_ok_empty_world|].
  destruct (globalFinalize_destroys_the_stock [] demo_world pool_ok_empty_world)
    as (q & w' & _ & Hrun & Hq & _ & _ & _ & _ & Hget & _).
  exists w'. split; [exact Hrun|]. split; [exact Hq|apply Hget].
Defined.

(** X24. releaseInstance of an instance that does not reach the stock,
    because the stock is full or because the queue push throws: it
    returns, the object is deleted, every class counter of its map is
    deallocated, the stock and the other instances are what they
    were. *)
Theorem releaseInstance_destroys_what_it_cannot_stock w p s q push_ok :
  world_owned w → p ≠ NULL → containers w !! p = Some s → stockQueue w = Some q →
  ¬ length q < MAX_STOCK_COUNT ∨ push_ok = false →
  ∃ w', releaseInstance p push_ok w = Some w' ∧ world_owned w' ∧
    containers w' !! p = None ∧ stockQueue w' = Some q ∧
    (∀ p', p' ≠ p → containers w' !! p' = containers w !! p') ∧
    (∀ d k, counterMap s !! d = Some k → k ≠ NULL →
            classCounters (w_heap w') !! k = None).
Proof.
  intros Hw Hp Hs Hq Hcase.
  assert (∀ w1 s1, world_owned w1 → containers w1 !! p = Some s1 →
            counterMap s1 = counterMap s → stockQueue w1 = Some q →
            (∀ p', p' ≠ p → containers w1 !! p' = containers w !! p') →
            ∃ w', delete_instance p w1 = Some w' ∧ world_owned w' ∧
              containers w' !! p = None ∧ stockQueue w' = Some q ∧
              (∀ p', p' ≠ p → containers w' !! p' = containers w !! p') ∧
              (∀ d k, counterMap s !! d = Some k → k ≠ NULL →
                      classCounters (w_heap w') !! k = None)) as Hdestroy.
  { intros w1 s1 Hw1 Hs1 Hm Hq1 Hsame.
    destruct (delete_instance_spec w1 p s1 Hw1 Hs1) as (w' & Hrun & Hw' & Hcs & Hq' & _ & Hfreed).
    exists w'. split_and!; try done.
    - by rewrite Hcs, lookup_delete_eq.
    - congruence.
    - intros p' Hne. rewrite Hcs, lookup_delete_ne by done. by apply Hsame.
    - intros d k Hk Hn. rewrite <- Hm in Hk.
      destruct Hw1 as (_ & Hwf1 & _ & Hcs1 & _).
      destruct (Hcs1 _ _ Hs1) as [[_ Hmap1] _].
      destruct (Hmap1 _ _ Hk Hn) as [cls Hcls].
      destruct (heap_wf_views _ _ _ Hwf1 Hcls) as (vs & _ & Hvs).
      apply (Hfreed _ _ _ _ Hk Hn Hcls Hvs). }
  unfold releaseInstance. rewrite decide_False by done. rewrite Hq. cbn [mbind option_bind].
  case_decide as Hspace.
  - destruct Hcase as [?| ->]; [done|].
    rewrite Hs. cbn [mbind option_bind].
    destruct (clear_world w p s Hw Hs) as (h1 & s' & Hrun & Hm & _ & _ & _ & _ & Hw1 & _).
    rewrite Hrun. cbn [mbind option_bind w_heap containers stockQueue].
    apply (Hdestroy _ s'); [exact Hw1| |done|done|].
    + cbn [containers]. apply lookup_insert_eq.
    + intros p' Hne. cbn [containers]. by rewrite lookup_insert_ne.
  - by apply (Hdestroy w s).
Qed.
End StockTheorems.

(** * Recycled instances *)

Section Recycling.
Implicit Types (w : world) (h : heap) (s : TSnapShotContainer) (p : N) (held q : list N).

Lemma demo_live_owned : world_owned demo_live.
Proof.
  assert (heap_wf demo_class.1) as Hwf by apply demo_class_wf.
  unfold world_owned, world_wf, demo_live. cbn [w_heap containers]. split_and!.
  - apply Hwf.
  - intros p [s Hp]. apply lookup_singleton_Some in Hp as [<- _].
    assert (brk demo_class.1 = 66%N) as -> by (by vm_compute). lia.
  - done.
  - apply (pushNewClass_owned demo_heap demo_container 100 all_ok demo_heap_wf).
    by apply heap_owned_no_classes.
  - intros p s Hp. apply lookup_singleton_Some in Hp as [<- <-]. split.
    + apply demo_class_wf.
    + apply (pushNewClass_injective demo_heap demo_container 100 all_ok demo_container_wf).
      intros d1 d2 k Hd. cbn [demo_container TSnapShotContainer_ctor counterMap] in Hd.
      by rewrite lookup_empty in Hd.
  - intros p1 p2 s1 s2 d1 d2 k Hp1 Hp2 Hne.
    apply lookup_singleton_Some in Hp1 as [<- _].
    apply lookup_singleton_Some in Hp2 as [<- _]. done.
Qed.

Lemma releaseInstance_destroys_what_it_cannot_stock_witness :
  world_owned demo_live ∧ 1%N ≠ NULL ∧
  containers demo_live !! 1%N = Some demo_class.2 ∧ stockQueue demo_live = Some [] ∧
  ∃ w', releaseInstance 1 false demo_live = Some w' ∧ containers w' !! 1%N = None ∧
    classCounters (w_heap w') !! 64%N = None.
Proof.
  assert (1%N ≠ NULL) as H2 by (by vm_compute).
  assert (containers demo_live !! 1%N = Some demo_class.2) as H3 by apply lookup_singleton_eq.
  assert (stockQueue demo_live = Some []) as H4 by reflexivity.
  split; [apply demo_live_owned|]. split; [exact H2|]. split; [exact H3|]. split; [exact H4|].
  destruct (releaseInstance_destroys_what_it_cannot_stock demo_live 1 demo_class.2 [] false
              demo_live_owned H2 H3 H4 (or_intror eq_refl))
    as (w' & Hrun & _ & Hgone & _ & _ & Hfreed).
  exists w'. split; [exact Hrun|]. split; [exact Hgone|].
  apply (Hfreed 100%N); by vm_compute.
Defined.

Lemma demo_counted_owned : world_owned demo_counted.
Proof.
  pose proof demo_live_owned as ([Hbd Hlive] & Hwf & Hown & Hcs & Hdisj).
  cbn [demo_live w_heap containers] in Hbd, Hlive, Hwf, Hown, Hcs, Hdisj.
  destruct (addInc_spec demo_class.1 65 50 (mkObjectCounter 0 0) (mkObjectCounter 1 24))
    as (h' & Hrun & Honly & _); [by vm_compute|by vm_compute|].
  assert (demo_count 65 demo_class.1 = h') as E by (unfold demo_count; by rewrite Hrun).
  pose proof (addInc_heap_wf _ _ _ _ Hwf Hrun) as Hwf'.
  pose proof Honly as (_ & E2 & _ & _ & E5).
  unfold world_owned, world_wf, demo_counted. cbn [w_heap containers]. rewrite E.
  refine (conj (conj (proj1 Hwf') _) (conj Hwf' (conj _ (conj _ Hdisj)))).
  - rewrite E5. apply Hlive.
  - by apply (only_counters_owned demo_class.1).
  - intros p s Hp. destruct (Hcs p s Hp) as [[_ Hmap] Hinj]. split; [|done]. split; [done|].
    intros d k Hd Hn. rewrite E2. by apply (Hmap d).
Qed.

(** X25. An instance released into an empty stock and acquired again: the
    same object comes back, with the same class map (findClass returns
    what it returned) and the same header, and its flag is set.  If
    the flag was not set at the release, every counter now reads zero;
    if it was set, the release has written nothing, so the counters are
    what they were: zero when the flag told the truth, and what was
    counted otherwise. *)
Theorem recycled_container_keeps_its_classes cfg fresh w p s :
  world_owned w → p ≠ NULL → containers w !! p = Some s → stockQueue w = Some [] →
  ∃ w1 w2 s',
    releaseInstance p true w = Some w1 ∧ getInstance cfg fresh w1 = Some (p, w2) ∧
    containers w2 !! p = Some s' ∧ stockQueue w2 = Some [] ∧
    counterMap s' = counterMap s ∧ _header s' = _header s ∧
    (∀ d, findClass d s' = findClass d s) ∧
    isCleared s' = true ∧
    (isCleared s = false → all_zero (w_heap w2) s') ∧
    (isCleared s = true → w_heap w2 = w_heap w ∧ s' = s) ∧
    (cleared_inv (w_heap w, s) → all_zero (w_heap w2) s').
Proof.
  intros Hw Hp Hs Hq.
  destruct (clear_world w p s Hw Hs) as (h1 & s' & Hrun & Hm & Hhd & Hc & Hf & Hz & Hw1 & Hid).
  eexists _, _, s'. split.
  { unfold releaseInstance. rewrite decide_False by done. rewrite Hq. cbn [mbind option_bind].
    rewrite decide_True by (unfold MAX_STOCK_COUNT; simpl; lia).
    rewrite Hs. cbn [mbind option_bind]. rewrite Hrun. cbn [mbind option_bind]. done. }
  cbn [w_heap containers stockQueue app]. split.
  { unfold getInstance. cbn [stockQueue mbind option_bind]. by rewrite decide_False. }
  cbn [w_heap containers stockQueue]. split_and!; try done.
  - apply lookup_insert_eq.
  - intros d. unfold findClass. by rewrite Hm.
  - intros Hinv. destruct (isCleared s) eqn:E.
    + destruct (Hid eq_refl) as [-> ->]. apply Hinv. done.
    + by apply Hz.
Qed.

(** An instance with a class counted into, given back with its flag
    set: it returns from the stock with the counter at (1, 24). *)
Lemma recycled_container_keeps_its_classes_witness :
  (∃ w1 w2 s',
    releaseInstance 1 true demo_live = Some w1 ∧
    getInstance demo_config None w1 = Some (1%N, w2) ∧
    containers w2 !! 1%N = Some s' ∧ findClass 100 s' = 64%N ∧ all_zero (w_heap w2) s') ∧
  (∃ w1 w2 s',
    releaseInstance 1 true demo_counted = Some w1 ∧
    getInstance demo_config None w1 = Some (1%N, w2) ∧
    containers w2 !! 1%N = Some s' ∧ findClass 100 s' = 64%N ∧ isCleared s' = true ∧
    objCounters (w_heap w2) !! 65%N = Some (mkObjectCounter 1 24)).
Proof.
  split.
  - destruct (recycled_container_keeps_its_classes demo_config None demo_live 1 demo_class.2)
      as (w1 & w2 & s' & H1 & H2 & H3 & _ & _ & _ & Hf & _ & _ & _ & Hz).
    + apply demo_live_owned.
    + by vm_compute.
    + apply lookup_singleton_eq.
    + reflexivity.
    + exists w1, w2, s'. split; [exact H1|]. split; [exact H2|]. split; [exact H3|].
      split; [|exact (Hz demo_class_cleared)]. rewrite Hf. by vm_compute.
  - destruct (recycled_container_keeps_its_classes demo_config None demo_counted 1
                demo_class.2)
      as (w1 & w2 & s' & H1 & H2 & H3 & _ & _ & _ & Hf & Hc & _ & Hsame & _).
    + apply demo_counted_owned.
    + by vm_compute.
    + apply lookup_singleton_eq.
    + reflexivity.
    + exists w1, w2, s'. split; [exact H1|]. split; [exact H2|]. split; [exact H3|].
      split; [rewrite Hf; by vm_compute|]. split; [exact Hc|].
      destruct Hsame as [-> _]; by vm_compute.
Defined.

(** X26. releaseInstance does not look whether the instance is in stock
    already: released twice, it is in stock twice, two getInstance calls
    then return the same object, and globalFinalize on that stock
    deletes the object twice, which has no defined behaviour. *)
Theorem double_release_hands_out_twice cfg fresh1 fresh2 w p s :
  world_owned w → p ≠ NULL → containers w !! p = Some s → stockQueue w = Some [] →
  ∃ w1 w2 w3 w4,
    releaseInstance p true w = Some w1 ∧ releaseInstance p true w1 = Some w2 ∧
    stockQueue w2 = Some [p; p] ∧
    getInstance cfg fresh1 w2 = Some (p, w3) ∧ getInstance cfg fresh2 w3 = Some (p, w4) ∧
    globalFinalize w2 = None.
Proof.
  intros Hw Hp Hs Hq.
  destruct (clear_world w p s Hw Hs) as (h1 & s' & Hrun & Hm & Hhd & Hc & Hf & Hz & Hw1 & Hid).
  set (w1 := mkWorld h1 (<[p:=s']> (containers w)) (Some [p])).
  set (w2 := mkWorld h1 (<[p:=s']> (containers w)) (Some [p; p])).
  assert (world_owned w2) as Hw2 by exact Hw1.
  exists w1, w2, (mkWorld h1 (<[p:=s']> (containers w)) (Some [p])),
    (mkWorld h1 (<[p:=s']> (containers w)) (Some [])).
  split_and!.
  - unfold releaseInstance. rewrite decide_False by done. rewrite Hq. cbn [mbind option_bind].
    rewrite decide_True by (unfold MAX_STOCK_COUNT; simpl; lia).
    rewrite Hs. cbn [mbind option_bind]. rewrite Hrun. cbn [mbind option_bind]. done.
  - unfold releaseInstance, w1. rewrite decide_False by done.
    cbn [stockQueue mbind option_bind containers w_heap].
    rewrite decide_True by (unfold MAX_STOCK_COUNT; simpl; lia).
    rewrite lookup_insert_eq. cbn [mbind option_bind].
    unfold clear. cbn [negb andb]. rewrite Hc. cbn [mbind option_bind].
    by rewrite insert_insert_eq.
  - done.
  - unfold getInstance, w2. cbn [stockQueue mbind option_bind]. by rewrite decide_False.
  - unfold getInstance. cbn [stockQueue mbind option_bind]. by rewrite decide_False.
  - unfold globalFinalize, w2. cbn [stockQueue deleteAll].
    fold w2.
    destruct (delete_instance_spec w2 p s' Hw2) as (w' & Hdel & _ & Hcs & _);
      [apply lookup_insert_eq|].
    rewrite Hdel. cbn [mbind option_bind]. unfold delete_instance.
    by rewrite Hcs, lookup_delete_eq.
Qed.

Lemma double_release_hands_out_twice_witness :
  ∃ w2 w3 w4,
    stockQueue w2 = Some [1; 1]%N ∧
    getInstance demo_config None w2 = Some (1%N, w3) ∧
    getInstance demo_config None w3 = Some (1%N, w4) ∧
    globalFinalize w2 = None.
Proof.
  destruct (double_release_hands_out_twice demo_config None None demo_live 1 demo_class.2)
    as (w1 & w2 & w3 & w4 & _ & _ & H3 & H4 & H5 & H6).
  - apply demo_live_owned.
  - by vm_compute.
  - apply lookup_singleton_eq.
  - reflexivity.
  - exists w2, w3, w4. split; [exact H3|]. split; [exact H4|]. split; [exact H5|exact H6].
Defined.
End Recycling.

(** * clear and the class counters of other containers *)

Section ClearIsolation.
Implicit Types (h : heap) (vs : list child_view) (s : TSnapShotContainer).

Lemma clear_step_exact h d k cls vs :
  heap_wf h → k ≠ NULL → classCounters h !! k = Some cls →
  child_views h (child cls) vs →
  ∃ h', (∀ rest, clearLoop ((d, k) :: rest) h = clearLoop rest h') ∧
    clear_frame h h' ∧ heap_wf h' ∧
    (∀ x, objCounters h' !! x =
          if decide (x ∈ class_counters cls vs) then Some zero_counter
          else objCounters h !! x) ∧
    classCounters h' = <[k := reset_cache cls]> (classCounters h).
Proof.
  intros Hwf Hn Hk Hvs.
  destruct (clearLoop_step h d k cls Hwf Hn Hk) as (h' & Heq & Hf & Hwf' & _).
  exists h'. split; [done|]. split; [done|]. split; [done|].
  specialize (Heq []). cbn [clearLoop] in Heq. rewrite decide_False in Heq by done.
  rewrite Hk in Heq. cbn [mbind option_bind] in Heq.
  destruct (heap_wf_views _ _ _ Hwf Hk) as (vs0 & Hcw & Hvs0).
  rewrite (child_views_inj _ _ _ _ Hvs0 Hvs) in Hcw. clear vs0 Hvs0.
  destruct Hcw as (Hlock & Hctr & Hofs & _ & Hcs).
  destruct (free_block (offsets cls) h) as [h1|] eqn:Hfree; [|done].
  cbn [mbind option_bind] in Heq.
  assert (objCounters h1 = objCounters h ∧ childCounters h1 = childCounters h ∧
          classCounters h1 = classCounters h ∧ objDatas h1 = objDatas h)
    as (F1 & F2 & F3 & F4).
  { unfold free_block in Hfree. repeat case_decide; try done; by injection Hfree as <-. }
  unfold reset_offsets in Heq. rewrite F3, Hk in Heq. cbn [mbind option_bind] in Heq.
  set (h2 := with_classCounters h1 (<[k:=reset_cache cls]> (classCounters h))) in *.
  destruct (clearChildClassCounters_spec h2 k (reset_cache cls) vs)
    as (h3 & Hrun & (_ & E2 & _) & Hm).
  { apply lookup_insert_eq. }
  { split; [done|]. split; [by rewrite <- F1 in Hctr|]. split; [by left|].
    split; [by apply (child_views_same h)|]. by rewrite <- F1 in Hcs. }
  rewrite Hrun in Heq. injection Heq as ->. split; [|done].
  intros x. rewrite Hm. cbn [counter reset_cache]. unfold class_counters.
  subst h2. cbn [with_classCounters objCounters]. rewrite F1.
  destruct (decide (x = counter cls ∨ x ∈ cv_counter <$> vs)) as [Hx|Hx].
  - rewrite decide_True; [done|]. destruct Hx as [->|Hx]; [by left|by right].
  - rewrite decide_False; [done|]. intros [->|Hin]%elem_of_cons; apply Hx; eauto.
Qed.

Lemma clearLoop_isolation entries : ∀ h,
  heap_wf h → heap_owned h →
  (∀ d k, (d, k) ∈ entries → k ≠ NULL → is_Some (classCounters h !! k)) →
  ∃ h', clearLoop entries h = Some h' ∧ heap_wf h' ∧
    ∀ k cls vs, (∀ d, (d, k) ∉ entries) → classCounters h !! k = Some cls →
      child_views h (child cls) vs →
      classCounters h' !! k = Some cls ∧ child_views h' (child cls) vs ∧
      Forall (λ a, objCounters h' !! a = objCounters h !! a) (class_counters cls vs).
Proof.
  induction entries as [|[d k] entries IH]; intros h Hwf Hown Hall.
  - exists h. split_and!; try done. intros k cls vs _ Hk Hvs.
    split_and!; [done|done|]. by apply Forall_forall.
  - destruct (decide (k = NULL)) as [->|Hkn].
    + destruct (IH h Hwf Hown) as (h' & Hrun & Hwf' & Hkeep).
      { intros d' k' Hin. apply (Hall d'). by right. }
      exists h'. split_and!; try done.
      intros k' cls vs Hnone. apply Hkeep. intros d' Hin. apply (Hnone d'). by right.
    + destruct (Hall d k (list_elem_of_here _ _) Hkn) as [cls Hk].
      destruct (heap_wf_views _ _ _ Hwf Hk) as (vs & _ & Hvs).
      destruct (clear_step_exact h d k cls vs Hwf Hkn Hk Hvs)
        as (h1 & Hstep & Hf & Hwf1 & Ho & Hkk).
      pose proof (clear_frame_owned _ _ Hwf Hown Hf) as Hown1.
      destruct (IH h1 Hwf1 Hown1) as (h' & Hrun & Hwf' & Hkeep).
      { intros d' k' Hin Hn'. eapply clear_frame_allocated; [done|].
        apply (Hall d'); [by right|done]. }
      exists h'. split_and!; [by rewrite Hstep|done|].
      intros k2 cls2 vs2 Hnone Hk2 Hvs2.
      assert (k2 ≠ k) as Hne by (intros ->; apply (Hnone d); by left).
      pose proof Hf as (F1 & F2 & _).
      destruct (Hkeep k2 cls2 vs2) as (Hk2' & Hvs2' & Hsame).
      { intros d' Hin. apply (Hnone d'). by right. }
      { rewrite Hkk. by rewrite lookup_insert_ne. }
      { by apply (child_views_same h). }
      split_and!; [done|done|].
      rewrite Forall_forall in Hsame |- *. intros a Ha. rewrite (Hsame a Ha), Ho.
      rewrite decide_False; [done|]. intros Ha'.
      destruct (Hown _ _ _ _ _ _ Hk2 Hk Hvs2 Hvs) as [_ Hdisj]. by apply (Hdisj Hne a).
Qed.

(** X27. clear writes to the class counters of its own map and to nothing
    else: on a container whose class counters are its own it returns,
    and a class counter that no entry of the map leads to keeps its
    fields, its child list, the values of its counters and of its
    children's counters, and its offsets block. *)
Theorem clear_leaves_other_containers h s isForce :
  container_wf h s → heap_owned h →
  ∃ hs', clear isForce (h, s) = Some hs' ∧
    ∀ k cls vs, (∀ d, counterMap s !! d ≠ Some k) → classCounters h !! k = Some cls →
      child_views h (child cls) vs →
      classCounters hs'.1 !! k = Some cls ∧ child_views hs'.1 (child cls) vs ∧
      Forall (λ a, objCounters hs'.1 !! a = objCounters h !! a) (class_counters cls vs) ∧
      (offsets cls = NULL ∨ offsets cls ∈ oopMapBlocks hs'.1).
Proof.
  intros [Hwf Hmap] Hown. unfold clear.
  destruct (negb isForce && isCleared s).
  - exists (h, s). split; [done|]. intros k cls vs _ Hk Hvs. cbn [fst].
    split_and!; [done|done|by apply Forall_forall|].
    destruct (heap_wf_views _ _ _ Hwf Hk) as (vs0 & Hcw & _). apply Hcw.
  - destruct (clearLoop_isolation (map_to_list (counterMap s)) h Hwf Hown)
      as (h' & Hrun & Hwf' & Hkeep).
    { intros d k Hin. apply (Hmap d). by apply elem_of_map_to_list. }
    rewrite Hrun. cbn [mbind option_bind]. eexists. split; [done|]. cbn [fst].
    intros k cls vs Hnone Hk Hvs.
    destruct (Hkeep k cls vs) as (Hk' & Hvs' & Hsame); [|done|done|].
    { intros d Hin%elem_of_map_to_list. by apply (Hnone d). }
    split_and!; [done|done|done|].
    destruct (heap_wf_views _ _ _ Hwf' Hk') as (vs0 & Hcw & _). apply Hcw.
Qed.
End ClearIsolation.

Section ClearIsolationExample.
Lemma demo_second_wf :
  container_wf demo_second.1 demo_class.2 ∧ heap_owned demo_second.1 ∧
  ∀ d, counterMap demo_class.2 !! d ≠ Some 66%N.
Proof.
  pose proof demo_class_wf as [Hwf Hmap].
  assert (heap_owned demo_class.1) as Hown.
  { apply (pushNewClass_owned demo_heap demo_container 100 all_ok demo_heap_wf).
    by apply heap_owned_no_classes. }
  assert (∀ d k, counterMap demo_class.2 !! d = Some k → k = 64%N) as Honly.
  { intros d k. unfold demo_class.
    destruct (pushNewClass_ok demo_heap demo_container 100 all_ok demo_heap_wf eq_refl)
      as (h' & -> & _). cbn [snd counterMap demo_container TSnapShotContainer_ctor].
    intros Hd. apply lookup_insert_Some in Hd as [[_ <-]|[_ Hd]]; [done|].
    by rewrite lookup_empty in Hd. }
  split_and!.
  - split; [apply (pushNewClass_heap_wf _ demo_container 101%N all_ok Hwf)|].
    intros d k Hd Hn. unfold demo_second.
    destruct (pushNewClass_ok demo_class.1 demo_container 101 all_ok Hwf eq_refl)
      as (h' & -> & _ & Hk' & _). cbn [fst snd]. rewrite Hk'.
    apply lookup_insert_is_Some'. right. by apply (Hmap d).
  - by apply (pushNewClass_owned demo_class.1 demo_container 101 all_ok).
  - intros d Hd. by apply Honly in Hd.
Qed.

Lemma clear_leaves_other_containers_witness :
  container_wf demo_second.1 demo_class.2 ∧ heap_owned demo_second.1 ∧
  ∃ hs', clear true (demo_second.1, demo_class.2) = Some hs' ∧
    classCounters hs'.1 !! 66%N = Some (mkClassCounter 67 NULL 0 NULL (-1)) ∧
    objCounters hs'.1 !! 67%N = objCounters demo_second.1 !! 67%N.
Proof.
  destruct demo_second_wf as (H1 & H2 & H3).
  split; [exact H1|]. split; [exact H2|].
  destruct (clear_leaves_other_containers demo_second.1 demo_class.2 true H1 H2)
    as (hs' & Hrun & Hkeep).
  exists hs'. split; [exact Hrun|].
  destruct (Hkeep 66%N (mkClassCounter 67 NULL 0 NULL (-1)) [] H3) as (Hk & _ & Hsame & _).
  - vm_compute. reflexivity.
  - split; [reflexivity|constructor].
  - split; [exact Hk|]. by apply Forall_cons in Hsame as [Hsame _].
Defined.
End ClearIsolationExample.

(** * What getInstance returns *)

Section Acquire.
Implicit Types (w : world) (h : heap) (s : TSnapShotContainer) (p : N) (held q : list N).

(** X28. What getInstance returns, when the stock is in order: null when
    the stock is empty and the allocation fails, and only then, with
    nothing changed; otherwise the oldest instance in stock, as it was
    stocked, or a newly constructed one when the stock is empty.  The
    instance returned is live, has its flag set and is none of the
    instances held; the instances held are not written. *)
Theorem getInstance_returns_stocked_or_new cfg fresh held w :
  pool_ok held w →
  ∃ q r w', stockQueue w = Some q ∧ getInstance cfg fresh w = Some (r, w') ∧
    (r = NULL ↔ (q = [] ∧ fresh = None)) ∧ (r = NULL → w' = w) ∧
    (r ≠ NULL → (r ∉ held) ∧ stockQueue w' = Some (tail q) ∧
       ∃ s, containers w' !! r = Some s ∧ isCleared s = true ∧
         (head q = Some r ∧ containers w !! r = Some s ∨
          q = [] ∧ containers w !! r = None ∧
          ∃ raw, fresh = Some raw ∧ s = TSnapShotContainer_ctor cfg raw)) ∧
    (∀ p, p ∈ held → containers w' !! p = containers w !! p).
Proof.
  intros (Hw & q & Hq & Hlen & Hnd & Hlive & Hclr). exists q.
  destruct q as [|p q'].
  - destruct fresh as [raw|].
    + destruct (getInstance_new cfg raw w [] Hw Hq) as (w' & Hrun & Hw' & Hfree & Hn & Hcs & Hq');
        [by left|].
      exists (brk (w_heap w)), w'. split; [done|]. split; [done|].
      rewrite app_nil_r in Hlive, Hnd.
      assert (brk (w_heap w) ∉ held) as Hnew.
      { intros Hin. rewrite Forall_forall in Hlive.
        destruct (Hlive _ Hin) as [_ [y Hy]]. congruence. }
      split_and!.
      * split; [done|]. by intros [_ ?].
      * done.
      * intros _. split; [done|]. split; [done|].
        exists (TSnapShotContainer_ctor cfg raw). split; [by rewrite Hcs, lookup_insert_eq|].
        split; [done|]. right. split; [done|]. split; [done|]. by exists raw.
      * intros p Hp. rewrite Hcs. apply lookup_insert_ne. by intros <-.
    + exists NULL, w. split; [done|]. split.
      { unfold getInstance. rewrite Hq. cbn [mbind option_bind]. by rewrite decide_True. }
      split_and!; done.
  - assert (p ≠ NULL ∧ p ∉ held) as [Hp Hnin].
    { rewrite Forall_forall in Hlive. split.
      - apply (Hlive p). apply elem_of_app. right. apply list_elem_of_here.
      - intros Hin. apply NoDup_app in Hnd as (_ & Hd & _). apply (Hd p Hin).
        apply list_elem_of_here. }
    exists p, (mkWorld (w_heap w) (containers w) (Some q')). split; [done|]. split.
    { unfold getInstance. rewrite Hq. cbn [mbind option_bind]. by rewrite decide_False. }
    apply Forall_cons in Hclr as [(s & Hs & Hc) _].
    split_and!.
    + split; [done|]. by intros [? _].
    + done.
    + intros _. split; [done|]. split; [done|]. exists s. cbn [containers].
      split; [done|]. split; [done|]. by left.
    + done.
Qed.

Lemma getInstance_returns_stocked_or_new_witness :
  pool_ok [] demo_world ∧
  ∃ r w', getInstance demo_config (Some (replicate 174 x00)) demo_world = Some (r, w') ∧
    r ≠ NULL ∧ ∃ s, containers w' !! r = Some s ∧ isCleared s = true.
Proof.
  split; [apply pool_ok_empty_world|].
  destruct (getInstance_returns_stocked_or_new demo_config (Some (replicate 174 x00)) []
              demo_world pool_ok_empty_world)
    as (q & r & w' & Hq & Hrun & Hnull & _ & Hlive & _).
  exists r, w'. split; [exact Hrun|].
  assert (r ≠ NULL) as Hr.
  { intros E. apply Hnull in E as [_ E]. discriminate. }
  split; [exact Hr|].
  destruct (Hlive Hr) as (_ & _ & s & Hs & Hc & _). by exists s.
Defined.
End Acquire.
